(** * sneaky-backend: server lifecycle, metrics retention, deployments,
      monitoring alerts and billing proration

    A shallow embedding of
    - [src/services/ServerService.ts] (instance catalog, provisioning,
      start/stop, the per-server metrics collector),
    - [src/routes/servers.ts] (server creation, start and stop handlers, and
      the usage handler of the billing router),
    - [src/routes/deployments.ts] (deployment creation and redeploy),
    - [src/routes/monitoring.ts] (the overview and the bucketed metrics),
    - [src/server.ts] (what a start of the process sets up),
    - the database monitor of sneaky-database (its clean-up of old samples),
    followed by the properties of the design document that concern them.

    Conventions.
    - The Prisma tables are finite maps keyed by record id (servers,
      deployments) or a list in insertion order (metric samples).  Record
      ids, which the store generates, are natural numbers drawn from a
      counter.
    - JavaScript numbers that hold measurements or prices are exact
      rationals ([Q]); every comparison in the code is against an integer
      constant, which a double represents exactly.  An amount is what the
      source computes, operation by operation, before rounding.  Integers
      are [Z].
    - Time is epoch milliseconds ([Z]).  The clock and [Math.random] are
      inputs of the events that read them; the time zone of the process is
      a parameter of the functions that read local dates.
    - [setTimeout] and [setInterval] are tables of pending callbacks; an
      event of the environment runs one of them.  The store outlives the
      process, the timers do not: an event of its own ends the process and
      starts it again.
    - A handler or a callback is one step: handlers are taken to run one
      after the other.  The source awaits the store between its calls, so
      the calls of two handlers can interleave; what would not survive that
      (that names stay unique within an organization, that a stopped server
      gets no further sample) is not stated, and where a handler checks the
      store before it writes, what is stated is about the rows the check
      reads.
    - The store raises where the events say so: in the delayed callbacks
      and in the ticks of the collector, whose [catch] blocks decide what
      is left. *)

From Stdlib Require Import ZArith QArith Qround Lia Ascii String.
From stdpp Require Import base option list gmap sorting strings pretty.

#[local] Open Scope string_scope.
#[local] Open Scope Z_scope.

Abbreviation Id := nat.
Abbreviation Handle := nat.

(** ** Strings: the two sanitizers the handlers use

    A JavaScript string is a sequence of UTF-16 units, and the sanitizers
    and the length check of the validator work on those.  The strings of
    this development are byte strings: an ASCII text is the same in both,
    and on ASCII texts the definitions below do what the source does.  The
    properties that turn on the characters of a name are stated of ASCII
    texts. *)

(** [trim()] of express-validator, on the ASCII white space. *)
Fixpoint ltrim (s : string) : string :=
  match s with
  | String a s' => if Ascii.is_space a then ltrim s' else s
  | EmptyString => EmptyString
  end.

Definition trim (s : string) : string :=
  String.rev (ltrim (String.rev (ltrim s))).

(** [c.toLowerCase()] on one ASCII character. *)
Definition toLowerCase_ascii (a : ascii) : ascii :=
  let n := nat_of_ascii a in
  if ((65 <=? n) && (n <=? 90))%nat then ascii_of_nat (n + 32) else a.

(** The character class [[a-z0-9]]. *)
Definition is_lower_alnum (a : ascii) : bool :=
  let n := nat_of_ascii a in
  (((97 <=? n) && (n <=? 122)) || ((48 <=? n) && (n <=? 57)))%nat.

(** [name.toLowerCase().replace(/[^a-z0-9]/g, '-')]. *)
Fixpoint slug (s : string) : string :=
  match s with
  | EmptyString => EmptyString
  | String a s' =>
      let c := toLowerCase_ascii a in
      String (if is_lower_alnum c then c else "-"%char) (slug s')
  end.

(** The character class [[\w\-\.]]. *)
Definition is_repo_char (a : ascii) : bool :=
  let n := nat_of_ascii a in
  (((97 <=? n) && (n <=? 122)) || ((65 <=? n) && (n <=? 90))
   || ((48 <=? n) && (n <=? 57)) || (n =? 95) || (n =? 45) || (n =? 46))%nat.

Fixpoint string_forallb (p : ascii → bool) (s : string) : bool :=
  match s with
  | EmptyString => true
  | String a s' => p a && string_forallb p s'
  end.

(** The texts of the ASCII range. *)
Definition is_ascii (s : string) : bool :=
  string_forallb (λ a, (nat_of_ascii a <? 128)%nat) s.

(** [s] up to the first ['/'], and what follows it (if there is one). *)
Fixpoint split_slash (s : string) : string * option string :=
  match s with
  | EmptyString => (EmptyString, None)
  | String a s' =>
      if Ascii.eqb a "/"%char then (EmptyString, Some s')
      else let '(h, t) := split_slash s' in (String a h, t)
  end.

Fixpoint strip_prefix (p s : string) : option string :=
  match p, s with
  | EmptyString, _ => Some s
  | String a p', String b s' => if Ascii.eqb a b then strip_prefix p' s' else None
  | String _ _, EmptyString => None
  end.

(** [/^https:\/\/github\.com\/[\w\-\.]+\/[\w\-\.]+$/]. *)
Definition matches_github (s : string) : bool :=
  match strip_prefix "https://github.com/" s with
  | None => false
  | Some rest =>
      match split_slash rest with
      | (owner, Some repo) =>
          negb (String.eqb owner "") && string_forallb is_repo_char owner
          && negb (String.eqb repo "") && string_forallb is_repo_char repo
      | (_, None) => false
      end
  end.

(** ** Data model *)

Inductive ServerStatus := pending | running | stopped | failed | terminated.

#[global] Instance ServerStatus_eq_dec : EqDecision ServerStatus.
Proof. solve_decision. Defined.

Inductive DeploymentStatus := d_pending | d_building | d_deployed | d_failed.

#[global] Instance DeploymentStatus_eq_dec : EqDecision DeploymentStatus.
Proof. solve_decision. Defined.

(** [interface InstanceSpecs] of ServerService.ts. *)
Module InstanceSpecs.
Record t := mk {
  cpu : Z;
  memory : Z;
  storage : Z;
  bandwidth : Z;
  monthlyPrice : Q
}.
End InstanceSpecs.

(** A row of [prisma.server], with the columns the handlers read or write. *)
Module Server.
Record t := mk {
  id : Id;
  name : string;
  hostname : string;
  ipAddress : string;
  region : string;
  provider : string;
  instanceType : string;
  cpu : Z;
  memory : Z;
  storage : Z;
  bandwidth : Z;
  monthlyPrice : Q;
  organizationId : Id;
  status : ServerStatus;
  isActive : bool;
  createdAt : Z
}.

Definition with_status (st : ServerStatus) (s : t) : t :=
  mk (id s) (name s) (hostname s) (ipAddress s) (region s) (provider s)
     (instanceType s) (cpu s) (memory s) (storage s) (bandwidth s)
     (monthlyPrice s) (organizationId s) st (isActive s) (createdAt s).

Definition with_ipAddress (ip : string) (s : t) : t :=
  mk (id s) (name s) (hostname s) ip (region s) (provider s)
     (instanceType s) (cpu s) (memory s) (storage s) (bandwidth s)
     (monthlyPrice s) (organizationId s) (status s) (isActive s) (createdAt s).
End Server.

(** A row of [prisma.deployment]. *)
Module Deployment.
Record t := mk {
  id : Id;
  name : string;
  repository : string;
  branch : string;
  serverId : Id;
  buildCommand : option string;
  startCommand : option string;
  envVars : list (string * string);
  organizationId : Id;
  status : DeploymentStatus;
  deployUrl : string;
  buildLogs : string;
  createdAt : Z;
  updatedAt : Z
}.

(** [data: { status, buildLogs }] of an update. *)
Definition with_status_logs (st : DeploymentStatus) (logs : string) (d : t) : t :=
  mk (id d) (name d) (repository d) (branch d) (serverId d) (buildCommand d)
     (startCommand d) (envVars d) (organizationId d) st (deployUrl d) logs
     (createdAt d) (updatedAt d).

Definition with_updatedAt (now : Z) (d : t) : t :=
  mk (id d) (name d) (repository d) (branch d) (serverId d) (buildCommand d)
     (startCommand d) (envVars d) (organizationId d) (status d) (deployUrl d)
     (buildLogs d) (createdAt d) now.
End Deployment.

(** A row of [prisma.serverMetric]; [timestamp] is the store's clock at the
    insert. *)
Module ServerMetric.
Record t := mk {
  id : Id;
  serverId : Id;
  cpuUsage : Q;
  memoryUsage : Q;
  diskUsage : Q;
  networkIn : Q;
  networkOut : Q;
  timestamp : Z
}.
End ServerMetric.

(** What [io.to(room).emit(event, payload)] sends; the room is
    [server:<id>] or [deployment:<id>]. *)
Inductive SocketEvent :=
  | server_status (serverId : Id) (status : ServerStatus) (ipAddress : option string)
  | server_metrics (serverId : Id) (cpuUsage memoryUsage diskUsage networkIn networkOut : Q)
                   (timestamp : Z)
  | deployment_status (deploymentId : Id) (status : DeploymentStatus).

(** The callbacks handed to [setTimeout]. *)
Inductive Task :=
  | provisioning (serverId : Id)        (* ServerService.ts:73, 30000 ms *)
  | build_start (deploymentId : Id)     (* deployments.ts:164, 5000 ms *)
  | build_finish (deploymentId : Id).   (* deployments.ts:175, 30000 ms *)

Definition delay (k : Task) : Z :=
  match k with
  | provisioning _ => 30000
  | build_start _ => 5000
  | build_finish _ => 30000
  end.

(** The state of the process and of its store. *)
Record World := mkWorld {
  instanceSpecs : gmap string (gmap string InstanceSpecs.t);
                                        (* ServerService.instanceSpecs *)
  servers : gmap Id Server.t;           (* prisma.server *)
  deployments : gmap Id Deployment.t;   (* prisma.deployment *)
  serverMetrics : list ServerMetric.t;  (* prisma.serverMetric, oldest insert first *)
  nextId : Id;                          (* the store's id generator *)
  metricsIntervals : gmap Id Handle;    (* ServerService.metricsIntervals *)
  intervals : gmap Handle Id;           (* active setInterval timers, with the
                                           serverId their callback closes over *)
  timeouts : gmap Handle Task;          (* pending setTimeout callbacks *)
  nextHandle : Handle;
  emitted : list SocketEvent            (* newest last *)
}.

Definition set_instanceSpecs (c : gmap string (gmap string InstanceSpecs.t)) (w : World) :=
  mkWorld c (servers w) (deployments w) (serverMetrics w) (nextId w)
    (metricsIntervals w) (intervals w) (timeouts w) (nextHandle w) (emitted w).
Definition set_servers (x : gmap Id Server.t) (w : World) :=
  mkWorld (instanceSpecs w) x (deployments w) (serverMetrics w) (nextId w)
    (metricsIntervals w) (intervals w) (timeouts w) (nextHandle w) (emitted w).
Definition set_deployments (x : gmap Id Deployment.t) (w : World) :=
  mkWorld (instanceSpecs w) (servers w) x (serverMetrics w) (nextId w)
    (metricsIntervals w) (intervals w) (timeouts w) (nextHandle w) (emitted w).
Definition set_serverMetrics (x : list ServerMetric.t) (w : World) :=
  mkWorld (instanceSpecs w) (servers w) (deployments w) x (nextId w)
    (metricsIntervals w) (intervals w) (timeouts w) (nextHandle w) (emitted w).
Definition set_nextId (x : Id) (w : World) :=
  mkWorld (instanceSpecs w) (servers w) (deployments w) (serverMetrics w) x
    (metricsIntervals w) (intervals w) (timeouts w) (nextHandle w) (emitted w).
Definition set_metricsIntervals (x : gmap Id Handle) (w : World) :=
  mkWorld (instanceSpecs w) (servers w) (deployments w) (serverMetrics w) (nextId w)
    x (intervals w) (timeouts w) (nextHandle w) (emitted w).
Definition set_intervals (x : gmap Handle Id) (w : World) :=
  mkWorld (instanceSpecs w) (servers w) (deployments w) (serverMetrics w) (nextId w)
    (metricsIntervals w) x (timeouts w) (nextHandle w) (emitted w).
Definition set_timeouts (x : gmap Handle Task) (w : World) :=
  mkWorld (instanceSpecs w) (servers w) (deployments w) (serverMetrics w) (nextId w)
    (metricsIntervals w) (intervals w) x (nextHandle w) (emitted w).
Definition set_nextHandle (x : Handle) (w : World) :=
  mkWorld (instanceSpecs w) (servers w) (deployments w) (serverMetrics w) (nextId w)
    (metricsIntervals w) (intervals w) (timeouts w) x (emitted w).
Definition emit (e : SocketEvent) (w : World) :=
  mkWorld (instanceSpecs w) (servers w) (deployments w) (serverMetrics w) (nextId w)
    (metricsIntervals w) (intervals w) (timeouts w) (nextHandle w) (emitted w ++ [e]).

(** The line feed of the log texts. *)
Definition nl : string := String (ascii_of_nat 10) EmptyString.

(** ** Exceptions and responses *)

Inductive Thrown :=
  | HttpError (message : string) (statusCode : Z)  (* createError(message, statusCode) *)
  | Error (message : string).                      (* new Error(message), or one the store raises *)

Record Response := mkResponse { statusCode : Z; message : string }.

(** ** Timers *)

Definition setTimeout (k : Task) (w : World) : World :=
  set_nextHandle (S (nextHandle w)) (set_timeouts (<[nextHandle w := k]> (timeouts w)) w).

Definition setInterval (serverId : Id) (w : World) : Handle * World :=
  (nextHandle w,
   set_nextHandle (S (nextHandle w)) (set_intervals (<[nextHandle w := serverId]> (intervals w)) w)).

Definition clearInterval (h : Handle) (w : World) : World :=
  set_intervals (delete h (intervals w)) w.

(** ** The store *)

(** [prisma.server.update({ where: { id }, data })]; [None] when the store
    raises because no such record exists. *)
Definition server_update (id : Id) (data : Server.t → Server.t) (w : World) : option World :=
  match servers w !! id with
  | Some s => Some (set_servers (<[id := data s]> (servers w)) w)
  | None => None
  end.

Definition deployment_update (id : Id) (data : Deployment.t → Deployment.t) (w : World)
  : option World :=
  match deployments w !! id with
  | Some d => Some (set_deployments (<[id := data d]> (deployments w)) w)
  | None => None
  end.

(** [findFirst({ where: { id, organizationId, isActive: true } })]. *)
Definition findServer (id organizationId : Id) (w : World) : option Server.t :=
  match servers w !! id with
  | Some s =>
      if bool_decide (Server.organizationId s = organizationId ∧ Server.isActive s = true)
      then Some s else None
  | None => None
  end.

(** [findFirst({ where: { id, organizationId } })] on deployments. *)
Definition findDeployment (id organizationId : Id) (w : World) : option Deployment.t :=
  match deployments w !! id with
  | Some d => if bool_decide (Deployment.organizationId d = organizationId) then Some d else None
  | None => None
  end.

(** [orderBy: { timestamp: 'desc' }]: newest first.  The store does not say
    how it orders equal timestamps; the sort used here is one such order. *)
Definition newer_first (a b : ServerMetric.t) : Prop :=
  (ServerMetric.timestamp b ≤ ServerMetric.timestamp a)%Z.

#[global] Instance newer_first_dec : RelDecision newer_first.
Proof. intros a b. unfold newer_first. apply _. Defined.

Definition orderBy_timestamp_desc (l : list ServerMetric.t) : list ServerMetric.t :=
  merge_sort newer_first l.

Definition of_server (serverId : Id) (l : list ServerMetric.t) : list ServerMetric.t :=
  filter (λ m, ServerMetric.serverId m = serverId) l.

(** [deleteMany({ where: { id: { in: ids } } })]. *)
Definition deleteMany (ids : list Id) (l : list ServerMetric.t) : list ServerMetric.t :=
  filter (λ m, ServerMetric.id m ∉ ids) l.

(** ** ServerService.ts *)

(** The table of ServerService.ts:14-44. *)
Definition catalog : gmap string (gmap string InstanceSpecs.t) :=
  let spec c m s b p := InstanceSpecs.mk c m s b p in
  list_to_map [
    ("aws", list_to_map [
       ("t3.micro", spec 2 1 20 100 8.50%Q);
       ("t3.small", spec 2 2 20 100 17.00%Q);
       ("t3.medium", spec 2 4 30 200 34.00%Q);
       ("t3.large", spec 2 8 50 300 68.00%Q);
       ("m5.large", spec 2 8 50 500 88.00%Q);
       ("m5.xlarge", spec 4 16 100 750 176.00%Q) ]);
    ("digitalocean", list_to_map [
       ("s-1vcpu-1gb", spec 1 1 25 1000 6.00%Q);
       ("s-1vcpu-2gb", spec 1 2 50 2000 12.00%Q);
       ("s-2vcpu-2gb", spec 2 2 60 3000 18.00%Q);
       ("s-2vcpu-4gb", spec 2 4 80 4000 24.00%Q);
       ("s-4vcpu-8gb", spec 4 8 160 5000 48.00%Q) ]);
    ("gcp", list_to_map [
       ("e2-micro", spec 2 1 20 100 7.00%Q);
       ("e2-small", spec 2 2 20 200 14.00%Q);
       ("e2-medium", spec 2 4 30 300 28.00%Q);
       ("e2-standard-2", spec 2 8 50 500 56.00%Q);
       ("e2-standard-4", spec 4 16 100 750 112.00%Q) ]);
    ("azure", list_to_map [
       ("B1s", spec 1 1 30 100 8.00%Q);
       ("B1ms", spec 1 2 30 200 16.00%Q);
       ("B2s", spec 2 4 60 400 32.00%Q);
       ("B2ms", spec 2 8 60 600 64.00%Q);
       ("B4ms", spec 4 16 120 1000 128.00%Q) ]) ].

(** The process at its first start: the static catalog, an empty store, no
    timers.  Later starts find the store as it was left; see [exited]. *)
Definition boot : World :=
  mkWorld catalog ∅ ∅ [] 0%nat ∅ ∅ ∅ 0%nat [].

(** [getInstanceSpecs] (ServerService.ts:46-52).  The table has the keys the
    source writes out.  An object of the source has inherited keys as well
    ([constructor], [toString], ...), under which the lookup finds a value
    that is no specification and does not throw; what the insert that
    follows makes of it is for the schema of the store to say, which is not
    part of the source.  Such instance types are [None] here. *)
Definition getInstanceSpecs (provider instanceType : string) (w : World)
  : Thrown + InstanceSpecs.t :=
  match instanceSpecs w !! provider ≫= (λ types, types !! instanceType) with
  | Some specs => inr specs
  | None => inl (Error ("Unknown instance type: " +:+ provider +:+ "/" +:+ instanceType))
  end.

Definition stopMetricsCollection (serverId : Id) (w : World) : World :=
  match metricsIntervals w !! serverId with
  | Some interval =>
      let w := clearInterval interval w in
      set_metricsIntervals (delete serverId (metricsIntervals w)) w
  | None => w
  end.

Definition startMetricsCollection (serverId : Id) (w : World) : World :=
  (* Clear existing interval if any *)
  let w := stopMetricsCollection serverId w in
  let '(interval, w) := setInterval serverId w in
  set_metricsIntervals (<[serverId := interval]> (metricsIntervals w)) w.

(** The retention cap of the collector ([skip: 1000]). *)
Definition RETENTION : nat := 1000.

(** The sample one tick inserts (ServerService.ts:174-189); [rnd i] is the
    i-th [Math.random()] of the tick, [id] and [now] come from the store. *)
Definition sample (id serverId : Id) (now : Z) (rnd : nat → Q) : ServerMetric.t :=
  let cpuUsage := (rnd 0%nat * 100)%Q in
  let memoryUsage := (rnd 1%nat * 100)%Q in
  let diskUsage := (rnd 2%nat * 100)%Q in
  let networkIn := (rnd 3%nat * 1000000)%Q in
  let networkOut := (rnd 4%nat * 1000000)%Q in
  ServerMetric.mk id serverId cpuUsage memoryUsage diskUsage networkIn networkOut now.

(** The rows [findMany({ where: { serverId }, orderBy: { timestamp: 'desc' },
    skip: 1000 })] returns. *)
Definition oldMetrics (serverId : Id) (l : list ServerMetric.t) : list ServerMetric.t :=
  drop RETENTION (orderBy_timestamp_desc (of_server serverId l)).

(** The body of the [setInterval] callback (ServerService.ts:171-225) for one
    tick at clock [now].  One [try] covers the insert, the emit and the
    clean-up, and its [catch] only logs: when [fault] holds the insert raises
    and the tick is skipped; when [fault'] holds the insert goes through and
    the clean-up ([findMany] or [deleteMany]) raises, which leaves the new row
    and deletes none. *)
Definition collectMetrics (serverId : Id) (now : Z) (rnd : nat → Q) (fault fault' : bool)
    (w : World) : World :=
  if fault then w else
  let row := sample (nextId w) serverId now rnd in
  let w := set_nextId (S (nextId w)) (set_serverMetrics (serverMetrics w ++ [row]) w) in
  (* Emit real-time metrics *)
  let w := emit (server_metrics serverId (ServerMetric.cpuUsage row)
                   (ServerMetric.memoryUsage row) (ServerMetric.diskUsage row)
                   (ServerMetric.networkIn row) (ServerMetric.networkOut row) now) w in
  (* Clean up old metrics (keep last 1000 records) *)
  if fault' then w else
  let old := oldMetrics serverId (serverMetrics w) in
  if bool_decide (0 < length old)%nat
  then set_serverMetrics (deleteMany (ServerMetric.id <$> old) (serverMetrics w)) w
  else w.

(** [Math.floor(Math.random() * 255)] as decimal text. *)
Definition octet (r : Q) : string := pretty (Qfloor (r * 255)).

(** What is left of the world when the process ends: the store.  The timers
    and the collector registry live in the process; [start()] of server.ts
    registers none, so this is also the world of the process that is started
    next. *)
Definition exited (w : World) : World :=
  set_metricsIntervals ∅ (set_intervals ∅ (set_timeouts ∅ w)).

(** The [setTimeout] callback of [provisionServer] (ServerService.ts:73-107).
    [fault] makes the first update raise for a reason of the store's own,
    [fault'] the update of the [catch] block.  That second update is awaited
    outside any [try]: when it raises, because the store refuses it or
    because the record is gone, the rejection is handled nowhere (server.ts
    installs no handler for it) and the process ends. *)
Definition provisioned (serverId : Id) (rnd : nat → Q) (fault fault' : bool) (w : World)
  : World :=
  let ipAddress :=
    "10." +:+ octet (rnd 0%nat) +:+ "." +:+ octet (rnd 1%nat) +:+ "." +:+ octet (rnd 2%nat) in
  let updated :=
    if fault then None
    else server_update serverId
           (λ s, Server.with_ipAddress ipAddress (Server.with_status running s)) w in
  match updated with
  | Some w =>
      let w := startMetricsCollection serverId w in
      emit (server_status serverId running (Some ipAddress)) w
  | None =>
      (* catch *)
      let updated :=
        if fault' then None else server_update serverId (Server.with_status failed) w in
      match updated with
      | Some w => w
      | None => exited w
      end
  end.

Definition provisionServer (serverId : Id) (w : World) : (Thrown + unit) * World :=
  match servers w !! serverId with
  | None => (inl (Error "Server not found"), w)
  | Some _ =>
      match server_update serverId (Server.with_status pending) w with
      | None => (inl (Error "Record to update not found"), w)
      | Some w => (inr (), setTimeout (provisioning serverId) w)
      end
  end.

Definition startServer (serverId : Id) (w : World) : (Thrown + unit) * World :=
  match server_update serverId (Server.with_status running) w with
  | None => (inl (Error "Record to update not found"), w)
  | Some w =>
      let w := startMetricsCollection serverId w in
      (inr (), emit (server_status serverId running None) w)
  end.

Definition stopServer (serverId : Id) (w : World) : (Thrown + unit) * World :=
  match server_update serverId (Server.with_status stopped) w with
  | None => (inl (Error "Record to update not found"), w)
  | Some w =>
      let w := stopMetricsCollection serverId w in
      (inr (), emit (server_status serverId stopped None) w)
  end.

(** ** routes/servers.ts *)

(** The body of [POST /api/servers]; the optional fields are [None] when
    absent. *)
Module ServerBody.
Record t := mk {
  name : string;
  provider : string;
  region : string;
  instanceType : string;
  cpu : option Z;
  memory : option Z;
  storage : option Z
}.
End ServerBody.

(** [body(f).optional().isInt({ min })]. *)
Definition optional_min (min : Z) (v : option Z) : bool :=
  match v with
  | Some n => bool_decide (min ≤ n)%Z
  | None => true
  end.

(** The validation chain of servers.ts:142-150, on the trimmed fields. *)
Definition validServerBody (b : ServerBody.t) : bool :=
  let n := String.length (trim (ServerBody.name b)) in
  bool_decide (1 ≤ n ≤ 100)%nat
  && bool_decide (ServerBody.provider b ∈ ["aws"; "gcp"; "azure"; "digitalocean"])
  && bool_decide (1 ≤ String.length (trim (ServerBody.region b)))%nat
  && bool_decide (1 ≤ String.length (trim (ServerBody.instanceType b)))%nat
  && optional_min 1 (ServerBody.cpu b)
  && optional_min 1 (ServerBody.memory b)
  && optional_min 10 (ServerBody.storage b).

(** The texts of the body are ASCII. *)
Definition asciiServerBody (b : ServerBody.t) : bool :=
  is_ascii (ServerBody.name b) && is_ascii (ServerBody.region b)
  && is_ascii (ServerBody.instanceType b).

(** [v || d] on an optional number: absent and [0] are falsy. *)
Definition or_default (v : option Z) (d : Z) : Z :=
  match v with
  | Some n => if (n =? 0)%Z then d else n
  | None => d
  end.

(** [POST /api/servers] (servers.ts:142-202) for a user of [organizationId]
    at clock [now]. *)
Definition postServer (organizationId : Id) (now : Z) (b : ServerBody.t) (w : World)
  : (Thrown + Response) * World :=
  if negb (validServerBody b) then (inl (HttpError "Validation failed" 400), w) else
  let name := trim (ServerBody.name b) in
  let provider := ServerBody.provider b in
  let region := trim (ServerBody.region b) in
  let instanceType := trim (ServerBody.instanceType b) in
  (* Check if server name already exists in organization *)
  if bool_decide (map_Exists (λ _ s, Server.name s = name
                                     ∧ Server.organizationId s = organizationId
                                     ∧ Server.isActive s = true) (servers w))
  then (inl (HttpError "Server name already exists" 409), w) else
  (* Get instance specifications and pricing *)
  match getInstanceSpecs provider instanceType w with
  | inl e => (inl e, w)
  | inr specs =>
      let server :=
        Server.mk (nextId w) name (slug name +:+ ".sneaky.cloud") "0.0.0.0"
          region provider instanceType
          (or_default (ServerBody.cpu b) (InstanceSpecs.cpu specs))
          (or_default (ServerBody.memory b) (InstanceSpecs.memory specs))
          (or_default (ServerBody.storage b) (InstanceSpecs.storage specs))
          (InstanceSpecs.bandwidth specs)
          (InstanceSpecs.monthlyPrice specs)
          organizationId pending true now in
      let w := set_nextId (S (nextId w))
                 (set_servers (<[Server.id server := server]> (servers w)) w) in
      (* Start server provisioning process *)
      match provisionServer (Server.id server) w with
      | (inl e, w) => (inl e, w)
      | (inr _, w) => (inr (mkResponse 201 "Server created successfully"), w)
      end
  end.

(** [POST /api/servers/:id/start] (servers.ts:269-289). *)
Definition postStart (organizationId id : Id) (w : World) : (Thrown + Response) * World :=
  match findServer id organizationId w with
  | None => (inl (HttpError "Server not found" 404), w)
  | Some server =>
      if bool_decide (Server.status server = running)
      then (inl (HttpError "Server is already running" 400), w)
      else
        match startServer (Server.id server) w with
        | (inl e, w) => (inl e, w)
        | (inr _, w) => (inr (mkResponse 200 "Server start initiated"), w)
        end
  end.

(** [POST /api/servers/:id/stop] (servers.ts:309-329). *)
Definition postStop (organizationId id : Id) (w : World) : (Thrown + Response) * World :=
  match findServer id organizationId w with
  | None => (inl (HttpError "Server not found" 404), w)
  | Some server =>
      if bool_decide (Server.status server = stopped)
      then (inl (HttpError "Server is already stopped" 400), w)
      else
        match stopServer (Server.id server) w with
        | (inl e, w) => (inl e, w)
        | (inr _, w) => (inr (mkResponse 200 "Server stop initiated"), w)
        end
  end.

(** ** routes/deployments.ts *)

Module DeploymentBody.
Record t := mk {
  name : string;
  repository : string;
  branch : option string;
  serverId : Id;
  buildCommand : option string;
  startCommand : option string;
  envVars : option (list (string * string))
}.
End DeploymentBody.

(** The validation chain of deployments.ts:102-110. *)
Definition validDeploymentBody (b : DeploymentBody.t) : bool :=
  let n := String.length (trim (DeploymentBody.name b)) in
  let repository := trim (DeploymentBody.repository b) in
  bool_decide (1 ≤ n ≤ 100)%nat
  && bool_decide (1 ≤ String.length repository)%nat && matches_github repository
  && match DeploymentBody.branch b with
     | Some br => bool_decide (1 ≤ String.length (trim br))%nat
     | None => true
     end.

(** The texts of the body are ASCII. *)
Definition asciiDeploymentBody (b : DeploymentBody.t) : bool :=
  is_ascii (DeploymentBody.name b) && is_ascii (DeploymentBody.repository b)
  && from_option is_ascii true (DeploymentBody.branch b).

(** [POST /api/deployments] (deployments.ts:102-214). *)
Definition postDeployment (organizationId : Id) (now : Z) (b : DeploymentBody.t) (w : World)
  : (Thrown + Response) * World :=
  if negb (validDeploymentBody b) then (inl (HttpError "Validation failed" 400), w) else
  let name := trim (DeploymentBody.name b) in
  let repository := trim (DeploymentBody.repository b) in
  let branch := match DeploymentBody.branch b with Some br => trim br | None => "main" end in
  let serverId := DeploymentBody.serverId b in
  (* Verify server belongs to organization *)
  match findServer serverId organizationId w with
  | None => (inl (HttpError "Server not found" 404), w)
  | Some server =>
      if negb (bool_decide (Server.status server = running))
      then (inl (HttpError "Server must be running to deploy" 400), w) else
      (* Check if deployment name already exists in organization *)
      if bool_decide (map_Exists (λ _ d, Deployment.name d = name
                                         ∧ Deployment.organizationId d = organizationId)
                        (deployments w))
      then (inl (HttpError "Deployment name already exists" 409), w) else
      let deployment :=
        Deployment.mk (nextId w) name repository branch serverId
          (trim <$> DeploymentBody.buildCommand b) (trim <$> DeploymentBody.startCommand b)
          (default [] (DeploymentBody.envVars b)) organizationId d_pending
          ("https://" +:+ slug name +:+ "." +:+ Server.hostname server) ""
          now now in
      let w := set_nextId (S (nextId w))
                 (set_deployments (<[Deployment.id deployment := deployment]> (deployments w)) w) in
      (* Start deployment process (simulated) *)
      let w := setTimeout (build_start (Deployment.id deployment)) w in
      (inr (mkResponse 201 "Deployment created successfully"), w)
  end.

(** The outer [setTimeout] callback (deployments.ts:164-206): the move to
    [building]; the inner timer is set only when the update went through. *)
Definition buildStarted (deploymentId : Id) (fault : bool) (w : World) : World :=
  let updated :=
    if fault then None
    else deployment_update deploymentId
           (Deployment.with_status_logs d_building
              ("Starting build process..." +:+ nl +:+ "Cloning repository..." +:+ nl
               +:+ "Installing dependencies...")) w in
  match updated with
  | Some w => setTimeout (build_finish deploymentId) w
  | None => w   (* logged *)
  end.

(** The inner callback (deployments.ts:175-201): the build resolves. *)
Definition buildFinished (deploymentId : Id) (rnd : nat → Q) (fault : bool) (w : World)
  : World :=
  let success := negb (Qle_bool (rnd 0%nat) 0.2) in   (* Math.random() > 0.2 *)
  let updated :=
    if fault then None
    else deployment_update deploymentId
           (Deployment.with_status_logs (if success then d_deployed else d_failed)
              (if success
               then "Build completed successfully!" +:+ nl +:+ "Deployment is live."
               else "Build failed: npm install failed" +:+ nl +:+ "Error: Module not found")) w in
  match updated with
  | Some w => emit (deployment_status deploymentId (if success then d_deployed else d_failed)) w
  | None => w   (* logged *)
  end.

(** [POST /api/deployments/:id/redeploy] (deployments.ts:278-310). *)
Definition postRedeploy (organizationId id : Id) (now : Z) (w : World)
  : (Thrown + Response) * World :=
  match findDeployment id organizationId w with
  | None => (inl (HttpError "Deployment not found" 404), w)
  | Some deployment =>
      match servers w !! Deployment.serverId deployment with
      | None => (inl (Error "Cannot read properties of null (reading 'status')"), w)
      | Some server =>
          if negb (bool_decide (Server.status server = running))
          then (inl (HttpError "Server must be running to redeploy" 400), w) else
          (* Update deployment status *)
          match deployment_update (Deployment.id deployment)
                  (λ d, Deployment.with_updatedAt now
                          (Deployment.with_status_logs d_building
                             ("Redeployment started..." +:+ nl +:+ "Pulling latest changes...") d)) w with
          | None => (inl (Error "Record to update not found"), w)
          | Some w => (inr (mkResponse 200 "Redeployment initiated"), w)
          end
      end
  end.

(** ** The event loop *)

Inductive Request :=
  | POST_servers (organizationId : Id) (body : ServerBody.t)
  | POST_servers_start (organizationId id : Id)
  | POST_servers_stop (organizationId id : Id)
  | POST_deployments (organizationId : Id) (body : DeploymentBody.t)
  | POST_deployments_redeploy (organizationId id : Id).

(** ** The database monitor (sneaky-database) *)

(** [cleanupOldMetrics] (01-init.sql:190-197), which a cron rule runs at
    every full hour in a process of its own:
    [DELETE FROM server_metrics WHERE timestamp < NOW() - INTERVAL '7 days'],
    with [now] the clock of the database. *)
Definition cleanupOldMetrics (now : Z) (w : World) : World :=
  set_serverMetrics
    (filter (λ m, ¬ (ServerMetric.timestamp m < now - 7 * 24 * 60 * 60 * 1000)%Z)
       (serverMetrics w)) w.

(** What the environment can make the process and its store do:
    - [request]: serve a request at clock [now];
    - [timeout]: run a pending [setTimeout] callback; with [fault] its first
      store call raises for a reason of the store's own, and the call of its
      [catch] block, where there is one, goes through;
    - [tick]: run one tick of an active [setInterval] callback; with [fault]
      its insert raises;
    - [timeout_refused]: run a pending [setTimeout] callback while the store
      refuses every call;
    - [tick_unpruned]: run one tick whose insert goes through and whose
      clean-up raises;
    - [purge]: the hourly clean-up of the database monitor;
    - [reboot]: the process ends (a signal, a crash) and is started again. *)
Inductive Event :=
  | request (now : Z) (r : Request)
  | timeout (h : Handle) (rnd : nat → Q) (fault : bool)
  | tick (h : Handle) (now : Z) (rnd : nat → Q) (fault : bool)
  | timeout_refused (h : Handle) (rnd : nat → Q)
  | tick_unpruned (h : Handle) (now : Z) (rnd : nat → Q)
  | purge (now : Z)
  | reboot.

Definition handle (now : Z) (r : Request) (w : World) : (Thrown + Response) * World :=
  match r with
  | POST_servers org body => postServer org now body w
  | POST_servers_start org id => postStart org id w
  | POST_servers_stop org id => postStop org id w
  | POST_deployments org body => postDeployment org now body w
  | POST_deployments_redeploy org id => postRedeploy org id now w
  end.

Definition run_task (k : Task) (rnd : nat → Q) (fault fault' : bool) (w : World) : World :=
  match k with
  | provisioning serverId => provisioned serverId rnd fault fault' w
  | build_start deploymentId => buildStarted deploymentId fault w
  | build_finish deploymentId => buildFinished deploymentId rnd fault w
  end.

Definition step (e : Event) (w : World) : World :=
  match e with
  | request now r => snd (handle now r w)
  | timeout h rnd fault =>
      match timeouts w !! h with
      | Some k => run_task k rnd fault false (set_timeouts (delete h (timeouts w)) w)
      | None => w
      end
  | tick h now rnd fault =>
      match intervals w !! h with
      | Some serverId => collectMetrics serverId now rnd fault false w
      | None => w
      end
  | timeout_refused h rnd =>
      match timeouts w !! h with
      | Some k => run_task k rnd true true (set_timeouts (delete h (timeouts w)) w)
      | None => w
      end
  | tick_unpruned h now rnd =>
      match intervals w !! h with
      | Some serverId => collectMetrics serverId now rnd false true w
      | None => w
      end
  | purge now => cleanupOldMetrics now w
  | reboot => exited w
  end.

(** The world after a history of events, oldest first. *)
Definition run (es : list Event) (w : World) : World := foldl (λ w e, step e w) w es.

(** The worlds the process can be in. *)
Definition reachable (w : World) : Prop := ∃ es, w = run es boot.

(** ** routes/monitoring.ts: the alerts of the overview *)

Inductive AlertType := alert_cpu | alert_memory | alert_disk.

Module Alert.
Record t := mk {
  metricId : Id;          (* the id is the text alert-<metric.id> *)
  serverId : Id;
  serverName : string;
  type : AlertType;
  value : Q;
  timestamp : Z;
  severity : string
}.
End Alert.

(** [parseFloat(x.toString()) > limit]. *)
Definition exceeds (x limit : Q) : bool := negb (Qle_bool x limit).

(** [where: { server: { organizationId } }]: the sample's server is of the
    organization. *)
Definition of_organization (organizationId : Id) (w : World) (m : ServerMetric.t) : bool :=
  match servers w !! ServerMetric.serverId m with
  | Some s => bool_decide (Server.organizationId s = organizationId)
  | None => false
  end.

(** The samples the overview reads (monitoring.ts:37-58): those of the
    organization's servers, from the last hour, newest first, at most 100. *)
Definition recentMetrics (organizationId : Id) (now : Z) (w : World) : list ServerMetric.t :=
  take 100
    (orderBy_timestamp_desc
       (filter (λ m, of_organization organizationId w m = true
                     ∧ (now - 60 * 60 * 1000 ≤ ServerMetric.timestamp m)%Z)
          (serverMetrics w))).

(** The predicate of the [filter] (monitoring.ts:62-66). *)
Definition isAlert (metric : ServerMetric.t) : bool :=
  exceeds (ServerMetric.cpuUsage metric) 80
  || exceeds (ServerMetric.memoryUsage metric) 85
  || exceeds (ServerMetric.diskUsage metric) 90.

(** The function of the [map] (monitoring.ts:68-78). *)
Definition toAlert (w : World) (metric : ServerMetric.t) : Alert.t :=
  Alert.mk (ServerMetric.id metric) (ServerMetric.serverId metric)
    (from_option Server.name "" (servers w !! ServerMetric.serverId metric))
    (if exceeds (ServerMetric.cpuUsage metric) 80 then alert_cpu
     else if exceeds (ServerMetric.memoryUsage metric) 85 then alert_memory
     else alert_disk)
    (if exceeds (ServerMetric.cpuUsage metric) 80 then ServerMetric.cpuUsage metric
     else if exceeds (ServerMetric.memoryUsage metric) 85 then ServerMetric.memoryUsage metric
     else ServerMetric.diskUsage metric)
    (ServerMetric.timestamp metric)
    "warning".

(** [recentMetrics.filter(..).slice(0, 10)]: the samples that become alerts. *)
Definition alerting (recent : list ServerMetric.t) : list ServerMetric.t :=
  take 10 (filter (λ m, isAlert m = true) recent).

Definition alerts (organizationId : Id) (now : Z) (w : World) : list Alert.t :=
  toAlert w <$> alerting (recentMetrics organizationId now w).

(** ** JavaScript dates

    [Date] on the proleptic Gregorian calendar, in the time zone of the
    process. *)
Module JSDate.
Definition msPerDay : Z := 1000 * 60 * 60 * 24.

(** Year, month (0 to 11) and day of the month of a day number (days since
    1970-01-01), counting in 400-year eras that start on 1 March. *)
Definition civil (day : Z) : Z * Z * Z :=
  let z := day + 719468 in
  let era := z / 146097 in
  let doe := z mod 146097 in
  let yoe := (doe - doe / 1460 + doe / 36524 - doe / 146096) / 365 in
  let doy := doe - (365 * yoe + yoe / 4 - yoe / 100) in
  let mp := (5 * doy + 2) / 153 in
  let date := doy - (153 * mp + 2) / 5 + 1 in
  let month := if mp <? 10 then mp + 2 else mp - 10 in
  let year := yoe + era * 400 + (if month <=? 1 then 1 else 0) in
  (year, month, date).

(** [MakeDay(year, month, date)]: the day number; a month outside 0..11
    carries into the year, a date outside the month into the next ones. *)
Definition MakeDay (year month date : Z) : Z :=
  let ym := year + month / 12 in
  let mn := month mod 12 in
  let y := if mn <=? 1 then ym - 1 else ym in
  let era := y / 400 in
  let yoe := y mod 400 in
  let mp := if mn <=? 1 then mn + 10 else mn - 2 in
  let doy := (153 * mp + 2) / 5 in
  let doe := yoe * 365 + yoe / 4 - yoe / 100 + doy in
  era * 146097 + doe - 719468 + (date - 1).

(** A time zone, by the two offsets (in ms) ECMAScript reads dates with:
    [offsetAt t] is [LocalTZA(t, true)], the offset of local time from UTC at
    the instant [t]; [offsetOf t] is [LocalTZA(t, false)], the offset the
    zone gives the local time [t]. *)
Record Zone := mkZone { offsetAt : Z → Z; offsetOf : Z → Z }.

(** A zone without transitions, [tz] ms ahead of UTC. *)
Definition fixed (tz : Z) : Zone := mkZone (λ _, tz) (λ _, tz).
Bind Scope Z_scope with Zone.

Section Zone.
Variable tz : Zone.

Definition LocalTime (t : Z) : Z := t + offsetAt tz t.
Definition UTC (t : Z) : Z := t - offsetOf tz t.

Definition localDay (t : Z) : Z := LocalTime t / msPerDay.
Definition getFullYear (t : Z) : Z := (civil (localDay t)).1.1.
Definition getMonth (t : Z) : Z := (civil (localDay t)).1.2.
Definition getDate (t : Z) : Z := (civil (localDay t)).2.

(** [new Date(year, month, date).getTime()]: local midnight. *)
Definition newDate (year month date : Z) : Z := UTC (MakeDay year month date * msPerDay).

(** What ECMAScript and the time zone data give the two offsets.  A local
    time that exists resolves to an instant that has this local time; one
    that a transition skips is read with the offset before the transition,
    and resolves to an instant whose local time is later by the length of
    the gap.  The offsets of a zone differ by less than a day, unless the
    zone has moved across the date line. *)
Record regular : Prop := mk_regular {
  resolved : ∀ t, 0 ≤ offsetAt tz (UTC t) - offsetOf tz t;
  steady : ∀ t u, - msPerDay < offsetAt tz t - offsetOf tz u < msPerDay
}.
End Zone.
End JSDate.

(** An offset stands for the zone that keeps it. *)
Coercion JSDate.fixed : Z >-> JSDate.Zone.
Bind Scope Z_scope with JSDate.Zone.

(** ** routes/servers.ts, the billing router: current usage and costs *)

Section Billing.
Variable tz : JSDate.Zone.
Variable now : Z.

Definition startOfMonth : Z :=
  JSDate.newDate tz (JSDate.getFullYear tz now) (JSDate.getMonth tz now) 1.
Definition daysInMonth : Z :=
  JSDate.getDate tz (JSDate.newDate tz (JSDate.getFullYear tz now) (JSDate.getMonth tz now + 1) 0).
Definition daysPassed : Z := JSDate.getDate tz now.

(** [Math.ceil((now.getTime() - serverStartDate.getTime()) / (1000 * 60 * 60 * 24))]. *)
Definition daysUsed (server : Server.t) : Z :=
  let serverStartDate :=
    if (Server.createdAt server >? startOfMonth)%Z then Server.createdAt server
    else startOfMonth in
  Qceiling (inject_Z (now - serverStartDate) / inject_Z JSDate.msPerDay).

Definition proratedCost (server : Server.t) : Q :=
  (Server.monthlyPrice server / inject_Z daysInMonth)
  * inject_Z (Z.min (daysUsed server) daysPassed).

Record Usage := mkUsage {
  serverUsage : list (Server.t * Q);         (* each server with its currentCost *)
  totalServers : nat;
  totalDeployments : nat;
  estimatedMonthlyCost : Q;
  currentMonthUsage : Q;
  projectedMonthlyCost : Q
}.

(** [GET /api/billing/usage] (servers.ts:430-500) on the servers the query
    returned; the count of domains, a table that is not part of this
    development, is left out. *)
Definition usage_of (found : list Server.t) (deploymentCount : nat) : Usage :=
  let totalMonthlyCost := foldl (λ acc s, acc + Server.monthlyPrice s)%Q 0%Q found in
  let currentUsage := foldl (λ acc s, acc + proratedCost s)%Q 0%Q found in
  mkUsage ((λ s, (s, proratedCost s)) <$> found)
    (length found) deploymentCount
    totalMonthlyCost currentUsage
    ((currentUsage / inject_Z daysPassed) * inject_Z daysInMonth)%Q.

Definition getUsage (organizationId : Id) (w : World) : Usage :=
  usage_of
    (filter (λ s, Server.organizationId s = organizationId ∧ Server.isActive s = true)
       (snd <$> map_to_list (servers w)))
    (length (filter (λ d, Deployment.organizationId d = organizationId)
               (snd <$> map_to_list (deployments w)))).
End Billing.

(** ** Notions the properties are stated with *)

(** Histories in which the catalog, a static table in the source, is
    replaced now and then. *)
Inductive Change :=
  | event (e : Event)
  | recatalog (c : gmap string (gmap string InstanceSpecs.t)).

Definition change (c : Change) (w : World) : World :=
  match c with
  | event e => step e w
  | recatalog c => set_instanceSpecs c w
  end.

Definition changes (cs : list Change) (w : World) : World := foldl (λ w c, change c w) w cs.

(** What holds of every world the process can be in: the store's ids and the
    timer handles are fresh, a record sits under its own id, the timer
    registry and the active intervals mirror each other, and no server is
    [terminated]. *)
Record wf (w : World) : Prop := mk_wf {
  wf_servers : ∀ id s, servers w !! id = Some s → Server.id s = id ∧ (id < nextId w)%nat;
  wf_deployments : ∀ id d, deployments w !! id = Some d →
                           Deployment.id d = id ∧ (id < nextId w)%nat;
  wf_metrics_fresh : Forall (λ m, (ServerMetric.id m < nextId w)%nat) (serverMetrics w);
  wf_metrics_nodup : NoDup (ServerMetric.id <$> serverMetrics w);
  wf_handles : ∀ h, (nextHandle w ≤ h)%nat → intervals w !! h = None ∧ timeouts w !! h = None;
  wf_registry : ∀ h serverId,
      intervals w !! h = Some serverId ↔ metricsIntervals w !! serverId = Some h;
  wf_not_terminated : ∀ id s, servers w !! id = Some s → Server.status s ≠ terminated
}.

(** *** Metric retention *)


(** The sample an event inserts, if it is a collector tick whose insert goes
    through. *)
Definition insertion (e : Event) (w : World) : option ServerMetric.t :=
  match e with
  | tick h now rnd false | tick_unpruned h now rnd =>
      match intervals w !! h with
      | Some serverId => Some (sample (nextId w) serverId now rnd)
      | None => None
      end
  | _ => None
  end.


(** The events that leave the samples of the store to the collector and its
    clean-up: all but a tick whose clean-up raises and the purge of the
    database monitor. *)
Definition undisturbed (e : Event) : bool :=
  match e with
  | tick_unpruned _ _ _ | purge _ => false
  | _ => true
  end.


(** *** Alerts *)

(** The samples of the store the overview is about: those of the servers of
    the organization that are no older than an hour. *)
Definition lastHour (organizationId : Id) (now : Z) (w : World) : list ServerMetric.t :=
  filter (λ m, of_organization organizationId w m = true
               ∧ (now - 60 * 60 * 1000 ≤ ServerMetric.timestamp m)%Z)
    (serverMetrics w).

(** The document's rule: of all the samples of the last hour, those above a
    threshold, the 10 most recent of them. *)
Definition flagged (organizationId : Id) (now : Z) (w : World) : list ServerMetric.t :=
  take 10 (filter (λ m, isAlert m = true)
             (orderBy_timestamp_desc (lastHour organizationId now w))).

(** A server is created and provisioned, and its collector inserts 101
    samples, 5 seconds apart: the first with every reading at 95, the
    others with every reading at 50. *)
Definition crowded_history : list Event :=
  [ request 1000 (POST_servers 7%nat
      (ServerBody.mk "web" "aws" "eu-west-1" "t3.micro" None None None));
    timeout 0%nat (λ _, 0.5%Q) false ]
  ++ ((λ i : nat, tick 1%nat (100000 + 5000 * Z.of_nat i)
                    (λ _, match i with O => 0.95%Q | _ => 0.5%Q end) false)
      <$> seq 0 101).

(** *** Collection tasks *)

(** The number of active interval timers that sample [serverId]. *)
Definition activeTasks (serverId : Id) (w : World) : nat :=
  size (filter (λ p : Handle * Id, p.2 = serverId) (intervals w)).

(** *** Server lifecycle *)

Definition status_of (id : Id) (w : World) : option ServerStatus :=
  Server.status <$> servers w !! id.

(** The edges of the lifecycle graph as the design document draws it. *)
Definition lifecycle_edge (a b : ServerStatus) : bool :=
  match a, b with
  | pending, running | pending, failed | running, stopped | stopped, running => true
  | (pending | running | stopped), terminated => true
  | _, _ => false
  end.

(** The edges the handlers and the provisioning callback take. *)
Definition taken_edge (a b : ServerStatus) : bool :=
  match a, b with
  | pending, running | pending, failed | running, stopped | stopped, running => true
  | pending, stopped | failed, running | failed, stopped => true
  | running, failed | stopped, failed => true
  | _, _ => false
  end.

(** Every status change of every server, in every history, is along [edge]. *)
Definition transitions_along (edge : ServerStatus → ServerStatus → bool) : Prop :=
  ∀ es e id a b,
    status_of id (run es boot) = Some a →
    status_of id (step e (run es boot)) = Some b →
    a ≠ b → edge a b = true.


(** *** Delayed completions *)

(** The status of the record a delayed callback is about; [None] when the
    record does not exist. *)
Definition record_status (k : Task) (w : World) : option (ServerStatus + DeploymentStatus) :=
  match k with
  | provisioning id => inl ∘ Server.status <$> servers w !! id
  | build_start id | build_finish id => inr ∘ Deployment.status <$> deployments w !! id
  end.

(** The generation counter of the design document: how many status
    transitions the record went through along a history.  The source keeps
    no such counter; it is read off the history here. *)
Fixpoint generation (k : Task) (es : list Event) (w : World) : nat :=
  match es with
  | [] => 0
  | e :: es' =>
      ((if decide (record_status k (step e w) = record_status k w) then 0 else 1)
       + generation k es' (step e w))%nat
  end.

(** The document's rule: a callback pending since [w1], fired after the
    further history [es2], changes no server and no deployment when by then
    its record has changed generation or is gone. *)
Definition stale_completions_discarded : Prop :=
  ∀ es1 es2 h k rnd fault,
    let w1 := run es1 boot in
    let w2 := run es2 w1 in
    timeouts w1 !! h = Some k → timeouts w2 !! h = Some k →
    generation k es2 w1 ≠ 0%nat ∨ record_status k w2 = None →
    let w3 := step (timeout h rnd fault) w2 in
    servers w3 = servers w2 ∧ deployments w3 = deployments w2.

(** What a callback that goes through leaves as the status of its record. *)
Definition completion (k : Task) (rnd : nat → Q) : ServerStatus + DeploymentStatus :=
  match k with
  | provisioning _ => inl running
  | build_start _ => inr d_building
  | build_finish _ => inr (if Qle_bool (rnd 0%nat) 0.2 then d_failed else d_deployed)
  end.

(** *** Redeploy *)

(** The events that are not requests. *)
Definition is_timer (e : Event) : bool :=
  match e with
  | request _ _ => false
  | _ => true
  end.

(** A history that ends in a redeploy: server 0 is created and provisioned,
    deployment 1 on it is created, built and deployed, then redeployed. *)
Definition redeploy_history : list Event :=
  let half (_ : nat) : Q := 0.5%Q in
  [ request 1000 (POST_servers 7%nat
      (ServerBody.mk "web" "aws" "eu-west-1" "t3.micro" None None None));
    timeout 0%nat half false;
    request 40000 (POST_deployments 7%nat
      (DeploymentBody.mk "app" "https://github.com/acme/app" None 0%nat None None None));
    timeout 2%nat half false;
    timeout 3%nat half false;
    request 90000 (POST_deployments_redeploy 7%nat 1%nat) ].

(** *** Creation snapshot *)

(** The specification fields of a server record. *)
Definition stored_specs (s : Server.t) : InstanceSpecs.t :=
  InstanceSpecs.mk (Server.cpu s) (Server.memory s) (Server.storage s)
    (Server.bandwidth s) (Server.monthlyPrice s).

(** The document's rule: a created server stores the catalog's
    specification of its provider and instance type. *)
Definition creation_stores_catalog_specs : Prop :=
  ∀ cs organizationId now b r w',
    let w := changes cs boot in
    postServer organizationId now b w = (inr r, w') →
    ∃ s specs,
      servers w' !! nextId w = Some s
      ∧ getInstanceSpecs (Server.provider s) (Server.instanceType s) w = inr specs
      ∧ stored_specs s = specs.

(** *** The server table across a step *)

(** The three ways a step can leave the server table: untouched; one record
    with a new status (and perhaps a new address); one new record. *)
Inductive servers_effect (w w' : World) : Prop :=
  | effect_none : servers w' = servers w → servers_effect w w'
  | effect_status id s st ip :
      servers w !! id = Some s →
      servers w' = <[id := Server.with_ipAddress ip (Server.with_status st s)]> (servers w) →
      st = Server.status s ∨ st = failed
      ∨ (st = running ∧ Server.status s ≠ running)
      ∨ (st = stopped ∧ Server.status s ≠ stopped) →
      servers_effect w w'
  | effect_create s :
      servers w !! nextId w = None →
      Server.status s = pending →
      servers w' = <[nextId w := s]> (servers w) →
      servers_effect w w'.

(** *** Proration *)

(** The document's count of the days of the month that have elapsed: the
    whole days from the start of the month to now, none at the first instant
    of a month. *)
Definition daysElapsed (tz : JSDate.Zone) (now : Z) : Z :=
  (now - startOfMonth tz now) / JSDate.msPerDay.

(** A zone with transitions: US Eastern time as it is kept in 2024, five
    hours behind UTC, and four from 10 March 07:00 UTC to 3 November 06:00
    UTC.  The local times the first transition skips and those the second
    repeats are read with the offset before the transition. *)
Definition eastern : JSDate.Zone :=
  JSDate.mkZone
    (λ t, if (1710054000000 <=? t) && (t <? 1730613600000) then -14400000 else -18000000)
    (λ t, if (1710054000000 - 14400000 <=? t) && (t <? 1730613600000 - 14400000)
          then -14400000 else -18000000).

(** The document's formula for the prorated cost. *)
Definition documented_proratedCost (tz : JSDate.Zone) (now : Z) (server : Server.t) : Q :=
  (Server.monthlyPrice server / inject_Z (daysInMonth tz now))
  * inject_Z (Z.min (daysUsed tz now server) (daysElapsed tz now)).

(** *** Calendar checks *)

(** [p] holds of the [n] integers from [z] on. *)
Fixpoint all_from (n : nat) (z : Z) (p : Z → bool) : bool :=
  match n with
  | O => true
  | S n' => if p z then all_from n' (z + 1) p else false
  end.

(** For a day [doe] of a 400-year era: the year of the era, the month
    counted from March and the day of the month that [JSDate.civil] computes
    are in range. *)
Definition era_day_ok (doe : Z) : bool :=
  let yoe := (doe - doe / 1460 + doe / 36524 - doe / 146096) / 365 in
  let doy := doe - (365 * yoe + yoe / 4 - yoe / 100) in
  let mp := (5 * doy + 2) / 153 in
  let date := doy - (153 * mp + 2) / 5 + 1 in
  (0 <=? yoe) && (yoe <? 400) && (0 <=? mp) && (mp <=? 11) && (1 <=? date) && (date <=? 31).

(** ** Further notions *)

(** *** Collector and lifecycle *)





(** The record of every pending callback exists. *)
Definition pending_records (w : World) : Prop :=
  ∀ h k, timeouts w !! h = Some k → record_status k w ≠ None.

(** The server has been [running] at some point of the history. *)
Definition was_running (id : Id) (es : list Event) : Prop :=
  ∃ es1 es2, es = (es1 ++ es2)%list ∧ status_of id (run es1 boot) = Some running.

(** *** Requests and organizations *)

(** The organization of the user a request comes from. *)
Definition requester (r : Request) : Id :=
  match r with
  | POST_servers organizationId _
  | POST_servers_start organizationId _
  | POST_servers_stop organizationId _
  | POST_deployments organizationId _
  | POST_deployments_redeploy organizationId _ => organizationId
  end.

Definition deployment_status_of (id : Id) (w : World) : option DeploymentStatus :=
  Deployment.status <$> deployments w !! id.

(** *** Deployment pipeline *)

(** The edges of the pipeline: a build starts, a build resolves, and a
    resolved deployment is set to build again by a redeploy. *)
Definition pipeline_edge (a b : DeploymentStatus) : bool :=
  match a, b with
  | d_pending, d_building | d_building, d_deployed | d_building, d_failed => true
  | d_deployed, d_building | d_failed, d_building => true
  | _, _ => false
  end.

(** The deployment a delayed callback is about. *)
Definition deployment_of (k : Task) : option Id :=
  match k with
  | provisioning _ => None
  | build_start id | build_finish id => Some id
  end.

(** What the pending callbacks of the pipeline say about their deployment:
    a pending first stage has a deployment that is [pending] or [building],
    a pending second stage one that is [building], and a deployment has at
    most one pending callback. *)
Record pipeline_inv (w : World) : Prop := mk_pipeline_inv {
  pending_start : ∀ h id, timeouts w !! h = Some (build_start id) →
      deployment_status_of id w = Some d_pending
      ∨ deployment_status_of id w = Some d_building;
  pending_finish : ∀ h id, timeouts w !! h = Some (build_finish id) →
      deployment_status_of id w = Some d_building;
  one_callback : ∀ h h' k k' id,
      timeouts w !! h = Some k → timeouts w !! h' = Some k' →
      deployment_of k = Some id → deployment_of k' = Some id → h = h'
}.

(** *** What is sent *)

(** The events the code sends: a server is [running], with or without its
    address, or [stopped]; a sample; a build that has resolved. *)
Definition announced (ev : SocketEvent) : Prop :=
  match ev with
  | server_status _ st ip => st = running ∨ (st = stopped ∧ ip = None)
  | server_metrics _ _ _ _ _ _ _ => True
  | deployment_status _ st => st = d_deployed ∨ st = d_failed
  end.

(** *** Build logs *)

(** The logs that go with a status. *)
Definition logs_of_status (d : Deployment.t) : Prop :=
  match Deployment.status d with
  | d_pending => Deployment.buildLogs d = ""
  | d_building =>
      Deployment.buildLogs d
      = "Starting build process..." +:+ nl +:+ "Cloning repository..." +:+ nl
        +:+ "Installing dependencies..."
      ∨ Deployment.buildLogs d = "Redeployment started..." +:+ nl +:+ "Pulling latest changes..."
  | d_deployed =>
      Deployment.buildLogs d = "Build completed successfully!" +:+ nl +:+ "Deployment is live."
  | d_failed =>
      Deployment.buildLogs d
      = "Build failed: npm install failed" +:+ nl +:+ "Error: Module not found"
  end.

(** *** Addresses *)

(** The characters the code leaves in a label it derives from a name. *)
Definition is_label_char (a : ascii) : bool := is_lower_alnum a || Ascii.eqb a "-"%char.

(** What of a server and of a deployment no update touches. *)
Definition server_address (s : Server.t) : string * string * Id :=
  (Server.name s, Server.hostname s, Server.organizationId s).

Definition deployment_address (d : Deployment.t) : string * Id * Id * string :=
  (Deployment.name d, Deployment.serverId d, Deployment.organizationId d,
   Deployment.deployUrl d).

(** A server's host name is derived from its name, which has 1 to 100
    characters; a deployment is on a server of its organization, and its
    URL is derived from its name and that server's host name. *)
Definition addressed (w : World) : Prop :=
  (∀ id s, servers w !! id = Some s →
           Server.hostname s = slug (Server.name s) +:+ ".sneaky.cloud"
           ∧ (1 ≤ String.length (Server.name s) ≤ 100)%nat)
  ∧ (∀ id d, deployments w !! id = Some d →
             (1 ≤ String.length (Deployment.name d) ≤ 100)%nat
             ∧ ∃ s, servers w !! Deployment.serverId d = Some s
                    ∧ Server.organizationId s = Deployment.organizationId d
                    ∧ Deployment.deployUrl d
                      = "https://" +:+ slug (Deployment.name d) +:+ "."
                        +:+ Server.hostname s).

(** The creation requests of a history carry ASCII texts. *)
Definition ascii_request (e : Event) : bool :=
  match e with
  | request _ (POST_servers _ b) => asciiServerBody b
  | request _ (POST_deployments _ b) => asciiDeploymentBody b
  | _ => true
  end.

(** The names in the store are ASCII. *)
Definition ascii_named (w : World) : Prop :=
  (∀ id s, servers w !! id = Some s → is_ascii (Server.name s) = true)
  ∧ (∀ id d, deployments w !! id = Some d → is_ascii (Deployment.name d) = true).

(** *** The rows of an organization *)

(** The servers and the deployments of an organization, as the store lists
    them, and the samples of its servers, in the order of the table. *)
Definition own_rows (organizationId : Id) (w : World)
  : list (Id * Server.t) * list (Id * Deployment.t) * list ServerMetric.t :=
  (filter (λ p : Id * Server.t, Server.organizationId p.2 = organizationId)
     (map_to_list (servers w)),
   filter (λ p : Id * Deployment.t, Deployment.organizationId p.2 = organizationId)
     (map_to_list (deployments w)),
   filter (λ m, of_organization organizationId w m = true) (serverMetrics w)).

(** ** routes/servers.ts: the list of servers *)

Module ListQuery.
Record t := mk {
  page : option Z;
  limit : option Z;
  status : option string;
  provider : option string
}.
End ListQuery.

(** [query(f).optional().isIn(values)]. *)
Definition optional_isIn (values : list string) (v : option string) : bool :=
  match v with
  | Some x => bool_decide (x ∈ values)
  | None => true
  end.

(** The validation chain of servers.ts:45-50. *)
Definition validListQuery (q : ListQuery.t) : bool :=
  optional_min 1 (ListQuery.page q)
  && match ListQuery.limit q with
     | Some n => bool_decide (1 ≤ n ≤ 100)%Z
     | None => true
     end
  && optional_isIn ["pending"; "running"; "stopped"; "terminated"] (ListQuery.status q)
  && optional_isIn ["aws"; "gcp"; "azure"; "digitalocean"] (ListQuery.provider q).

(** The text of a status in the store. *)
Definition status_text (st : ServerStatus) : string :=
  match st with
  | pending => "pending"
  | running => "running"
  | stopped => "stopped"
  | failed => "failed"
  | terminated => "terminated"
  end.

(** [if (req.query.f) where.f = req.query.f]: an absent or empty value does
    not filter. *)
Definition where_field (v : option string) (x : string) : bool :=
  match v with
  | Some y => if String.eqb y "" then true else String.eqb x y
  | None => true
  end.

(** The [where] of servers.ts:61-72. *)
Definition listed (organizationId : Id) (q : ListQuery.t) (s : Server.t) : bool :=
  bool_decide (Server.organizationId s = organizationId)
  && Server.isActive s
  && where_field (ListQuery.status q) (status_text (Server.status s))
  && where_field (ListQuery.provider q) (Server.provider s).

(** [orderBy: { createdAt: 'desc' }]; equal times in one of the orders the
    store may give. *)
Definition created_first (a b : Server.t) : Prop := (Server.createdAt b ≤ Server.createdAt a)%Z.

#[global] Instance created_first_dec : RelDecision created_first.
Proof. intros a b. unfold created_first. apply _. Defined.

Module Page.
Record t := mk {
  servers : list (Server.t * nat);   (* each server with [_count.deployments] *)
  page : Z;
  limit : Z;
  total : nat;
  pages : Z
}.
End Page.

(** [GET /api/servers] (servers.ts:45-101) for a user of [organizationId];
    the count of domains, a table that is not part of this development, is
    left out. *)
Definition getServers (organizationId : Id) (q : ListQuery.t) (w : World) : Thrown + Page.t :=
  if negb (validListQuery q) then inl (HttpError "Validation failed" 400) else
  let page := or_default (ListQuery.page q) 1 in
  let limit := or_default (ListQuery.limit q) 10 in
  let skip := ((page - 1) * limit)%Z in
  let matching :=
    filter (λ s, listed organizationId q s = true) (snd <$> map_to_list (servers w)) in
  let found :=
    take (Z.to_nat limit) (drop (Z.to_nat skip) (merge_sort created_first matching)) in
  let count s :=
    length (filter (λ d, Deployment.serverId d = Server.id s)
              (snd <$> map_to_list (deployments w))) in
  let total := length matching in
  inr (Page.mk ((λ s, (s, count s)) <$> found) page limit total
         (Qceiling (inject_Z (Z.of_nat total) / inject_Z limit))).

(** ** routes/monitoring.ts: the overview *)

(** [prisma.server.groupBy({ by: ['status'], where, _count: { id: true } })]:
    an entry for each status that an active server of the organization has,
    with the number of those servers. *)
Definition serverStats (organizationId : Id) (w : World) : list (ServerStatus * nat) :=
  let rows :=
    filter (λ s, Server.organizationId s = organizationId ∧ Server.isActive s = true)
      (snd <$> map_to_list (servers w)) in
  filter (λ stat : ServerStatus * nat, stat.2 ≠ 0%nat)
    ((λ st, (st, length (filter (λ s, Server.status s = st) rows)))
       <$> [pending; running; stopped; failed; terminated]).

Module AverageUsage.
Record t := mk {
  cpu : Q;
  memory : Q;
  disk : Q
}.
End AverageUsage.

(** The reducer and the guarded division of monitoring.ts:81-93. *)
Definition averageUsage (recent : list ServerMetric.t) : AverageUsage.t :=
  let cpu := foldl (λ acc metric, acc + ServerMetric.cpuUsage metric)%Q 0%Q recent in
  let memory := foldl (λ acc metric, acc + ServerMetric.memoryUsage metric)%Q 0%Q recent in
  let disk := foldl (λ acc metric, acc + ServerMetric.diskUsage metric)%Q 0%Q recent in
  let count := Z.of_nat (length recent) in
  if (0 <? count)%Z
  then AverageUsage.mk (cpu / inject_Z count) (memory / inject_Z count) (disk / inject_Z count)
  else AverageUsage.mk 0 0 0.

Module Overview.
Record t := mk {
  serverStats : list (ServerStatus * nat);
  averageUsage : AverageUsage.t;
  alerts : list Alert.t;
  totalServers : nat;
  activeAlerts : nat
}.
End Overview.

(** [GET /api/monitoring/overview] (monitoring.ts:23-107) for a user of
    [organizationId] at clock [now]. *)
Definition getOverview (organizationId : Id) (now : Z) (w : World) : Overview.t :=
  let serverStats := serverStats organizationId w in
  let recentMetrics := recentMetrics organizationId now w in
  let alerts := toAlert w <$> alerting recentMetrics in
  Overview.mk serverStats (averageUsage recentMetrics) alerts
    (foldl (λ sum (stat : ServerStatus * nat), sum + stat.2)%nat 0%nat serverStats)
    (length alerts).

(** *** Draws *)

(** [Math.random()] gives a number from 0 up to, and not including, 1. *)
Definition unit_draws (e : Event) : Prop :=
  match e with
  | request _ _ | purge _ | reboot => True
  | timeout _ rnd _ | tick _ _ rnd _ | timeout_refused _ rnd | tick_unpruned _ _ rnd =>
      ∀ i : nat, (0 <= rnd i)%Q ∧ (rnd i < 1)%Q
  end.

(** A number from [0] up to, and not including, [bound]. *)
Definition below (bound x : Q) : Prop := (0 <= x)%Q ∧ (x < bound)%Q.

Definition sample_in_range (m : ServerMetric.t) : Prop :=
  below 100 (ServerMetric.cpuUsage m) ∧ below 100 (ServerMetric.memoryUsage m)
  ∧ below 100 (ServerMetric.diskUsage m)
  ∧ below 1000000 (ServerMetric.networkIn m) ∧ below 1000000 (ServerMetric.networkOut m).

(** ** A server's metrics (ServerService.ts:238-248, monitoring.ts:132-209) *)

(** [orderBy: { timestamp: 'asc' }]: oldest first; equal timestamps in one of
    the orders the store may give. *)
Definition older_first (a b : ServerMetric.t) : Prop :=
  (ServerMetric.timestamp a ≤ ServerMetric.timestamp b)%Z.

#[global] Instance older_first_dec : RelDecision older_first.
Proof. intros a b. unfold older_first. apply _. Defined.

Definition orderBy_timestamp_asc (l : list ServerMetric.t) : list ServerMetric.t :=
  merge_sort older_first l.

(** [ServerService.getServerMetrics(serverId, hours)] at clock [now]. *)
Definition getServerMetrics (serverId : Id) (hours : Z) (now : Z) (w : World)
  : list ServerMetric.t :=
  let since := (now - hours * 60 * 60 * 1000)%Z in
  orderBy_timestamp_asc
    (filter (λ m, ServerMetric.serverId m = serverId ∧ (since ≤ ServerMetric.timestamp m)%Z)
       (serverMetrics w)).

(** An entry of [groupedMetrics]. *)
Module Group.
Record t := mk {
  timestamp : Z;
  cpu : list Q;
  memory : list Q;
  disk : list Q;
  networkIn : list Q;
  networkOut : list Q
}.
End Group.

(** An entry of [processedMetrics]. *)
Module Point.
Record t := mk {
  timestamp : Z;
  cpuUsage : Q;
  memoryUsage : Q;
  diskUsage : Q;
  networkIn : Q;
  networkOut : Q
}.
End Point.

(** [hours <= 24 ? 5 : hours <= 168 ? 60 : 360], in minutes. *)
Definition interval_of (hours : Z) : Z :=
  if (hours <=? 24)%Z then 5 else if (hours <=? 168)%Z then 60 else 360.

(** [Math.floor(timestamp.getTime() / (interval * 60 * 1000)) * interval * 60 * 1000]. *)
Definition intervalStart (interval : Z) (timestamp : Z) : Z :=
  (timestamp / (interval * 60 * 1000) * interval * 60 * 1000)%Z.

(** The five [push]es of the reducer. *)
Definition push (metric : ServerMetric.t) (g : Group.t) : Group.t :=
  Group.mk (Group.timestamp g)
    (Group.cpu g ++ [ServerMetric.cpuUsage metric])
    (Group.memory g ++ [ServerMetric.memoryUsage metric])
    (Group.disk g ++ [ServerMetric.diskUsage metric])
    (Group.networkIn g ++ [ServerMetric.networkIn metric])
    (Group.networkOut g ++ [ServerMetric.networkOut metric]).

(** One step of the reducer on the object [acc], kept as the list of its
    values in the order the keys were added; the key, the ISO text of
    [intervalStart], is stood for by [intervalStart] itself. *)
Fixpoint group_step (key : Z) (metric : ServerMetric.t) (acc : list Group.t) : list Group.t :=
  match acc with
  | [] => [push metric (Group.mk key [] [] [] [] [])]
  | g :: acc' =>
      if decide (Group.timestamp g = key) then push metric g :: acc'
      else g :: group_step key metric acc'
  end.

Definition groupedMetrics (interval : Z) (metrics : list ServerMetric.t) : list Group.t :=
  foldl (λ acc metric,
           group_step (intervalStart interval (ServerMetric.timestamp metric)) metric acc)
    [] metrics.

(** [xs.reduce((a, b) => a + b, 0) / xs.length]. *)
Definition average (xs : list Q) : Q :=
  (foldl Qplus 0 xs / inject_Z (Z.of_nat (length xs)))%Q.

Definition processed (g : Group.t) : Point.t :=
  Point.mk (Group.timestamp g) (average (Group.cpu g)) (average (Group.memory g))
    (average (Group.disk g)) (average (Group.networkIn g)) (average (Group.networkOut g)).

Definition by_timestamp (a b : Point.t) : Prop := (Point.timestamp a ≤ Point.timestamp b)%Z.

#[global] Instance by_timestamp_dec : RelDecision by_timestamp.
Proof. intros a b. unfold by_timestamp. apply _. Defined.

Definition processedMetrics (interval : Z) (metrics : list ServerMetric.t) : list Point.t :=
  merge_sort by_timestamp (processed <$> groupedMetrics interval metrics).

Module MetricsReport.
Record t := mk {
  server : Id * string * ServerStatus;
  metrics : list Point.t;
  dataPoints : nat;
  timeRange : string;
  interval : string
}.
End MetricsReport.

(** [query('hours').optional().isInt({ min: 1, max: 168 })]. *)
Definition validHours (hours : option Z) : bool :=
  match hours with
  | Some h => bool_decide (1 ≤ h ≤ 168)%Z
  | None => true
  end.

(** [GET /api/monitoring/servers/:id/metrics] for a user of [organizationId]
    at clock [now]. *)
Definition getMetrics (organizationId id : Id) (hours : option Z) (now : Z) (w : World)
  : Thrown + MetricsReport.t :=
  if negb (validHours hours) then inl (HttpError "Validation failed" 400) else
  let hours := or_default hours 24 in
  match findServer id organizationId w with
  | None => inl (HttpError "Server not found" 404)
  | Some server =>
      let metrics := getServerMetrics id hours now w in
      let interval := interval_of hours in
      let processedMetrics := processedMetrics interval metrics in
      inr (MetricsReport.mk
             (Server.id server, Server.name server, Server.status server)
             processedMetrics
             (length processedMetrics)
             (pretty hours +:+ " hours")
             (pretty interval +:+ " minutes"))
  end.

(** The samples of [window] in the bucket of [width] ms that starts at [start]. *)
Definition in_bucket (start width : Z) (window : list ServerMetric.t) : list ServerMetric.t :=
  filter (λ m, (start ≤ ServerMetric.timestamp m < start + width)%Z) window.

(** The group the reducer has built for [key] after [ms]. *)
Definition group_of (interval key : Z) (ms : list ServerMetric.t) : Group.t :=
  let inside :=
    filter (λ m, intervalStart interval (ServerMetric.timestamp m) = key) ms in
  Group.mk key (ServerMetric.cpuUsage <$> inside) (ServerMetric.memoryUsage <$> inside)
    (ServerMetric.diskUsage <$> inside) (ServerMetric.networkIn <$> inside)
    (ServerMetric.networkOut <$> inside).

(** *** Month ends *)

(** For the day [doe] of the 400-year era that starts on 0000-03-01: the day
    before the first of the next month, as [new Date(year, month + 1, 0)]
    computes it, is in the same month of the same year; its day of the month
    is the number of days from the first of this month to the first of the
    next; that number is between 28 and 31, and the day is not past it. *)
Definition month_end_ok (doe : Z) : bool :=
  let '(year, month, date) := JSDate.civil (doe - 719468) in
  let first := JSDate.MakeDay year month 1 in
  let last := JSDate.MakeDay year (month + 1) 0 in
  let '(year', month', date') := JSDate.civil last in
  (year' =? year) && (month' =? month) && (date' =? last - first + 1)
  && (date <=? date') && (28 <=? date') && (date' <=? 31).

(** * Properties *)

#[local] Open Scope list_scope.

(** * Well-formed worlds *)

Lemma wf_boot : wf boot.
Proof.
  split; simpl; try done.
  - constructor.
Qed.

Lemma wf_set_instanceSpecs c w : wf w → wf (set_instanceSpecs c w).
Proof. intros [? ? ? ? ? ? ?]. by split. Qed.

Lemma wf_emit e w : wf w → wf (emit e w).
Proof. intros [? ? ? ? ? ? ?]. by split. Qed.

Lemma wf_setTimeout k w : wf w → wf (setTimeout k w).
Proof.
  intros [Hs Hd Hf Hn Hh Hr Ht]. split; simpl; try done.
  intros h Hle. destruct (Hh h) as [Hi Hto]; [lia|]. split; [done|].
  rewrite lookup_insert_ne; [done | lia].
Qed.

Lemma wf_drop_timeout h w : wf w → wf (set_timeouts (delete h (timeouts w)) w).
Proof.
  intros [Hs Hd Hf Hn Hh Hr Ht]. split; simpl; try done.
  intros h' Hle. destruct (Hh h' Hle) as [Hi Hto]. split; [done|].
  rewrite lookup_delete_None. by right.
Qed.

Lemma wf_stopMetricsCollection sid w : wf w → wf (stopMetricsCollection sid w).
Proof.
  intros Hw. unfold stopMetricsCollection.
  destruct (metricsIntervals w !! sid) as [h|] eqn:E; [|done].
  destruct Hw as [Hs Hd Hf Hn Hh Hr Ht]. split; simpl; try done.
  - intros h' Hle. destruct (Hh h' Hle) as [Hi Hto]. split; [|done].
    rewrite lookup_delete_None. by right.
  - intros h' sid'. rewrite !lookup_delete_Some, Hr. split.
    + intros [Hne Hm]. split; [|done]. intros ->. congruence.
    + intros [Hne Hm]. split; [|done]. intros ->.
      apply Hr in E, Hm. congruence.
Qed.

Lemma stopMetricsCollection_registry sid w :
  metricsIntervals (stopMetricsCollection sid w) !! sid = None.
Proof.
  unfold stopMetricsCollection.
  destruct (metricsIntervals w !! sid) as [h|] eqn:E; [|done].
  simpl. apply lookup_delete_eq.
Qed.

Lemma stopMetricsCollection_nextHandle sid w :
  nextHandle (stopMetricsCollection sid w) = nextHandle w.
Proof. unfold stopMetricsCollection. by destruct (metricsIntervals w !! sid). Qed.

Lemma wf_startMetricsCollection sid w : wf w → wf (startMetricsCollection sid w).
Proof.
  intros Hw. unfold startMetricsCollection.
  pose proof (stopMetricsCollection_registry sid w) as Hnone.
  apply (wf_stopMetricsCollection sid) in Hw.
  set (w1 := stopMetricsCollection sid w) in *. clearbody w1.
  destruct Hw as [Hs Hd Hf Hn Hh Hr Ht]. split; simpl; try done.
  - intros h Hle. destruct (Hh h) as [Hi Hto]; [lia|]. split; [|done].
    rewrite lookup_insert_ne; [done | lia].
  - intros h sid'. rewrite !lookup_insert_Some, Hr.
    destruct (Hh (nextHandle w1)) as [Hi _]; [lia|].
    split.
    + intros [[<- <-]|[Hne Hm]]; [by left|]. right. split; [|done].
      intros ->. congruence.
    + intros [[<- <-]|[Hne Hm]]; [by left|]. right. split; [|done].
      intros <-. apply Hr in Hm. congruence.
Qed.

Lemma wf_server_update id data w w' :
  (∀ s, Server.id (data s) = Server.id s) →
  (∀ s, Server.status (data s) ≠ terminated) →
  wf w → server_update id data w = Some w' → wf w'.
Proof.
  intros Hid Hst [Hs Hd Hf Hn Hh Hr Ht]. unfold server_update.
  destruct (servers w !! id) as [s|] eqn:E; [|done].
  intros [= <-]. split; simpl; try done.
  - intros id' s'. rewrite lookup_insert_Some.
    intros [[<- <-]|[_ Hl]]; [|by apply Hs].
    rewrite Hid. by apply Hs.
  - intros id' s'. rewrite lookup_insert_Some.
    intros [[<- <-]|[_ Hl]]; [apply Hst | by eapply Ht].
Qed.

Lemma wf_deployment_update id data w w' :
  (∀ d, Deployment.id (data d) = Deployment.id d) →
  wf w → deployment_update id data w = Some w' → wf w'.
Proof.
  intros Hid [Hs Hd Hf Hn Hh Hr Ht]. unfold deployment_update.
  destruct (deployments w !! id) as [d|] eqn:E; [|done].
  intros [= <-]. split; simpl; try done.
  intros id' d'. rewrite lookup_insert_Some.
  intros [[<- <-]|[_ Hl]]; [|by apply Hd].
  rewrite Hid. by apply Hd.
Qed.

Lemma wf_insert_server s w :
  Server.id s = nextId w → Server.status s ≠ terminated →
  wf w → wf (set_nextId (S (nextId w)) (set_servers (<[Server.id s := s]> (servers w)) w)).
Proof.
  intros Hid Hst [Hs Hd Hf Hn Hh Hr Ht]. split; simpl; try done.
  - intros id' s'. rewrite lookup_insert_Some.
    intros [[<- <-]|[_ Hl]]; [split; [done|lia]|].
    destruct (Hs _ _ Hl). split; [done|lia].
  - intros id' d' Hl. destruct (Hd _ _ Hl). split; [done|lia].
  - eapply Forall_impl; [done|]. simpl. lia.
  - intros id' s'. rewrite lookup_insert_Some.
    intros [[<- <-]|[_ Hl]]; [done | by eapply Ht].
Qed.

Lemma wf_insert_deployment d w :
  Deployment.id d = nextId w →
  wf w → wf (set_nextId (S (nextId w))
               (set_deployments (<[Deployment.id d := d]> (deployments w)) w)).
Proof.
  intros Hid [Hs Hd Hf Hn Hh Hr Ht]. split; simpl; try done.
  - intros id' s' Hl. destruct (Hs _ _ Hl). split; [done|lia].
  - intros id' d'. rewrite lookup_insert_Some.
    intros [[<- <-]|[_ Hl]]; [split; [done|lia]|].
    destruct (Hd _ _ Hl). split; [done|lia].
  - eapply Forall_impl; [done|]. simpl. lia.
Qed.

Lemma wf_exited w : wf w → wf (exited w).
Proof.
  intros [Hs Hd Hf Hn Hh Hr Ht]. by split.
Qed.

Lemma wf_cleanupOldMetrics now w : wf w → wf (cleanupOldMetrics now w).
Proof.
  intros [Hs Hd Hf Hn Hh Hr Ht]. split; simpl; try done.
  - rewrite Forall_forall in *. intros x [_ Hx]%list_elem_of_filter. by apply Hf.
  - eapply sublist_NoDup; [done|]. apply fmap_sublist, sublist_filter.
Qed.

Lemma wf_collectMetrics sid now rnd fault fault' w :
  wf w → wf (collectMetrics sid now rnd fault fault' w).
Proof.
  intros Hw. unfold collectMetrics. destruct fault; [done|].
  assert (wf (set_nextId (S (nextId w))
                (set_serverMetrics (serverMetrics w ++ [sample (nextId w) sid now rnd]) w)))
    as Hw1.
  { destruct Hw as [Hs Hd Hf Hn Hh Hr Ht]. split; simpl; try done.
    - intros id' s' Hl. destruct (Hs _ _ Hl). split; [done|lia].
    - intros id' d' Hl. destruct (Hd _ _ Hl). split; [done|lia].
    - apply Forall_app. split.
      + eapply Forall_impl; [done|]. simpl. lia.
      + constructor; [simpl; lia | constructor].
    - rewrite fmap_app. apply NoDup_app. split; [done|]. split.
      + intros x Hx. simpl. rewrite list_elem_of_singleton. intros ->.
        apply list_elem_of_fmap in Hx as (m & Hm & Hin).
        rewrite Forall_forall in Hf. apply Hf in Hin. lia.
      + simpl. apply NoDup_singleton. }
  simpl. destruct fault'; [by apply wf_emit|].
  case_bool_decide; [|by apply wf_emit].
  apply (wf_emit (server_metrics sid (rnd 0%nat * 100)%Q (rnd 1%nat * 100)%Q (rnd 2%nat * 100)%Q
                    (rnd 3%nat * 1000000)%Q (rnd 4%nat * 1000000)%Q now)) in Hw1.
  destruct Hw1 as [Hs Hd Hf Hn Hh Hr Ht]. split; simpl in *; try done.
  - unfold deleteMany. rewrite Forall_forall in *.
    intros x [_ Hx]%list_elem_of_filter. by apply Hf.
  - unfold deleteMany. eapply sublist_NoDup; [done|].
    apply fmap_sublist, sublist_filter.
Qed.

Lemma wf_provisioned sid rnd fault fault' w :
  wf w → wf (provisioned sid rnd fault fault' w).
Proof.
  intros Hw. unfold provisioned.
  set (data := λ s, Server.with_ipAddress _ (Server.with_status running s)).
  destruct (if fault then None else server_update sid data w) as [w1|] eqn:E.
  - destruct fault; [done|].
    apply wf_emit, wf_startMetricsCollection.
    by eapply (wf_server_update sid data).
  - destruct (if fault' then None else server_update sid (Server.with_status failed) w)
      as [w1|] eqn:E'; [|by apply wf_exited].
    destruct fault'; [done|].
    by eapply (wf_server_update sid (Server.with_status failed)).
Qed.

Lemma wf_provisionServer sid w : wf w → wf (provisionServer sid w).2.
Proof.
  intros Hw. unfold provisionServer.
  destruct (servers w !! sid); [|done].
  destruct (server_update sid (Server.with_status pending) w) as [w1|] eqn:E; [|done].
  simpl. apply wf_setTimeout.
  by eapply (wf_server_update sid (Server.with_status pending)).
Qed.

Lemma wf_startServer sid w : wf w → wf (startServer sid w).2.
Proof.
  intros Hw. unfold startServer.
  destruct (server_update sid (Server.with_status running) w) as [w1|] eqn:E; [|done].
  simpl. apply wf_emit, wf_startMetricsCollection.
  by eapply (wf_server_update sid (Server.with_status running)).
Qed.

Lemma wf_stopServer sid w : wf w → wf (stopServer sid w).2.
Proof.
  intros Hw. unfold stopServer.
  destruct (server_update sid (Server.with_status stopped) w) as [w1|] eqn:E; [|done].
  simpl. apply wf_emit, wf_stopMetricsCollection.
  by eapply (wf_server_update sid (Server.with_status stopped)).
Qed.

Lemma wf_postServer org now b w : wf w → wf (postServer org now b w).2.
Proof.
  intros Hw. unfold postServer.
  destruct (negb (validServerBody b)); [done|].
  case_bool_decide; [done|].
  destruct (getInstanceSpecs _ _ w) as [e|specs]; [done|].
  match goal with |- context [provisionServer ?i ?w1] =>
    pose proof (wf_provisionServer i w1) as Hp; destruct (provisionServer i w1) as [[e|[]] w2]
  end; simpl in *; apply Hp; by apply wf_insert_server.
Qed.

Lemma wf_postStart org id w : wf w → wf (postStart org id w).2.
Proof.
  intros Hw. unfold postStart.
  destruct (findServer id org w) as [s|]; [|done].
  case_bool_decide; [done|].
  pose proof (wf_startServer (Server.id s) w Hw) as Hp.
  by destruct (startServer (Server.id s) w) as [[e|[]] w2].
Qed.

Lemma wf_postStop org id w : wf w → wf (postStop org id w).2.
Proof.
  intros Hw. unfold postStop.
  destruct (findServer id org w) as [s|]; [|done].
  case_bool_decide; [done|].
  pose proof (wf_stopServer (Server.id s) w Hw) as Hp.
  by destruct (stopServer (Server.id s) w) as [[e|[]] w2].
Qed.

Lemma wf_postDeployment org now b w : wf w → wf (postDeployment org now b w).2.
Proof.
  intros Hw. unfold postDeployment.
  destruct (negb (validDeploymentBody b)); [done|].
  destruct (findServer _ org w) as [s|]; [|done].
  destruct (negb _); [done|].
  case_bool_decide; [done|].
  simpl. apply wf_setTimeout. by apply wf_insert_deployment.
Qed.

Lemma wf_postRedeploy org id now w : wf w → wf (postRedeploy org id now w).2.
Proof.
  intros Hw. unfold postRedeploy.
  destruct (findDeployment id org w) as [d|]; [|done].
  destruct (servers w !! _) as [s|]; [|done].
  destruct (negb _); [done|].
  match goal with |- context [deployment_update ?i ?f w] =>
    destruct (deployment_update i f w) as [w1|] eqn:E; [|done];
    simpl; by eapply (wf_deployment_update i f)
  end.
Qed.

Lemma wf_buildStarted id fault w : wf w → wf (buildStarted id fault w).
Proof.
  intros Hw. unfold buildStarted.
  match goal with |- context [deployment_update ?i ?f w] =>
    destruct (if fault then None else deployment_update i f w) as [w1|] eqn:E; [|done];
    destruct fault; [done|];
    apply wf_setTimeout; by eapply (wf_deployment_update i f)
  end.
Qed.

Lemma wf_buildFinished id rnd fault w : wf w → wf (buildFinished id rnd fault w).
Proof.
  intros Hw. unfold buildFinished.
  match goal with |- context [deployment_update ?i ?f w] =>
    destruct (if fault then None else deployment_update i f w) as [w1|] eqn:E; [|done];
    destruct fault; [done|];
    apply wf_emit; by eapply (wf_deployment_update i f)
  end.
Qed.

Lemma wf_step e w : wf w → wf (step e w).
Proof.
  intros Hw. destruct e as [now r|h rnd fault|h now rnd fault|h rnd|h now rnd|now|];
    cbn [step].
  - destruct r; simpl;
      auto using wf_postServer, wf_postStart, wf_postStop, wf_postDeployment, wf_postRedeploy.
  - destruct (timeouts w !! h) as [k|]; [|done].
    apply (wf_drop_timeout h) in Hw.
    destruct k; simpl; auto using wf_provisioned, wf_buildStarted, wf_buildFinished.
  - destruct (intervals w !! h); [|done]. by apply wf_collectMetrics.
  - destruct (timeouts w !! h) as [k|]; [|done].
    apply (wf_drop_timeout h) in Hw.
    destruct k; simpl; auto using wf_provisioned, wf_buildStarted, wf_buildFinished.
  - destruct (intervals w !! h); [|done]. by apply wf_collectMetrics.
  - by apply wf_cleanupOldMetrics.
  - by apply wf_exited.
Qed.

Lemma wf_change c w : wf w → wf (change c w).
Proof. destruct c; simpl; auto using wf_step, wf_set_instanceSpecs. Qed.

Lemma changes_snoc cs c w : changes (cs ++ [c]) w = change c (changes cs w).
Proof. unfold changes. by rewrite foldl_app. Qed.

Lemma run_snoc es e w : run (es ++ [e]) w = step e (run es w).
Proof. unfold run. by rewrite foldl_app. Qed.

Lemma run_app es1 es2 w : run (es1 ++ es2) w = run es2 (run es1 w).
Proof. unfold run. by rewrite foldl_app. Qed.

Lemma wf_changes cs w : wf w → wf (changes cs w).
Proof.
  intros Hw. induction cs as [|c cs IH] using rev_ind; [done|].
  rewrite changes_snoc. by apply wf_change.
Qed.

Lemma wf_run es w : wf w → wf (run es w).
Proof.
  intros Hw. induction es as [|e es IH] using rev_ind; [done|].
  rewrite run_snoc. by apply wf_step.
Qed.

(** * Collection tasks *)

Lemma activeTasks_registry sid w :
  wf w →
  activeTasks sid w = match metricsIntervals w !! sid with Some _ => 1%nat | None => 0%nat end.
Proof.
  intros Hw. unfold activeTasks.
  destruct (metricsIntervals w !! sid) as [h|] eqn:E.
  - assert (filter (λ p : Handle * Id, p.2 = sid) (intervals w) = {[h := sid]}) as ->.
    { apply map_eq. intros h'. apply option_eq. intros sid'.
      rewrite map_lookup_filter_Some, lookup_singleton_Some. simpl.
      rewrite (wf_registry w Hw). split.
      - intros [Hm ->]. split; [congruence|done].
      - intros [<- <-]. done. }
    apply map_size_singleton.
  - assert (filter (λ p : Handle * Id, p.2 = sid) (intervals w) = ∅) as ->.
    { apply map_eq. intros h'. apply option_eq. intros sid'.
      rewrite map_lookup_filter_Some, lookup_empty. simpl.
      rewrite (wf_registry w Hw). split; [|done].
      intros [Hm ->]. congruence. }
    apply map_size_empty.
Qed.

Lemma startMetricsCollection_registry sid w :
  metricsIntervals (startMetricsCollection sid w) !! sid = Some (nextHandle w).
Proof.
  unfold startMetricsCollection. simpl.
  by rewrite lookup_insert_eq, stopMetricsCollection_nextHandle.
Qed.

Lemma startMetricsCollection_cancels sid h w :
  wf w → metricsIntervals w !! sid = Some h →
  intervals (startMetricsCollection sid w) !! h = None.
Proof.
  intros Hw E. unfold startMetricsCollection, stopMetricsCollection. rewrite E. simpl.
  rewrite lookup_insert_ne, lookup_delete_eq; [done|].
  intros <-. apply (wf_registry w Hw) in E.
  destruct (wf_handles w Hw (nextHandle w)) as [Hi _]; [lia|]. congruence.
Qed.

Lemma registry_stopMetricsCollection sid w id :
  metricsIntervals (stopMetricsCollection sid w) !! id
  = if decide (id = sid) then None else metricsIntervals w !! id.
Proof.
  unfold stopMetricsCollection. destruct (metricsIntervals w !! sid) as [h|] eqn:E; simpl.
  - case_decide as Hid; [subst; apply lookup_delete_eq | by apply lookup_delete_ne].
  - case_decide as Hid; [by subst|done].
Qed.

Lemma registry_startMetricsCollection sid w id :
  metricsIntervals (startMetricsCollection sid w) !! id
  = if decide (id = sid) then Some (nextHandle w) else metricsIntervals w !! id.
Proof.
  unfold startMetricsCollection. simpl. case_decide as Hid.
  - subst. by rewrite lookup_insert_eq, stopMetricsCollection_nextHandle.
  - rewrite lookup_insert_ne by done. rewrite registry_stopMetricsCollection.
    by rewrite decide_False.
Qed.

(** C2. For every history of the process and every server id: starting
    metrics collection cancels the timer registered for the id, if there is
    one, and leaves exactly one active timer for the id; stopping it leaves
    none, and changes nothing when no timer is registered; at no time are
    two timers active for the id. *)
Theorem collection_task_unique (es : list Event) (serverId : Id) :
  let w := run es boot in
  activeTasks serverId (startMetricsCollection serverId w) = 1%nat
  ∧ (∀ h, metricsIntervals w !! serverId = Some h →
          intervals (startMetricsCollection serverId w) !! h = None)
  ∧ activeTasks serverId (stopMetricsCollection serverId w) = 0%nat
  ∧ (metricsIntervals w !! serverId = None → stopMetricsCollection serverId w = w)
  ∧ (activeTasks serverId w ≤ 1)%nat.
Proof.
  intros w. assert (wf w) as Hw by apply wf_run, wf_boot.
  repeat split.
  - rewrite activeTasks_registry by by apply wf_startMetricsCollection.
    by rewrite startMetricsCollection_registry.
  - intros h. by apply startMetricsCollection_cancels.
  - rewrite activeTasks_registry by by apply wf_stopMetricsCollection.
    by rewrite stopMetricsCollection_registry.
  - intros E. unfold stopMetricsCollection. by rewrite E.
  - rewrite activeTasks_registry by done. destruct (metricsIntervals w !! serverId); lia.
Qed.

(** * What a step does to the server table *)

Lemma servers_stopMetricsCollection sid w : servers (stopMetricsCollection sid w) = servers w.
Proof. unfold stopMetricsCollection. by destruct (metricsIntervals w !! sid). Qed.

Lemma servers_startMetricsCollection sid w : servers (startMetricsCollection sid w) = servers w.
Proof. unfold startMetricsCollection. simpl. apply servers_stopMetricsCollection. Qed.

Lemma servers_collectMetrics sid now rnd fault fault' w :
  servers (collectMetrics sid now rnd fault fault' w) = servers w.
Proof. unfold collectMetrics. destruct fault; [done|]. simpl.
  destruct fault'; [done|]. by case_bool_decide. Qed.

Lemma servers_buildStarted id fault w : servers (buildStarted id fault w) = servers w.
Proof.
  unfold buildStarted, deployment_update.
  destruct fault; [done|]. by destruct (deployments w !! id).
Qed.

Lemma servers_buildFinished id rnd fault w : servers (buildFinished id rnd fault w) = servers w.
Proof.
  unfold buildFinished, deployment_update.
  destruct fault; [done|]. by destruct (deployments w !! id).
Qed.

Lemma servers_postDeployment org now b w : servers (postDeployment org now b w).2 = servers w.
Proof.
  unfold postDeployment.
  destruct (negb (validDeploymentBody b)); [done|].
  destruct (findServer _ org w); [|done].
  destruct (negb _); [done|]. by case_bool_decide.
Qed.

Lemma servers_postRedeploy org id now w : servers (postRedeploy org id now w).2 = servers w.
Proof.
  unfold postRedeploy, deployment_update.
  destruct (findDeployment id org w) as [d|]; [|done].
  destruct (servers w !! _); [|done].
  destruct (negb _); [done|].
  by destruct (deployments w !! Deployment.id d).
Qed.

Lemma findServer_Some id org w s :
  findServer id org w = Some s →
  servers w !! id = Some s ∧ Server.organizationId s = org ∧ Server.isActive s = true.
Proof.
  unfold findServer. destruct (servers w !! id) as [s'|]; [|done].
  case_bool_decide; [|done]. intros [= <-]. tauto.
Qed.

Lemma with_ipAddress_same st s :
  Server.with_ipAddress (Server.ipAddress s) (Server.with_status st s) = Server.with_status st s.
Proof. by destruct s. Qed.

Lemma effect_provisioned sid rnd fault fault' w :
  servers_effect w (provisioned sid rnd fault fault' w).
Proof.
  unfold provisioned, server_update.
  destruct (servers w !! sid) as [s|] eqn:E.
  - destruct fault.
    + destruct fault'; [by apply effect_none|].
      eapply (effect_status _ _ sid s failed (Server.ipAddress s)); [done| |by auto].
      simpl. by rewrite with_ipAddress_same.
    + eapply (effect_status _ _ sid s running); [done| |].
      * simpl. by rewrite ?servers_startMetricsCollection, ?servers_stopMetricsCollection.
      * destruct (decide (Server.status s = running)); auto.
  - destruct fault, fault'; by apply effect_none.
Qed.

Lemma effect_postStart org id w : wf w → servers_effect w (postStart org id w).2.
Proof.
  intros Hw. unfold postStart.
  destruct (findServer id org w) as [s|] eqn:E; [|by apply effect_none].
  apply findServer_Some in E as (E & _ & _).
  case_bool_decide as Hst; [by apply effect_none|].
  destruct (wf_servers w Hw _ _ E) as [-> _].
  unfold startServer, server_update. rewrite E.
  eapply (effect_status _ _ id s running (Server.ipAddress s)); [done| |by auto].
  simpl. rewrite ?servers_startMetricsCollection, ?servers_stopMetricsCollection. simpl.
  by rewrite with_ipAddress_same.
Qed.

Lemma effect_postStop org id w : wf w → servers_effect w (postStop org id w).2.
Proof.
  intros Hw. unfold postStop.
  destruct (findServer id org w) as [s|] eqn:E; [|by apply effect_none].
  apply findServer_Some in E as (E & _ & _).
  case_bool_decide as Hst; [by apply effect_none|].
  destruct (wf_servers w Hw _ _ E) as [-> _].
  unfold stopServer, server_update. rewrite E.
  eapply (effect_status _ _ id s stopped (Server.ipAddress s)); [done| |by auto].
  simpl. rewrite ?servers_startMetricsCollection, ?servers_stopMetricsCollection. simpl.
  by rewrite with_ipAddress_same.
Qed.

Lemma fresh_server w : wf w → servers w !! nextId w = None.
Proof.
  intros Hw. destruct (servers w !! nextId w) as [s|] eqn:E; [|done].
  destruct (wf_servers w Hw _ _ E). lia.
Qed.

Lemma effect_postServer org now b w : wf w → servers_effect w (postServer org now b w).2.
Proof.
  intros Hw. unfold postServer.
  destruct (negb (validServerBody b)); [by apply effect_none|].
  case_bool_decide; [by apply effect_none|].
  destruct (getInstanceSpecs _ _ w) as [e|specs]; [by apply effect_none|].
  unfold provisionServer, server_update. simpl. rewrite !lookup_insert_eq. simpl.
  rewrite insert_insert_eq.
  eapply effect_create; [by apply fresh_server| |done]. done.
Qed.

Lemma effect_set_timeouts x w w' :
  servers_effect (set_timeouts x w) w' → servers_effect w w'.
Proof.
  intros [H|id s st ip H1 H2 H3|s H1 H2 H3]; simpl in *.
  - by apply effect_none.
  - by eapply effect_status.
  - by eapply effect_create.
Qed.

Lemma effect_step e w : wf w → servers_effect w (step e w).
Proof.
  intros Hw. destruct e as [now r|h rnd fault|h now rnd fault|h rnd|h now rnd|now|];
    cbn [step].
  - destruct r; simpl; auto using effect_postServer, effect_postStart, effect_postStop.
    + apply effect_none, servers_postDeployment.
    + apply effect_none, servers_postRedeploy.
  - destruct (timeouts w !! h) as [k|]; [|by apply effect_none].
    destruct k; cbn [run_task].
    + eapply effect_set_timeouts, effect_provisioned.
    + apply effect_none. by rewrite servers_buildStarted.
    + apply effect_none. by rewrite servers_buildFinished.
  - destruct (intervals w !! h); [|by apply effect_none].
    apply effect_none, servers_collectMetrics.
  - destruct (timeouts w !! h) as [k|]; [|by apply effect_none].
    destruct k; cbn [run_task].
    + eapply effect_set_timeouts, effect_provisioned.
    + apply effect_none. by rewrite servers_buildStarted.
    + apply effect_none. by rewrite servers_buildFinished.
  - destruct (intervals w !! h); [|by apply effect_none].
    apply effect_none, servers_collectMetrics.
  - by apply effect_none.
  - by apply effect_none.
Qed.

(** * Server lifecycle *)





(** Hence the graph of the document is not an invariant of the code. *)
Lemma lifecycle_graph_not_followed : ¬ transitions_along lifecycle_edge.
Proof.
  intros H.
  specialize (H [request 1000 (POST_servers 7%nat
                   (ServerBody.mk "web" "aws" "eu-west-1" "t3.micro" None None None))]
                (request 2000 (POST_servers_stop 7%nat 0%nat)) 0%nat pending stopped).
  vm_compute in H. by specialize (H eq_refl eq_refl ltac:(discriminate)).
Qed.


(** Each of the nine edges is taken in some history. *)
Lemma taken_edges_all_occur a b :
  taken_edge a b = true →
  ∃ es e, status_of 0%nat (run es boot) = Some a ∧ status_of 0%nat (step e (run es boot)) = Some b.
Proof.
  pose (create := request 1000 (POST_servers 7%nat
                    (ServerBody.mk "web" "aws" "eu-west-1" "t3.micro" None None None))).
  pose (start := request 2000 (POST_servers_start 7%nat 0%nat)).
  pose (stop := request 3000 (POST_servers_stop 7%nat 0%nat)).
  pose (done_ok := timeout 0%nat (λ _, 0.5%Q) false).
  pose (done_ko := timeout 0%nat (λ _, 0.5%Q) true).
  destruct a, b; try discriminate; intros _.
  - exists [create], done_ok. by vm_compute.
  - exists [create], stop. by vm_compute.
  - exists [create], done_ko. by vm_compute.
  - exists [create; start], stop. by vm_compute.
  - exists [create; start], done_ko. by vm_compute.
  - exists [create; stop], start. by vm_compute.
  - exists [create; stop], done_ko. by vm_compute.
  - exists [create; done_ko], start. by vm_compute.
  - exists [create; done_ko], stop. by vm_compute.
Qed.

(** * Creation snapshot *)

Lemma specs_preserved c w id s :
  wf w → servers w !! id = Some s →
  ∃ s', servers (change c w) !! id = Some s' ∧ stored_specs s' = stored_specs s.
Proof.
  intros Hw Hs. destruct c as [e|c]; [|by exists s].
  simpl. destruct (effect_step e w Hw) as [H|id' s0 st ip H1 H2 H3|s0 H1 H2 H3].
  - exists s. by rewrite H.
  - rewrite H2. destruct (decide (id' = id)) as [->|Hid].
    + rewrite lookup_insert_eq. eexists. split; [done|].
      rewrite H1 in Hs. injection Hs as ->. by destruct s.
    + rewrite lookup_insert_ne by done. by exists s.
  - rewrite H3. destruct (decide (nextId w = id)) as [<-|Hid]; [congruence|].
    rewrite lookup_insert_ne by done. by exists s.
Qed.

Lemma specs_preserved_changes cs w id s :
  wf w → servers w !! id = Some s →
  ∃ s', servers (changes cs w) !! id = Some s' ∧ stored_specs s' = stored_specs s.
Proof.
  intros Hw Hs. induction cs as [|c cs IH] using rev_ind; [by exists s|].
  destruct IH as (s1 & H1 & E1). rewrite changes_snoc.
  destruct (specs_preserved c (changes cs w) id s1) as (s2 & H2 & E2);
    [by apply wf_changes | done |].
  exists s2. split; [done | congruence].
Qed.

(** C10, as the document states it, fails: a request may give its own cpu,
    memory and storage, and these are stored instead of the catalog's.  A
    request for an aws t3.micro with 8 cpus is accepted and stores 8 cpus,
    where the catalog has 2. *)
Lemma creation_overrides_catalog :
  let b := ServerBody.mk "db" "aws" "eu-west-1" "t3.micro" (Some 8) None None in
  (postServer 7%nat 1000 b boot).1 = inr (mkResponse 201 "Server created successfully")
  ∧ Server.cpu <$> servers (postServer 7%nat 1000 b boot).2 !! nextId boot = Some 8
  ∧ getInstanceSpecs "aws" "t3.micro" boot = inr (InstanceSpecs.mk 2 1 20 100 8.50%Q).
Proof. vm_compute. done. Qed.

(** Hence the rule of the document does not hold of the code. *)
Lemma creation_not_catalog_specs :
  ¬ creation_stores_catalog_specs.
Proof.
  intros H.
  pose (b := ServerBody.mk "db" "aws" "eu-west-1" "t3.micro" (Some 8) None None).
  destruct (H [] 7%nat 1000 b (mkResponse 201 "Server created successfully")
              (postServer 7%nat 1000 b boot).2) as (s & specs & Hs & Hc & He).
  { by vm_compute. }
  set (w' := (postServer 7%nat 1000 b boot).2) in Hs.
  assert (Server.cpu <$> servers w' !! nextId (changes [] boot) = Some 8) as Hcpu
    by (vm_compute; reflexivity).
  assert (Server.provider <$> servers w' !! nextId (changes [] boot) = Some "aws") as Hp
    by (vm_compute; reflexivity).
  assert (Server.instanceType <$> servers w' !! nextId (changes [] boot) = Some "t3.micro")
    as Ht by (vm_compute; reflexivity).
  rewrite Hs in Hcpu, Hp, Ht. simpl in Hcpu, Hp, Ht.
  injection Hcpu as Hcpu. injection Hp as Hp. injection Ht as Ht.
  rewrite Hp, Ht in Hc.
  assert (getInstanceSpecs "aws" "t3.micro" (changes [] boot)
          = inr (InstanceSpecs.mk 2 1 20 100 8.50%Q)) as Hc' by (vm_compute; reflexivity).
  rewrite Hc' in Hc. injection Hc as <-.
  apply (f_equal InstanceSpecs.cpu) in He. simpl in He. lia.
Qed.

(** C10, amended.  A created server stores the bandwidth and the monthly
    price of the catalog's specification for its provider and instance
    type, and the catalog's cpu, memory and storage unless the request
    gives its own; whatever happens afterwards, a replacement of the catalog
    included, the stored specification of the server stays as created. *)
Theorem creation_snapshot cs organizationId now b r w' :
  let w := changes cs boot in
  postServer organizationId now b w = (inr r, w') →
  ∃ s specs,
    servers w' !! nextId w = Some s
    ∧ getInstanceSpecs (Server.provider s) (Server.instanceType s) w = inr specs
    ∧ Server.bandwidth s = InstanceSpecs.bandwidth specs
    ∧ Server.monthlyPrice s = InstanceSpecs.monthlyPrice specs
    ∧ Server.cpu s = or_default (ServerBody.cpu b) (InstanceSpecs.cpu specs)
    ∧ Server.memory s = or_default (ServerBody.memory b) (InstanceSpecs.memory specs)
    ∧ Server.storage s = or_default (ServerBody.storage b) (InstanceSpecs.storage specs)
    ∧ ∀ cs', ∃ s', servers (changes cs' w') !! nextId w = Some s'
                    ∧ stored_specs s' = stored_specs s.
Proof.
  intros w H.
  assert (wf w) as Hw by apply wf_changes, wf_boot.
  assert (wf w') as Hw'.
  { pose proof (wf_postServer organizationId now b w Hw) as H'. by rewrite H in H'. }
  clearbody w. unfold postServer in H.
  destruct (negb (validServerBody b)); [done|].
  case_bool_decide; [done|].
  destruct (getInstanceSpecs _ _ w) as [e|specs] eqn:Hc; [done|].
  unfold provisionServer, server_update in H. simpl in H.
  rewrite !lookup_insert_eq in H. simpl in H. rewrite insert_insert_eq in H.
  injection H as _ <-.
  eexists _, specs. split; [apply lookup_insert_eq|].
  split; [exact Hc|]. repeat (split; [done|]).
  intros cs'. apply specs_preserved_changes; [done|]. apply lookup_insert_eq.
Qed.

Lemma creation_snapshot_witness :
  ∃ s specs,
    servers (postServer 7%nat 1000
               (ServerBody.mk "db" "aws" "eu-west-1" "t3.micro" (Some 8) None None) boot).2
      !! 0%nat = Some s
    ∧ getInstanceSpecs (Server.provider s) (Server.instanceType s) boot = inr specs
    ∧ Server.bandwidth s = InstanceSpecs.bandwidth specs
    ∧ Server.monthlyPrice s = InstanceSpecs.monthlyPrice specs
    ∧ Server.cpu s = 8.
Proof.
  destruct (creation_snapshot [] 7%nat 1000
              (ServerBody.mk "db" "aws" "eu-west-1" "t3.micro" (Some 8) None None)
              (mkResponse 201 "Server created successfully")
              (postServer 7%nat 1000
                 (ServerBody.mk "db" "aws" "eu-west-1" "t3.micro" (Some 8) None None) boot).2)
    as (s & specs & Hs & Hc & Hb & Hp & Hcpu & _).
  { by vm_compute. }
  exists s, specs. repeat split; done.
Defined.

(** * Start of a running server *)

(** C4. Starting a server that is [running] is refused with the error
    "Server is already running" (status 400), the handler's rejection of
    the transition, and the whole world is left as it was: the server's
    record, and with it its status and anything that counts its
    transitions, is unchanged. *)
Theorem start_running_rejected (w : World) (organizationId id : Id) (server : Server.t) :
  findServer id organizationId w = Some server →
  Server.status server = running →
  postStart organizationId id w = (inl (HttpError "Server is already running" 400), w)
  ∧ servers (postStart organizationId id w).2 !! id = Some server.
Proof.
  intros Hf Hst. unfold postStart. rewrite Hf.
  rewrite bool_decide_eq_true_2 by done. split; [done|].
  by apply findServer_Some in Hf as (? & _).
Qed.

Lemma start_running_rejected_witness :
  ∃ server,
    findServer 0%nat 7%nat
      (run [request 1000 (POST_servers 7%nat
              (ServerBody.mk "web" "aws" "eu-west-1" "t3.micro" None None None));
            timeout 0%nat (λ _, 0.5%Q) false] boot) = Some server
    ∧ Server.status server = running
    ∧ postStart 7%nat 0%nat
        (run [request 1000 (POST_servers 7%nat
                (ServerBody.mk "web" "aws" "eu-west-1" "t3.micro" None None None));
              timeout 0%nat (λ _, 0.5%Q) false] boot)
      = (inl (HttpError "Server is already running" 400),
         run [request 1000 (POST_servers 7%nat
                (ServerBody.mk "web" "aws" "eu-west-1" "t3.micro" None None None));
              timeout 0%nat (λ _, 0.5%Q) false] boot).
Proof.
  eexists. split; [vm_compute; reflexivity|]. split; [reflexivity|].
  refine (proj1 (start_running_rejected _ 7%nat 0%nat _ _ _));
    [vm_compute; reflexivity | reflexivity].
Defined.

(** * Redeploy *)

Lemma postRedeploy_schedules_nothing org id now w :
  timeouts (postRedeploy org id now w).2 = timeouts w.
Proof.
  unfold postRedeploy, deployment_update.
  destruct (findDeployment id org w) as [d|]; [|done].
  destruct (servers w !! _); [|done].
  destruct (negb _); [done|].
  by destruct (deployments w !! Deployment.id d).
Qed.

Lemma pipeline_frame_collectMetrics sid now rnd fault fault' w :
  deployments (collectMetrics sid now rnd fault fault' w) = deployments w
  ∧ timeouts (collectMetrics sid now rnd fault fault' w) = timeouts w.
Proof. unfold collectMetrics. destruct fault; [done|]. simpl.
  destruct fault'; [done|]. by case_bool_decide. Qed.

Lemma timers_idle e w :
  is_timer e = true → timeouts w = ∅ →
  timeouts (step e w) = ∅ ∧ deployments (step e w) = deployments w.
Proof.
  intros He Hto.
  destruct e as [now r|h rnd fault|h now rnd fault|h rnd|h now rnd|now|]; [done|..];
    cbn [step].
  - by rewrite Hto, lookup_empty.
  - destruct (intervals w !! h) as [sid|]; [|done].
    by destruct (pipeline_frame_collectMetrics sid now rnd fault false w) as [-> ->].
  - by rewrite Hto, lookup_empty.
  - destruct (intervals w !! h) as [sid|]; [|done].
    by destruct (pipeline_frame_collectMetrics sid now rnd false true w) as [-> ->].
  - done.
  - done.
Qed.

Lemma timers_idle_run es w :
  forallb is_timer es = true → timeouts w = ∅ →
  timeouts (run es w) = ∅ ∧ deployments (run es w) = deployments w.
Proof.
  intros Hes Hto. induction es as [|e es IH] using rev_ind; [done|].
  rewrite forallb_app in Hes. apply andb_prop in Hes as [Hes He].
  simpl in He. rewrite andb_true_r in He.
  destruct (IH Hes) as [IH1 IH2]. rewrite run_snoc.
  destruct (timers_idle e (run es w) He IH1) as [H1 H2]. split; congruence.
Qed.

Lemma redeployed_building :
  Deployment.status <$> deployments (run redeploy_history boot) !! 1%nat = Some d_building.
Proof. vm_compute. reflexivity. Qed.

Lemma redeployed_idle : timeouts (run redeploy_history boot) = ∅.
Proof. vm_compute. reflexivity. Qed.

(** C6 fails on the code.  After the redeploy that ends [redeploy_history]
    the deployment is [building] and no timer is pending; whatever timers
    fire afterwards, it stays [building]: the handler sets no timer that
    would resolve it. *)
Theorem redeploy_never_resolves (es : list Event) :
  forallb is_timer es = true →
  Deployment.status <$> deployments (run redeploy_history boot) !! 1%nat = Some d_building
  ∧ timeouts (run redeploy_history boot) = ∅
  ∧ Deployment.status <$> deployments (run es (run redeploy_history boot)) !! 1%nat
    = Some d_building.
Proof.
  intros Hes. split; [apply redeployed_building|]. split; [apply redeployed_idle|].
  destruct (timers_idle_run es _ Hes redeployed_idle) as [_ ->].
  apply redeployed_building.
Qed.

Lemma redeploy_never_resolves_witness :
  Deployment.status <$>
    deployments (run [tick 1%nat 120000 (λ _, 0.5%Q) false; timeout 3%nat (λ _, 0.5%Q) false]
                   (run redeploy_history boot)) !! 1%nat
  = Some d_building.
Proof.
  apply (redeploy_never_resolves
           [tick 1%nat 120000 (λ _, 0.5%Q) false; timeout 3%nat (λ _, 0.5%Q) false]).
  reflexivity.
Defined.

(** * Ordering by timestamp *)

#[local] Instance newer_first_trans : Transitive newer_first.
Proof. unfold newer_first. intros a b c ? ?. lia. Qed.

#[local] Instance newer_first_total : Total newer_first.
Proof. unfold newer_first. intros a b. lia. Qed.

Lemma StronglySorted_sublist {A} (R : relation A) (l1 l2 : list A) :
  l1 `sublist_of` l2 → StronglySorted R l2 → StronglySorted R l1.
Proof.
  induction 1 as [|x l1 l2 Hsub IH|x l1 l2 Hsub IH]; intros Hs.
  - constructor.
  - apply StronglySorted_inv in Hs as [Hs Hall]. constructor; [by apply IH|].
    rewrite Forall_forall in *. intros y Hy. apply Hall.
    by eapply elem_of_sublist.
  - apply StronglySorted_inv in Hs as [Hs _]. by apply IH.
Qed.

Lemma orderBy_sorted l : StronglySorted newer_first (orderBy_timestamp_desc l).
Proof. apply StronglySorted_merge_sort; apply _. Qed.

Lemma orderBy_perm l : orderBy_timestamp_desc l ≡ₚ l.
Proof. apply merge_sort_Permutation. Qed.

(** What is cut off a newest-first list is no newer than what is kept. *)
Lemma sorted_take_drop n (l : list ServerMetric.t) x y :
  StronglySorted newer_first l → x ∈ take n l → y ∈ drop n l →
  (ServerMetric.timestamp y ≤ ServerMetric.timestamp x)%Z.
Proof.
  intros Hs Hx Hy. rewrite <- (take_drop n l) in Hs.
  by apply (StronglySorted_app_1_elem_of _ _ _ x y Hs).
Qed.

(** * Alerts of the monitoring overview *)

Lemma exceeds_spec x limit : exceeds x limit = true ↔ (limit < x)%Q.
Proof.
  unfold exceeds. rewrite negb_true_iff, <- not_true_iff_false, Qle_bool_iff.
  split; [apply Qnot_le_lt | apply Qlt_not_le].
Qed.

Lemma isAlert_spec m :
  isAlert m = true ↔
  (80 < ServerMetric.cpuUsage m)%Q ∨ (85 < ServerMetric.memoryUsage m)%Q
  ∨ (90 < ServerMetric.diskUsage m)%Q.
Proof. unfold isAlert. rewrite !orb_true_iff, !exceeds_spec. tauto. Qed.

Lemma recentMetrics_sorted org now w :
  StronglySorted newer_first (recentMetrics org now w).
Proof.
  unfold recentMetrics. eapply StronglySorted_sublist; [apply sublist_take|].
  apply orderBy_sorted.
Qed.

(** C7, as the document states it, fails: the overview reads the 100 most
    recent samples of the last hour, not all of them.  After
    [crowded_history] the organization has 101 samples of the last hour, the
    oldest of which (the sample of id 1) is above every threshold; the
    document's rule flags it, and the overview returns no alert. *)
Lemma hot_sample_outside_window :
  length (lastHour 7%nat 600000 (run crowded_history boot)) = 101%nat
  ∧ ServerMetric.id <$> flagged 7%nat 600000 (run crowded_history boot) = [1%nat]
  ∧ alerts 7%nat 600000 (run crowded_history boot) = [].
Proof. vm_compute. done. Qed.

(** C7, amended.  The overview reads the 100 most recent samples of the last
    hour of the organization's servers: the samples read are samples of the
    store, of servers of the organization and no older than an hour; they
    are 100, or all of these if there are fewer; and each such sample that
    is not read is no newer than each one read.  A sample read is an alert
    exactly when its cpu usage is above 80, its memory usage above 85 or its
    disk usage above 90, strictly: cpu 80 with nothing else high is no
    alert, cpu 80.1 is one.  The type of an alert is cpu if the cpu
    threshold is exceeded, else memory if the memory threshold is, else
    disk.  At most 10 alerts are returned, and they are the most recent
    ones: every alerting sample read that is left out is no newer than each
    alert returned, and is left out only when 10 are returned.  So a sample
    of the last hour that is above a threshold is missing from the alerts
    only when 10 alerts no older than it are returned, or 100 samples no
    older than it were read. *)
Theorem overview_alerts (organizationId : Id) (now : Z) (w : World) :
  let recent := recentMetrics organizationId now w in
  let shown := alerting recent in
  let hot m := (80 < ServerMetric.cpuUsage m)%Q ∨ (85 < ServerMetric.memoryUsage m)%Q
               ∨ (90 < ServerMetric.diskUsage m)%Q in
  (recent ⊆+ lastHour organizationId now w
   ∧ (∀ m, m ∈ lastHour organizationId now w ↔
           m ∈ serverMetrics w ∧ of_organization organizationId w m = true
           ∧ (now - 3600000 ≤ ServerMetric.timestamp m)%Z)
   ∧ length recent = Nat.min 100 (length (lastHour organizationId now w))
   ∧ (∀ m d, m ∈ recent → d ∈ lastHour organizationId now w → d ∉ recent →
             (ServerMetric.timestamp d ≤ ServerMetric.timestamp m)%Z))
  ∧ alerts organizationId now w = toAlert w <$> shown
  ∧ (length (alerts organizationId now w) ≤ 10)%nat
  ∧ (∀ m, m ∈ shown → m ∈ recent ∧ hot m)
  ∧ (∀ m, m ∈ recent → hot m →
          m ∈ shown
          ∨ length shown = 10%nat
            ∧ ∀ m', m' ∈ shown →
                    (ServerMetric.timestamp m ≤ ServerMetric.timestamp m')%Z)
  ∧ (∀ m, m ∈ lastHour organizationId now w → hot m →
          m ∈ shown
          ∨ (length shown = 10%nat
             ∧ ∀ m', m' ∈ shown →
                     (ServerMetric.timestamp m ≤ ServerMetric.timestamp m')%Z)
          ∨ (length recent = 100%nat
             ∧ ∀ m', m' ∈ recent →
                     (ServerMetric.timestamp m ≤ ServerMetric.timestamp m')%Z))
  ∧ (∀ m, (Alert.type (toAlert w m) = alert_cpu ↔ (80 < ServerMetric.cpuUsage m)%Q)
          ∧ (Alert.type (toAlert w m) = alert_memory ↔
             ¬ (80 < ServerMetric.cpuUsage m)%Q ∧ (85 < ServerMetric.memoryUsage m)%Q)
          ∧ (Alert.type (toAlert w m) = alert_disk ↔
             ¬ (80 < ServerMetric.cpuUsage m)%Q ∧ ¬ (85 < ServerMetric.memoryUsage m)%Q))
  ∧ (∀ id serverId networkIn networkOut timestamp,
        isAlert (ServerMetric.mk id serverId 80.0 85.0 90.0 networkIn networkOut timestamp)
        = false
        ∧ isAlert (ServerMetric.mk id serverId 80.1 0 0 networkIn networkOut timestamp)
          = true).
Proof.
  intros recent shown hot.
  set (E := lastHour organizationId now w).
  set (S := orderBy_timestamp_desc E).
  assert (recent = take 100 S) as Hrecent by done.
  assert (StronglySorted newer_first S) as HS by apply orderBy_sorted.
  assert (S ≡ₚ E) as HSperm by apply orderBy_perm.
  assert (∀ m d, m ∈ recent → d ∈ E → d ∉ recent →
                 (ServerMetric.timestamp d ≤ ServerMetric.timestamp m)%Z) as Hcut.
  { intros m d Hm Hd Hnot. rewrite Hrecent in Hm, Hnot.
    rewrite <- HSperm, <- (take_drop 100 S) in Hd.
    apply elem_of_app in Hd as [?|Hd]; [done|]. by eapply sorted_take_drop. }
  assert (∀ m, m ∈ recent → hot m →
               m ∈ shown
               ∨ length shown = 10%nat
                 ∧ ∀ m', m' ∈ shown →
                         (ServerMetric.timestamp m ≤ ServerMetric.timestamp m')%Z) as Hshown.
  { intros m Hr Ha. apply isAlert_spec in Ha.
    assert (m ∈ filter (λ m, isAlert m = true) recent) as Hf
      by by apply list_elem_of_filter.
    set (F := filter (λ m, isAlert m = true) recent) in *.
    assert (StronglySorted newer_first F) as HF.
    { eapply StronglySorted_sublist; [apply sublist_filter|].
      apply recentMetrics_sorted. }
    rewrite <- (take_drop 10 F) in Hf.
    apply elem_of_app in Hf as [Hf|Hf]; [by left|right].
    unfold shown, alerting. fold F. split.
    + rewrite length_take. destruct (decide (10 ≤ length F)%nat) as [|Hlt]; [lia|].
      rewrite drop_ge in Hf by lia. by apply elem_of_nil in Hf.
    + intros m' Hm'. by eapply sorted_take_drop. }
  assert (length recent = Nat.min 100 (length E)) as Hlen.
  { rewrite Hrecent, length_take. by rewrite HSperm. }
  split; [split_and!|split_and!]; try done.
  - rewrite Hrecent, <- HSperm. apply sublist_submseteq, sublist_take.
  - intros m. unfold E, lastHour. rewrite list_elem_of_filter. tauto.
  - unfold alerts. rewrite length_fmap. unfold alerting. rewrite length_take. lia.
  - intros m Hm. unfold shown, alerting in Hm.
    pose proof (elem_of_sublist _ _ _ Hm (sublist_take _ _)) as Hf.
    apply list_elem_of_filter in Hf as [Ha Hr]. by apply isAlert_spec in Ha.
  - intros m Hm Ha. rewrite <- HSperm, <- (take_drop 100 S) in Hm.
    apply elem_of_app in Hm as [Hr|Hd].
    + rewrite <- Hrecent in Hr.
      destruct (Hshown m Hr Ha) as [?|?]; [by left|right; by left].
    + right. right. split.
      * destruct (decide (100 ≤ length E)%nat) as [|Hlt]; [lia|].
        rewrite drop_ge in Hd by (rewrite HSperm; lia). by apply elem_of_nil in Hd.
      * intros m' Hm'. rewrite Hrecent in Hm'. by eapply sorted_take_drop.
  - intros m. unfold toAlert. simpl. rewrite <- !exceeds_spec.
    destruct (exceeds (ServerMetric.cpuUsage m) 80),
      (exceeds (ServerMetric.memoryUsage m) 85); split_and!; split; try done; intros []; done.
Qed.

(** * Metric retention *)

Section Retention.
Implicit Types l : list ServerMetric.t.

Lemma filter_all {A} (P : A → Prop) `{!∀ x, Decision (P x)} (l : list A) :
  (∀ x, x ∈ l → P x) → filter P l = l.
Proof.
  induction l as [|x l IH]; intros Hall; [done|].
  rewrite filter_cons_True by (apply Hall; left).
  f_equal. apply IH. intros y Hy. apply Hall. by right.
Qed.

Lemma filter_none {A} (P : A → Prop) `{!∀ x, Decision (P x)} (l : list A) :
  (∀ x, x ∈ l → ¬ P x) → filter P l = [].
Proof.
  induction l as [|x l IH]; intros Hall; [done|].
  rewrite filter_cons_False by (apply Hall; left).
  apply IH. intros y Hy. apply Hall. by right.
Qed.


Lemma deleteMany_nil l : deleteMany [] l = l.
Proof. unfold deleteMany. apply filter_all. intros x _. apply not_elem_of_nil. Qed.




End Retention.

Lemma serverMetrics_collectMetrics sid now rnd w :
  serverMetrics (collectMetrics sid now rnd false false w)
  = let l := serverMetrics w ++ [sample (nextId w) sid now rnd] in
    deleteMany (ServerMetric.id <$> oldMetrics sid l) l.
Proof.
  unfold collectMetrics. simpl. case_bool_decide as Hold; [done|].
  simpl. destruct (oldMetrics sid _) as [|x old] eqn:E; [|simpl in Hold; lia].
  by rewrite deleteMany_nil.
Qed.

Lemma serverMetrics_stopMetricsCollection sid w :
  serverMetrics (stopMetricsCollection sid w) = serverMetrics w.
Proof. unfold stopMetricsCollection. by destruct (metricsIntervals w !! sid). Qed.

Lemma serverMetrics_startMetricsCollection sid w :
  serverMetrics (startMetricsCollection sid w) = serverMetrics w.
Proof. unfold startMetricsCollection. simpl. apply serverMetrics_stopMetricsCollection. Qed.

Lemma serverMetrics_request now r w : serverMetrics (handle now r w).2 = serverMetrics w.
Proof.
  destruct r as [org b|org id|org id|org b|org id]; simpl.
  - unfold postServer. destruct (negb (validServerBody b)); [done|].
    case_bool_decide; [done|].
    destruct (getInstanceSpecs _ _ w); [done|].
    unfold provisionServer, server_update. simpl. by rewrite !lookup_insert_eq.
  - unfold postStart. destruct (findServer id org w) as [s|]; [|done].
    case_bool_decide; [done|].
    unfold startServer, server_update. destruct (servers w !! Server.id s); [|done].
    simpl. by rewrite ?serverMetrics_startMetricsCollection,
             ?serverMetrics_stopMetricsCollection.
  - unfold postStop. destruct (findServer id org w) as [s|]; [|done].
    case_bool_decide; [done|].
    unfold stopServer, server_update. destruct (servers w !! Server.id s); [|done].
    simpl. by rewrite ?serverMetrics_stopMetricsCollection.
  - unfold postDeployment. destruct (negb (validDeploymentBody b)); [done|].
    destruct (findServer _ org w); [|done].
    destruct (negb _); [done|]. by case_bool_decide.
  - unfold postRedeploy, deployment_update.
    destruct (findDeployment id org w) as [d|]; [|done].
    destruct (servers w !! _); [|done].
    destruct (negb _); [done|].
    by destruct (deployments w !! Deployment.id d).
Qed.

Lemma serverMetrics_run_task k rnd fault fault' w :
  serverMetrics (run_task k rnd fault fault' w) = serverMetrics w.
Proof.
  destruct k as [id|id|id]; simpl.
  - unfold provisioned, server_update. destruct (servers w !! id).
    + destruct fault; [by destruct fault'|]. simpl.
      by rewrite ?serverMetrics_startMetricsCollection,
           ?serverMetrics_stopMetricsCollection.
    + by destruct fault, fault'.
  - unfold buildStarted, deployment_update.
    destruct fault; [done|]. by destruct (deployments w !! id).
  - unfold buildFinished, deployment_update.
    destruct fault; [done|]. by destruct (deployments w !! id).
Qed.

(** A step that inserts no sample leaves the samples as they are, unless it
    is the purge of the database monitor. *)
Lemma serverMetrics_no_insertion e w :
  insertion e w = None → (∀ now, e ≠ purge now) →
  serverMetrics (step e w) = serverMetrics w.
Proof.
  destruct e as [now r|h rnd fault|h now rnd fault|h rnd|h now rnd|now|];
    cbn [step insertion]; intros Hi Hp.
  - apply serverMetrics_request.
  - destruct (timeouts w !! h); [|done]. by rewrite serverMetrics_run_task.
  - destruct fault; [by destruct (intervals w !! h)|].
    by destruct (intervals w !! h).
  - destruct (timeouts w !! h); [|done]. by rewrite serverMetrics_run_task.
  - by destruct (intervals w !! h).
  - by destruct (Hp now).
  - done.
Qed.

(** A step that inserts a sample is a tick of the collector: it appends the
    sample and, unless the clean-up raises, cleans up the samples of its
    server. *)
Lemma serverMetrics_insertion e w m :
  insertion e w = Some m →
  ServerMetric.id m = nextId w
  ∧ serverMetrics (step e w)
    = if undisturbed e
      then deleteMany
             (ServerMetric.id <$> oldMetrics (ServerMetric.serverId m) (serverMetrics w ++ [m]))
             (serverMetrics w ++ [m])
      else serverMetrics w ++ [m].
Proof.
  destruct e as [now r|h rnd fault|h now rnd fault|h rnd|h now rnd|now|];
    cbn [step insertion undisturbed]; try done.
  - destruct fault; [done|]. destruct (intervals w !! h) as [sid|]; [|done].
    intros [= <-]. split; [done|]. apply serverMetrics_collectMetrics.
  - destruct (intervals w !! h) as [sid|]; [|done].
    intros [= <-]. by split.
Qed.








(** * Calendar *)

Lemma all_from_spec n z p k :
  all_from n z p = true → z ≤ k < z + Z.of_nat n → p k = true.
Proof.
  revert z. induction n as [|n IH]; intros z Hall Hk; [lia|].
  simpl in Hall. destruct (p z) eqn:Hz; [|done].
  destruct (decide (k = z)) as [->|Hne]; [done|].
  apply (IH (z + 1)); [done|lia].
Qed.

Lemma era_days_ok : all_from (Z.to_nat 146097) 0 era_day_ok = true.
Proof. vm_compute. reflexivity. Qed.

Lemma era_day_ok_all doe : 0 ≤ doe < 146097 → era_day_ok doe = true.
Proof.
  intros H. apply (all_from_spec _ _ _ doe era_days_ok).
  rewrite Z2Nat.id; lia.
Qed.

(** The parts of [JSDate.civil]. *)
Lemma civil_parts day :
  ∃ era yoe mp date,
    0 ≤ yoe < 400 ∧ 0 ≤ mp ≤ 11 ∧ 1 ≤ date ≤ 31
    ∧ day = era * 146097 + (yoe * 365 + yoe / 4 - yoe / 100 + (153 * mp + 2) / 5 + date - 1)
            - 719468
    ∧ JSDate.civil day
      = (yoe + era * 400 + (if (if mp <? 10 then mp + 2 else mp - 10) <=? 1 then 1 else 0),
         if mp <? 10 then mp + 2 else mp - 10, date).
Proof.
  pose proof (Z.mod_pos_bound (day + 719468) 146097 ltac:(lia)) as Hdoe.
  pose proof (era_day_ok_all _ Hdoe) as Hok.
  pose proof (Z.div_mod (day + 719468) 146097 ltac:(lia)) as Hdm.
  unfold era_day_ok in Hok. cbv zeta in Hok.
  set (doe := (day + 719468) mod 146097) in *.
  set (yoe := (doe - doe / 1460 + doe / 36524 - doe / 146096) / 365) in *.
  set (doy := doe - (365 * yoe + yoe / 4 - yoe / 100)) in *.
  set (mp := (5 * doy + 2) / 153) in *.
  set (date := doy - (153 * mp + 2) / 5 + 1) in *.
  rewrite !andb_true_iff, !Z.leb_le, !Z.ltb_lt in Hok.
  exists ((day + 719468) / 146097), yoe, mp, date.
  split; [lia|]. split; [lia|]. split; [lia|]. split; [|done].
  unfold date, doy. lia.
Qed.

Lemma civil_date_range day : 1 ≤ (JSDate.civil day).2 ≤ 31.
Proof.
  destruct (civil_parts day) as (era & yoe & mp & date & _ & _ & Hd & _ & ->). done.
Qed.

Lemma civil_month_range day : 0 ≤ (JSDate.civil day).1.2 ≤ 11.
Proof.
  destruct (civil_parts day) as (era & yoe & mp & date & _ & Hmp & _ & _ & ->). simpl.
  destruct (mp <? 10) eqn:E; [apply Z.ltb_lt in E|apply Z.ltb_ge in E]; lia.
Qed.

(** The first of the month of a day is the day less its day of the month,
    plus one. *)
Lemma MakeDay_civil day :
  JSDate.MakeDay (JSDate.civil day).1.1 (JSDate.civil day).1.2 1
  = day - ((JSDate.civil day).2 - 1).
Proof.
  destruct (civil_parts day) as (era & yoe & mp & date & Hy & Hmp & Hd & Hday & ->).
  simpl. unfold JSDate.MakeDay.
  set (month := if mp <? 10 then mp + 2 else mp - 10).
  assert (0 ≤ month ≤ 11) as Hm.
  { unfold month. destruct (mp <? 10) eqn:E;
      [apply Z.ltb_lt in E|apply Z.ltb_ge in E]; lia. }
  rewrite (Z.div_small month 12), (Z.mod_small month 12) by lia.
  rewrite !Z.add_0_r.
  assert ((if month <=? 1 then yoe + era * 400 + (if month <=? 1 then 1 else 0) - 1
           else yoe + era * 400 + (if month <=? 1 then 1 else 0)) = yoe + era * 400) as ->.
  { destruct (month <=? 1); lia. }
  assert ((if month <=? 1 then month + 10 else month - 2) = mp) as ->.
  { unfold month. destruct (mp <? 10) eqn:E.
    - apply Z.ltb_lt in E. rewrite (proj2 (Z.leb_gt _ _)) by lia. lia.
    - apply Z.ltb_ge in E. rewrite (proj2 (Z.leb_le _ _)) by lia. lia. }
  rewrite Z.div_add, Z.mod_add by lia.
  rewrite (Z.div_small yoe 400), (Z.mod_small yoe 400) by lia.
  lia.
Qed.

Lemma civil_era day k :
  JSDate.civil (day + k * 146097)
  = ((JSDate.civil day).1.1 + 400 * k, (JSDate.civil day).1.2, (JSDate.civil day).2).
Proof.
  unfold JSDate.civil. cbv zeta.
  replace (day + k * 146097 + 719468) with (day + 719468 + k * 146097) by lia.
  rewrite Z.div_add, Z.mod_add by lia. simpl. f_equal. f_equal. lia.
Qed.

Lemma MakeDay_era year month date k :
  JSDate.MakeDay (year + 400 * k) month date = JSDate.MakeDay year month date + k * 146097.
Proof.
  unfold JSDate.MakeDay. cbv zeta.
  set (mn := month mod 12).
  assert ((if mn <=? 1 then year + 400 * k + month / 12 - 1 else year + 400 * k + month / 12)
          = (if mn <=? 1 then year + month / 12 - 1 else year + month / 12) + k * 400) as ->
    by (destruct (mn <=? 1); lia).
  rewrite Z.div_add, Z.mod_add by lia. lia.
Qed.

Lemma month_ends_ok : all_from (Z.to_nat 146097) 0 month_end_ok = true.
Proof. vm_cast_no_check (eq_refl true). Qed.

Lemma month_end_ok_all doe : 0 ≤ doe < 146097 → month_end_ok doe = true.
Proof.
  intros H. apply (all_from_spec _ _ _ doe month_ends_ok).
  rewrite Z2Nat.id; lia.
Qed.

(** The last day of the month of [day]. *)
Lemma month_end day :
  let year := (JSDate.civil day).1.1 in
  let month := (JSDate.civil day).1.2 in
  let first := JSDate.MakeDay year month 1 in
  let last := JSDate.MakeDay year (month + 1) 0 in
  JSDate.civil last = (year, month, last - first + 1)
  ∧ (JSDate.civil day).2 ≤ last - first + 1
  ∧ 28 ≤ last - first + 1 ≤ 31.
Proof.
  pose proof (Z.mod_pos_bound (day + 719468) 146097 ltac:(lia)) as Hdoe.
  pose proof (month_end_ok_all _ Hdoe) as Hok.
  pose proof (Z.div_mod (day + 719468) 146097 ltac:(lia)) as Hdm.
  set (doe := (day + 719468) mod 146097) in *.
  set (k := (day + 719468) / 146097) in *.
  clearbody doe k. assert (day = doe - 719468 + k * 146097) as -> by lia. clear Hdm.
  rewrite civil_era. cbn [fst snd]. revert Hok. unfold month_end_ok.
  destruct (JSDate.civil (doe - 719468)) as [[year month] date]. cbn [fst snd].
  rewrite !MakeDay_era, civil_era.
  destruct (JSDate.civil (JSDate.MakeDay year (month + 1) 0)) as [[year' month'] date'].
  cbn [fst snd]. rewrite !andb_true_iff.
  intros (((((?%Z.eqb_eq & ?%Z.eqb_eq) & ?%Z.eqb_eq) & ?%Z.leb_le) & ?%Z.leb_le) & ?%Z.leb_le).
  split; [f_equal; [f_equal|]; lia|]. lia.
Qed.

Lemma MakeDay_date year month date :
  JSDate.MakeDay year month date = JSDate.MakeDay year month 1 + (date - 1).
Proof. unfold JSDate.MakeDay. cbv zeta. lia. Qed.

(** * Billing *)

Lemma msPerDay_eq : JSDate.msPerDay = 86400000.
Proof. reflexivity. Qed.

Lemma regular_fixed (tz : Z) : JSDate.regular tz.
Proof. split; intros; simpl; rewrite ?msPerDay_eq; lia. Qed.

Lemma regular_eastern : JSDate.regular eastern.
Proof.
  split.
  - intros t. unfold JSDate.UTC. simpl.
    destruct (Z.leb_spec (1710054000000 - 14400000) t),
      (Z.ltb_spec t (1730613600000 - 14400000)); simpl;
      repeat match goal with
             | |- context [(?a <=? ?b)] => destruct (Z.leb_spec a b); simpl
             | |- context [(?a <? ?b)] => destruct (Z.ltb_spec a b); simpl
             end; lia.
  - intros t u. simpl. rewrite msPerDay_eq.
    repeat match goal with
           | |- context [(?a <=? ?b)] => destruct (Z.leb_spec a b); simpl
           | |- context [(?a <? ?b)] => destruct (Z.ltb_spec a b); simpl
           end; lia.
Qed.

Lemma daysPassed_range tz now : 1 ≤ daysPassed tz now ≤ 31.
Proof. apply civil_date_range. Qed.

(** Local midnight of a day resolves to an instant of that day. *)
Lemma localDay_UTC tz day :
  JSDate.regular tz → JSDate.localDay tz (JSDate.UTC tz (day * JSDate.msPerDay)) = day.
Proof.
  intros [Hr Hs]. unfold JSDate.localDay, JSDate.LocalTime.
  specialize (Hr (day * JSDate.msPerDay)).
  specialize (Hs (JSDate.UTC tz (day * JSDate.msPerDay)) (day * JSDate.msPerDay)).
  set (u := JSDate.UTC tz (day * JSDate.msPerDay)) in *.
  assert (u = day * JSDate.msPerDay - JSDate.offsetOf tz (day * JSDate.msPerDay)) as Hu by done.
  rewrite msPerDay_eq in *.
  symmetry. apply (Z.div_unique _ _ _ (u + JSDate.offsetAt tz u - day * 86400000)); lia.
Qed.

Lemma localDay_newDate tz year month date :
  JSDate.regular tz →
  JSDate.localDay tz (JSDate.newDate tz year month date) = JSDate.MakeDay year month date.
Proof. intros Hz. by apply localDay_UTC. Qed.

(** The start of the month is an instant of the first of the month. *)
Lemma localDay_startOfMonth tz now :
  JSDate.regular tz →
  JSDate.localDay tz (startOfMonth tz now) = JSDate.localDay tz now - (daysPassed tz now - 1).
Proof.
  intros Hz. unfold startOfMonth. rewrite localDay_newDate by done.
  unfold JSDate.getFullYear, JSDate.getMonth. apply MakeDay_civil.
Qed.

Lemma daysInMonth_last tz now :
  JSDate.regular tz →
  JSDate.civil (JSDate.MakeDay (JSDate.getFullYear tz now) (JSDate.getMonth tz now + 1) 0)
  = (JSDate.getFullYear tz now, JSDate.getMonth tz now,
     JSDate.MakeDay (JSDate.getFullYear tz now) (JSDate.getMonth tz now + 1) 0
     - JSDate.MakeDay (JSDate.getFullYear tz now) (JSDate.getMonth tz now) 1 + 1)
  ∧ daysInMonth tz now
    = JSDate.MakeDay (JSDate.getFullYear tz now) (JSDate.getMonth tz now + 1) 0
      - JSDate.MakeDay (JSDate.getFullYear tz now) (JSDate.getMonth tz now) 1 + 1.
Proof.
  intros Hz. destruct (month_end (JSDate.localDay tz now)) as (Hlast & _).
  split; [exact Hlast|].
  unfold daysInMonth, JSDate.getDate. rewrite localDay_newDate by done.
  unfold JSDate.getFullYear, JSDate.getMonth. by rewrite Hlast.
Qed.

Lemma daysInMonth_bounds tz now :
  JSDate.regular tz →
  28 ≤ daysInMonth tz now ≤ 31 ∧ daysPassed tz now ≤ daysInMonth tz now.
Proof.
  intros Hz. destruct (daysInMonth_last tz now Hz) as [_ ->].
  destruct (month_end (JSDate.localDay tz now)) as (_ & Hdate & Hlen).
  split; [exact Hlen|exact Hdate].
Qed.

Lemma startOfMonth_eq (tz now : Z) :
  startOfMonth tz now
  = (JSDate.localDay tz now - (daysPassed tz now - 1)) * JSDate.msPerDay - tz.
Proof.
  unfold startOfMonth, JSDate.newDate, JSDate.getFullYear, JSDate.getMonth.
  by rewrite MakeDay_civil.
Qed.

(** The time since the start of the month: the whole days before today and
    the time of day. *)
Lemma elapsed_in_month (tz now : Z) :
  now - startOfMonth tz now
  = (daysPassed tz now - 1) * JSDate.msPerDay + (now + tz) mod JSDate.msPerDay.
Proof.
  rewrite startOfMonth_eq. unfold JSDate.localDay, JSDate.LocalTime. simpl.
  rewrite msPerDay_eq.
  pose proof (Z.div_mod (now + tz) 86400000 ltac:(lia)). lia.
Qed.

(** [Math.ceil(a / b)] on integers. *)
Lemma Qceiling_div a b : 0 < b → Qceiling (inject_Z a / inject_Z b) = - ((- a) / b).
Proof.
  intros Hb. destruct b as [|b|b]; try lia.
  unfold Qceiling, Qfloor, Qdiv, Qinv, Qmult, Qopp, inject_Z. simpl.
  by rewrite Z.mul_1_r.
Qed.

Lemma daysUsed_eq tz now server :
  daysUsed tz now server
  = - ((- (now - Z.max (Server.createdAt server) (startOfMonth tz now))) / JSDate.msPerDay).
Proof.
  unfold daysUsed. rewrite Qceiling_div by (rewrite msPerDay_eq; lia).
  destruct (Z.gtb_spec (Server.createdAt server) (startOfMonth tz now)).
  - by rewrite Z.max_l by lia.
  - by rewrite Z.max_r by lia.
Qed.

(** The days used are the elapsed time in whole days, rounded up. *)
Lemma daysUsed_ceiling tz now server :
  (daysUsed tz now server - 1) * JSDate.msPerDay
  < now - Z.max (Server.createdAt server) (startOfMonth tz now)
  ≤ daysUsed tz now server * JSDate.msPerDay.
Proof.
  rewrite daysUsed_eq, msPerDay_eq.
  set (x := now - Z.max (Server.createdAt server) (startOfMonth tz now)).
  pose proof (Z.div_mod (- x) 86400000 ltac:(lia)).
  pose proof (Z.mod_pos_bound (- x) 86400000 ltac:(lia)). lia.
Qed.

(** Ten days after the start of the month it is the tenth of the month or
    later. *)
Lemma tenth_day tz now :
  JSDate.regular tz → now = startOfMonth tz now + 10 * JSDate.msPerDay →
  10 ≤ daysPassed tz now.
Proof.
  intros Hz Hnow. pose proof (localDay_startOfMonth tz now Hz) as Hstart.
  destruct Hz as [Hr Hs].
  set (first := JSDate.MakeDay (JSDate.getFullYear tz now) (JSDate.getMonth tz now) 1).
  assert (JSDate.localDay tz now - (daysPassed tz now - 1) = first) as Hfirst.
  { unfold first, JSDate.getFullYear, JSDate.getMonth. symmetry. apply MakeDay_civil. }
  assert (startOfMonth tz now
          = first * JSDate.msPerDay - JSDate.offsetOf tz (first * JSDate.msPerDay)) as Hs0
    by done.
  specialize (Hs now (first * JSDate.msPerDay)).
  assert (first + 9 ≤ JSDate.localDay tz now) as Hday.
  { unfold JSDate.localDay, JSDate.LocalTime. rewrite msPerDay_eq in *.
    apply Z.div_le_lower_bound; lia. }
  lia.
Qed.

Lemma foldl_fmap {A B C} (f : A → B) (g : C → B → C) (c : C) (l : list A) :
  foldl g c (f <$> l) = foldl (λ acc x, g acc (f x)) c l.
Proof. revert c. induction l as [|x l IH]; intros c; simpl; [done|]. apply IH. Qed.

(** C8, as the document states it, fails: the code takes the lesser of the
    days used and the day of the month, which is one more than the whole
    days elapsed.  At noon (UTC) of 11 April 2024, ten days and a half into
    a month of 30 days, a server at 30 a month that was created when the
    month began has used 11 days and costs 11, where the document's formula,
    with 10 days elapsed, gives 10. *)
Lemma prorated_cost_off_midnight :
  let server := Server.mk 0%nat "web" "web.sneaky.cloud" "10.0.0.1" "eu-west-1" "aws" "custom"
                  2 4 30 200 30%Q 7%nat running true 1711929600000 in
  startOfMonth 0 1712836800000 = 1711929600000
  ∧ daysInMonth 0 1712836800000 = 30
  ∧ daysUsed 0 1712836800000 server = 11
  ∧ daysPassed 0 1712836800000 = 11
  ∧ daysElapsed 0 1712836800000 = 10
  ∧ (proratedCost 0 1712836800000 server == 11)%Q
  ∧ (documented_proratedCost 0 1712836800000 server == 10)%Q.
Proof. vm_compute. done. Qed.

(** C8, amended.  The usage report lists the active servers of the
    organization, each with its prorated cost, and its usage of the month is
    their sum.  The prorated cost of a server is its monthly price, divided
    by the days of the current month, times the lesser of the days used and
    the day of the month.  The days used are the time from the later of the
    server's creation and the start of the month to now, in whole days
    rounded up.  The days of the month are the days from the first of this
    month to the first of the next, between 28 and 31.  The day of the month
    is the number of calendar days the month has begun, today included: one
    more than the days between the start of the month and now on the
    calendar, and never more than the days of the month.  With a monthly
    price of 30 in a month of 30 days, a server created at the start of the
    month costs exactly 10 when exactly 10 days have passed since. *)
Theorem prorated_cost (tz : JSDate.Zone) (now : Z) (organizationId : Id) (w : World)
    (server : Server.t) :
  JSDate.regular tz →
  let year := JSDate.getFullYear tz now in
  let month := JSDate.getMonth tz now in
  let start := Z.max (Server.createdAt server) (startOfMonth tz now) in
  let u := getUsage tz now organizationId w in
  (∀ s c, (s, c) ∈ serverUsage u ↔
          (∃ id, servers w !! id = Some s)
          ∧ Server.organizationId s = organizationId ∧ Server.isActive s = true
          ∧ c = proratedCost tz now s)
  ∧ currentMonthUsage u = foldl (λ acc p, acc + p.2)%Q 0%Q (serverUsage u)
  ∧ proratedCost tz now server
    = (Server.monthlyPrice server / inject_Z (daysInMonth tz now)
       * inject_Z (Z.min (daysUsed tz now server) (daysPassed tz now)))%Q
  ∧ (daysUsed tz now server - 1) * JSDate.msPerDay < now - start
    ≤ daysUsed tz now server * JSDate.msPerDay
  ∧ daysInMonth tz now = JSDate.MakeDay year (month + 1) 1 - JSDate.MakeDay year month 1
  ∧ 28 ≤ daysInMonth tz now ≤ 31
  ∧ daysPassed tz now
    = JSDate.localDay tz now - JSDate.localDay tz (startOfMonth tz now) + 1
  ∧ 1 ≤ daysPassed tz now ≤ daysInMonth tz now
  ∧ ((Server.monthlyPrice server == 30)%Q → daysInMonth tz now = 30 →
     Server.createdAt server = startOfMonth tz now →
     now = startOfMonth tz now + 10 * JSDate.msPerDay →
     (proratedCost tz now server == 10)%Q).
Proof.
  intros Hz year month start u.
  destruct (daysInMonth_last tz now Hz) as [_ Hdim]. fold year month in Hdim.
  destruct (daysInMonth_bounds tz now Hz) as [Hlen Hdate].
  refine (conj _ (conj _ (conj eq_refl (conj _ (conj _ (conj Hlen (conj _ (conj _ _)))))))).
  - intros s c. unfold u, getUsage, usage_of. cbn [serverUsage].
    rewrite list_elem_of_fmap. split.
    + intros (s' & [= -> ->] & Hs). apply list_elem_of_filter in Hs as [[Ho Ha] Hs].
      apply list_elem_of_fmap in Hs as ([id s''] & -> & Hs).
      apply elem_of_map_to_list in Hs. split_and!; [by exists id|done..].
    + intros ([id Hs] & Ho & Ha & ->). exists s. split; [done|].
      apply list_elem_of_filter. split; [done|].
      apply list_elem_of_fmap. exists (id, s). split; [done|].
      by apply elem_of_map_to_list.
  - unfold u, getUsage, usage_of. cbn [serverUsage currentMonthUsage].
    by rewrite foldl_fmap.
  - apply daysUsed_ceiling.
  - rewrite Hdim, (MakeDay_date year (month + 1) 0). lia.
  - rewrite localDay_startOfMonth by done. lia.
  - split; [apply daysPassed_range|done].
  - intros Hprice Hdim30 Hcreated Hnow. unfold proratedCost.
    assert (daysUsed tz now server = 10) as ->.
    { rewrite daysUsed_eq, Hcreated, Z.max_id.
      replace (- (now - startOfMonth tz now)) with (-10 * JSDate.msPerDay) by lia.
      rewrite Z.div_mul by (rewrite msPerDay_eq; lia). done. }
    pose proof (tenth_day tz now Hz Hnow) as Hten.
    rewrite Z.min_l by lia. rewrite Hdim30, Hprice. reflexivity.
Qed.

(** In November 2024, Eastern time: the month begins at 04:00 UTC of the
    first; ten days later, the clocks having been set back on the third, it
    is 23:00 of the tenth. *)
Lemma prorated_cost_witness :
  startOfMonth eastern 1731297600000 = 1730433600000
  ∧ daysPassed eastern 1731297600000 = 10
  ∧ (proratedCost eastern 1731297600000
       (Server.mk 0%nat "web" "web.sneaky.cloud" "10.0.0.1" "eu-west-1" "aws" "custom"
          2 4 30 200 30%Q 7%nat running true 1730433600000) == 10)%Q.
Proof.
  split; [by vm_compute|]. split; [by vm_compute|].
  refine (proj2 (proj2 (proj2 (proj2 (proj2 (proj2 (proj2 (proj2
            (prorated_cost eastern 1731297600000 7%nat boot
               (Server.mk 0%nat "web" "web.sneaky.cloud" "10.0.0.1" "eu-west-1" "aws"
                  "custom" 2 4 30 200 30%Q 7%nat running true 1730433600000)
               regular_eastern)))))))) _ _ _ _);
    vm_compute; reflexivity.
Defined.

Lemma foldl_Qplus_zero {A} (f : A → Q) (l : list A) (acc : Q) :
  Forall (λ x, f x == 0)%Q l → (foldl (λ acc x, acc + f x)%Q acc l == acc)%Q.
Proof.
  intros Hall. revert acc. induction Hall as [|x l Hx _ IH]; intros acc; simpl.
  - reflexivity.
  - rewrite IH, Hx. apply Qplus_0_r.
Qed.

(** C9. The divisor of the projection is the day of the month, which is
    at least 1 for every clock value: the projection never divides by zero.
    At the first instant of a month the day of the month is 1, every server
    created by then has used no day, and both the usage of the month and
    the projected cost are zero. *)
Theorem projection_never_divides_by_zero (tz now : Z) (found : list Server.t)
    (deploymentCount : nat) :
  1 ≤ daysPassed tz now ≤ 31
  ∧ ¬ (inject_Z (daysPassed tz now) == 0)%Q
  ∧ (now = startOfMonth tz now →
     Forall (λ s, Server.createdAt s ≤ now) found →
     daysPassed tz now = 1
     ∧ (currentMonthUsage (usage_of tz now found deploymentCount) == 0)%Q
     ∧ (projectedMonthlyCost (usage_of tz now found deploymentCount) == 0)%Q).
Proof.
  pose proof (daysPassed_range tz now) as Hrange.
  split; [done|]. split.
  { unfold Qeq. simpl. lia. }
  intros Hnow Hcreated.
  assert (daysPassed tz now = 1) as Hone.
  { pose proof (elapsed_in_month tz now) as He. rewrite msPerDay_eq in He.
    pose proof (Z.mod_pos_bound (now + tz) 86400000 ltac:(lia)). lia. }
  assert (foldl (λ acc s, acc + proratedCost tz now s)%Q 0%Q found == 0)%Q as Hzero.
  { apply foldl_Qplus_zero. eapply Forall_impl; [exact Hcreated|].
    intros s Hs. simpl in Hs. unfold proratedCost.
    assert (daysUsed tz now s = 0) as ->.
    { rewrite daysUsed_eq. rewrite Z.max_r by lia.
      replace (- (now - startOfMonth tz now)) with 0 by lia. done. }
    rewrite Hone. simpl. apply Qmult_0_r. }
  split; [done|]. split; [exact Hzero|].
  unfold usage_of. simpl. rewrite Hzero. unfold Qdiv. by rewrite !Qmult_0_l.
Qed.

Lemma projection_never_divides_by_zero_witness :
  (projectedMonthlyCost
     (usage_of 0 1711929600000
        [Server.mk 0%nat "web" "web.sneaky.cloud" "10.0.0.1" "eu-west-1" "aws" "t3.micro"
           2 1 20 100 8.50%Q 7%nat running true 1700000000000] 0%nat) == 0)%Q.
Proof.
  destruct (projection_never_divides_by_zero 0 1711929600000
              [Server.mk 0%nat "web" "web.sneaky.cloud" "10.0.0.1" "eu-west-1" "aws" "t3.micro"
                 2 1 20 100 8.50%Q 7%nat running true 1700000000000] 0%nat)
    as (_ & _ & H).
  apply H.
  - vm_compute. reflexivity.
  - repeat constructor. simpl. lia.
Defined.

(** * What a step leaves alone *)

Lemma metricsIntervals_request_deployments now r w :
  match r with POST_deployments _ _ | POST_deployments_redeploy _ _ => True | _ => False end →
  metricsIntervals (handle now r w).2 = metricsIntervals w.
Proof.
  destruct r as [org b|org id|org id|org b|org id]; simpl; try done; intros _.
  - unfold postDeployment. destruct (negb (validDeploymentBody b)); [done|].
    destruct (findServer _ org w); [|done].
    destruct (negb _); [done|]. by case_bool_decide.
  - unfold postRedeploy, deployment_update.
    destruct (findDeployment id org w) as [d|]; [|done].
    destruct (servers w !! _); [|done].
    destruct (negb _); [done|].
    by destruct (deployments w !! Deployment.id d).
Qed.

Lemma metricsIntervals_buildStarted id fault w :
  metricsIntervals (buildStarted id fault w) = metricsIntervals w.
Proof.
  unfold buildStarted, deployment_update.
  destruct fault; [done|]. by destruct (deployments w !! id).
Qed.

Lemma metricsIntervals_buildFinished id rnd fault w :
  metricsIntervals (buildFinished id rnd fault w) = metricsIntervals w.
Proof.
  unfold buildFinished, deployment_update.
  destruct fault; [done|]. by destruct (deployments w !! id).
Qed.

Lemma metricsIntervals_collectMetrics sid now rnd fault fault' w :
  metricsIntervals (collectMetrics sid now rnd fault fault' w) = metricsIntervals w.
Proof. unfold collectMetrics. destruct fault; [done|]. simpl.
  destruct fault'; [done|]. by case_bool_decide. Qed.

(** * Requests that fail, and requests of other organizations *)

Lemma findDeployment_Some id org w d :
  findDeployment id org w = Some d →
  deployments w !! id = Some d ∧ Deployment.organizationId d = org.
Proof.
  unfold findDeployment. destruct (deployments w !! id) as [d'|]; [|done].
  case_bool_decide; [|done]. by intros [= <-].
Qed.

(** A request answered with an error leaves everything as it was: the
    store, the timers, the registry and the events sent. *)
Theorem failed_request_changes_nothing (now : Z) (r : Request) (w w' : World) (e : Thrown) :
  handle now r w = (inl e, w') → w' = w.
Proof.
  destruct r as [org b|org id|org id|org b|org id]; simpl.
  - unfold postServer. destruct (negb (validServerBody b)); [by intros [= _ <-]|].
    case_bool_decide; [by intros [= _ <-]|].
    destruct (getInstanceSpecs _ _ w) as [e'|specs]; [by intros [= _ <-]|].
    unfold provisionServer, server_update. simpl. rewrite !lookup_insert_eq. done.
  - unfold postStart. destruct (findServer id org w) as [s|]; [|by intros [= _ <-]].
    case_bool_decide; [by intros [= _ <-]|].
    unfold startServer, server_update.
    destruct (servers w !! Server.id s); [done|by intros [= _ <-]].
  - unfold postStop. destruct (findServer id org w) as [s|]; [|by intros [= _ <-]].
    case_bool_decide; [by intros [= _ <-]|].
    unfold stopServer, server_update.
    destruct (servers w !! Server.id s); [done|by intros [= _ <-]].
  - unfold postDeployment. destruct (negb (validDeploymentBody b)); [by intros [= _ <-]|].
    destruct (findServer _ org w); [|by intros [= _ <-]].
    destruct (negb _); [by intros [= _ <-]|]. by case_bool_decide; [intros [= _ <-]|].
  - unfold postRedeploy, deployment_update.
    destruct (findDeployment id org w) as [d|]; [|by intros [= _ <-]].
    destruct (servers w !! _); [|by intros [= _ <-]].
    destruct (negb _); [by intros [= _ <-]|].
    destruct (deployments w !! Deployment.id d); [done|by intros [= _ <-]].
Qed.

Lemma failed_request_changes_nothing_witness :
  let create := request 1000 (POST_servers 7%nat
                  (ServerBody.mk "web" "aws" "eu-west-1" "t3.micro" None None None)) in
  let again := POST_servers 7%nat
                 (ServerBody.mk " web " "gcp" "us-east1" "e2-micro" None None None) in
  (handle 2000 again (run [create] boot)).1 = inl (HttpError "Server name already exists" 409)
  ∧ (handle 2000 again (run [create] boot)).2 = run [create] boot.
Proof.
  intros create again. split; [by vm_compute|].
  apply (failed_request_changes_nothing 2000 again (run [create] boot) _
           (HttpError "Server name already exists" 409)).
  by vm_compute.
Defined.

(** A request changes no server and no deployment of another organization,
    nor the collection task of such a server, and no request touches the
    samples in the store. *)
Theorem tenant_isolation (es : list Event) (now : Z) (r : Request) (id : Id) :
  let w := run es boot in
  let w' := (handle now r w).2 in
  (∀ s, servers w !! id = Some s → Server.organizationId s ≠ requester r →
        servers w' !! id = Some s ∧ metricsIntervals w' !! id = metricsIntervals w !! id)
  ∧ (∀ d, deployments w !! id = Some d → Deployment.organizationId d ≠ requester r →
          deployments w' !! id = Some d)
  ∧ serverMetrics w' = serverMetrics w.
Proof.
  intros w w'. assert (wf w) as Hw by apply wf_run, wf_boot. clearbody w.
  split; [|split]; [| |apply serverMetrics_request].
  - intros s Hs Horg. unfold w'. clear w'.
    destruct r as [org b|org id'|org id'|org b|org id']; simpl in *.
    + unfold postServer. destruct (negb (validServerBody b)); [done|].
      case_bool_decide; [done|].
      destruct (getInstanceSpecs _ _ w) as [e'|specs]; [done|].
      unfold provisionServer, server_update. simpl. rewrite !lookup_insert_eq. simpl.
      rewrite insert_insert_eq. split; [|done].
      rewrite lookup_insert_ne; [done|]. intros <-. by rewrite fresh_server in Hs.
    + unfold postStart. destruct (findServer id' org w) as [s'|] eqn:E; [|done].
      apply findServer_Some in E as (E & Eorg & _).
      case_bool_decide; [done|].
      destruct (wf_servers w Hw _ _ E) as [-> _].
      unfold startServer, server_update. rewrite E. cbn [snd].
      assert (id ≠ id') as Hne by (intros ->; congruence).
      change (servers (emit ?e ?x)) with (servers x).
      change (metricsIntervals (emit ?e ?x)) with (metricsIntervals x).
      rewrite servers_startMetricsCollection, registry_startMetricsCollection.
      rewrite decide_False by done. simpl. by rewrite lookup_insert_ne.
    + unfold postStop. destruct (findServer id' org w) as [s'|] eqn:E; [|done].
      apply findServer_Some in E as (E & Eorg & _).
      case_bool_decide; [done|].
      destruct (wf_servers w Hw _ _ E) as [-> _].
      unfold stopServer, server_update. rewrite E. cbn [snd].
      assert (id ≠ id') as Hne by (intros ->; congruence).
      change (servers (emit ?e ?x)) with (servers x).
      change (metricsIntervals (emit ?e ?x)) with (metricsIntervals x).
      rewrite servers_stopMetricsCollection, registry_stopMetricsCollection.
      rewrite decide_False by done. simpl. by rewrite lookup_insert_ne.
    + pose proof (metricsIntervals_request_deployments now (POST_deployments org b) w I)
        as Hm.
      simpl in Hm. by rewrite servers_postDeployment, Hm.
    + pose proof (metricsIntervals_request_deployments now
                    (POST_deployments_redeploy org id') w I) as Hm.
      simpl in Hm. by rewrite servers_postRedeploy, Hm.
  - intros d Hd Horg. unfold w'. clear w'.
    destruct r as [org b|org id'|org id'|org b|org id']; simpl in *.
    + unfold postServer. destruct (negb (validServerBody b)); [done|].
      case_bool_decide; [done|].
      destruct (getInstanceSpecs _ _ w) as [e'|specs]; [done|].
      unfold provisionServer, server_update. simpl. by rewrite !lookup_insert_eq.
    + unfold postStart. destruct (findServer id' org w) as [s'|]; [|done].
      case_bool_decide; [done|].
      unfold startServer, server_update. destruct (servers w !! Server.id s'); [|done].
      cbn [snd]. change (deployments (emit ?e ?x)) with (deployments x).
      unfold startMetricsCollection, stopMetricsCollection. simpl.
      by destruct (metricsIntervals w !! Server.id s').
    + unfold postStop. destruct (findServer id' org w) as [s'|]; [|done].
      case_bool_decide; [done|].
      unfold stopServer, server_update. destruct (servers w !! Server.id s'); [|done].
      cbn [snd]. change (deployments (emit ?e ?x)) with (deployments x).
      unfold stopMetricsCollection. simpl.
      by destruct (metricsIntervals w !! Server.id s').
    + unfold postDeployment. destruct (negb (validDeploymentBody b)); [done|].
      destruct (findServer _ org w); [|done].
      destruct (negb _); [done|]. case_bool_decide; [done|]. simpl.
      rewrite lookup_insert_ne; [done|]. intros <-.
      destruct (wf_deployments w Hw _ _ Hd). lia.
    + unfold postRedeploy, deployment_update.
      destruct (findDeployment id' org w) as [d'|] eqn:E; [|done].
      apply findDeployment_Some in E as [E Eorg].
      destruct (servers w !! _); [|done].
      destruct (negb _); [done|].
      destruct (wf_deployments w Hw _ _ E) as [-> _]. rewrite E. simpl.
      rewrite lookup_insert_ne; [done|]. intros <-. congruence.
Qed.

(** * The deployment pipeline *)

Lemma pipeline_inv_boot : pipeline_inv boot.
Proof. split; simpl; intros *; by rewrite lookup_empty. Qed.

(** Steps that leave deployments and timers alone. *)
Lemma pipeline_inv_frame w w' :
  deployments w' = deployments w → timeouts w' = timeouts w →
  pipeline_inv w → pipeline_inv w'.
Proof.
  intros Hd Ht [H1 H2 H3]. unfold deployment_status_of in *.
  split; rewrite ?Hd, ?Ht; unfold deployment_status_of; rewrite ?Hd; eauto.
Qed.

(** No timer is pending. *)
Lemma pipeline_inv_idle w : timeouts w = ∅ → pipeline_inv w.
Proof. intros Ht. split; intros *; by rewrite Ht, lookup_empty. Qed.

(** A spent timer. *)
Lemma pipeline_inv_delete h w :
  pipeline_inv w → pipeline_inv (set_timeouts (delete h (timeouts w)) w).
Proof.
  intros [H1 H2 H3]. split; simpl; unfold deployment_status_of in *; simpl.
  - intros h' id [_ Hh]%lookup_delete_Some. eauto.
  - intros h' id [_ Hh]%lookup_delete_Some. eauto.
  - intros h1 h2 k k' id [_ Hh]%lookup_delete_Some [_ Hh']%lookup_delete_Some. eauto.
Qed.

(** A timer that is not of the pipeline. *)
Lemma pipeline_inv_provisioning_timer sid w :
  wf w → pipeline_inv w → pipeline_inv (setTimeout (provisioning sid) w).
Proof.
  intros Hw [H1 H2 H3].
  destruct (wf_handles w Hw (nextHandle w)) as [_ Hfresh]; [lia|].
  split; simpl; unfold deployment_status_of in *; simpl.
  - intros h id [[_ ?]|[_ Hh]]%lookup_insert_Some; [done|eauto].
  - intros h id [[_ ?]|[_ Hh]]%lookup_insert_Some; [done|eauto].
  - intros h1 h2 k k' id [[_ <-]|[_ Hh]]%lookup_insert_Some; [done|].
    intros [[_ <-]|[_ Hh']]%lookup_insert_Some; [done|]. eauto.
Qed.

Lemma timeouts_stopMetricsCollection sid w :
  timeouts (stopMetricsCollection sid w) = timeouts w.
Proof. unfold stopMetricsCollection. by destruct (metricsIntervals w !! sid). Qed.

Lemma timeouts_startMetricsCollection sid w :
  timeouts (startMetricsCollection sid w) = timeouts w.
Proof. unfold startMetricsCollection. simpl. apply timeouts_stopMetricsCollection. Qed.

Lemma deployments_stopMetricsCollection sid w :
  deployments (stopMetricsCollection sid w) = deployments w.
Proof. unfold stopMetricsCollection. by destruct (metricsIntervals w !! sid). Qed.

Lemma deployments_startMetricsCollection sid w :
  deployments (startMetricsCollection sid w) = deployments w.
Proof. unfold startMetricsCollection. simpl. apply deployments_stopMetricsCollection. Qed.

(** The provisioning callback leaves the deployments alone, and the timers
    too unless it ends the process. *)
Lemma pipeline_frame_provisioned sid rnd fault fault' w :
  deployments (provisioned sid rnd fault fault' w) = deployments w
  ∧ (timeouts (provisioned sid rnd fault fault' w) = timeouts w
     ∨ timeouts (provisioned sid rnd fault fault' w) = ∅).
Proof.
  unfold provisioned, server_update.
  destruct (servers w !! sid); [|destruct fault, fault'; by auto].
  destruct fault; [destruct fault'; by auto|].
  change (deployments (emit ?e ?x)) with (deployments x).
  change (timeouts (emit ?e ?x)) with (timeouts x).
  rewrite deployments_startMetricsCollection, timeouts_startMetricsCollection. by auto.
Qed.

Lemma pipeline_frame_postStart org id w :
  deployments (postStart org id w).2 = deployments w
  ∧ timeouts (postStart org id w).2 = timeouts w.
Proof.
  unfold postStart. destruct (findServer id org w) as [s|]; [|done].
  case_bool_decide; [done|].
  unfold startServer, server_update. destruct (servers w !! Server.id s); [|done].
  cbn [snd]. change (deployments (emit ?e ?x)) with (deployments x).
  change (timeouts (emit ?e ?x)) with (timeouts x).
  by rewrite deployments_startMetricsCollection, timeouts_startMetricsCollection.
Qed.

Lemma pipeline_frame_postStop org id w :
  deployments (postStop org id w).2 = deployments w
  ∧ timeouts (postStop org id w).2 = timeouts w.
Proof.
  unfold postStop. destruct (findServer id org w) as [s|]; [|done].
  case_bool_decide; [done|].
  unfold stopServer, server_update. destruct (servers w !! Server.id s); [|done].
  cbn [snd]. change (deployments (emit ?e ?x)) with (deployments x).
  change (timeouts (emit ?e ?x)) with (timeouts x).
  by rewrite deployments_stopMetricsCollection, timeouts_stopMetricsCollection.
Qed.

(** A deployment with no pending callback may take any status. *)
Lemma pipeline_inv_update id d d' w :
  deployments w !! id = Some d →
  (∀ h, timeouts w !! h = Some (build_start id) →
        Deployment.status d' = d_pending ∨ Deployment.status d' = d_building) →
  (∀ h, timeouts w !! h = Some (build_finish id) → Deployment.status d' = d_building) →
  pipeline_inv w → pipeline_inv (set_deployments (<[id := d']> (deployments w)) w).
Proof.
  intros Hd Hs Hf [H1 H2 H3]. split; simpl; unfold deployment_status_of in *; simpl.
  - intros h id' Hh. destruct (decide (id' = id)) as [->|Hne].
    + rewrite lookup_insert_eq. simpl. destruct (Hs h Hh) as [->| ->]; auto.
    + rewrite lookup_insert_ne by done. eauto.
  - intros h id' Hh. destruct (decide (id' = id)) as [->|Hne].
    + rewrite lookup_insert_eq. simpl. by rewrite (Hf h Hh).
    + rewrite lookup_insert_ne by done. eauto.
  - eauto.
Qed.

Lemma pipeline_inv_postServer org now b w :
  wf w → pipeline_inv w → pipeline_inv (postServer org now b w).2.
Proof.
  intros Hw H. unfold postServer.
  destruct (negb (validServerBody b)); [done|].
  case_bool_decide; [done|].
  destruct (getInstanceSpecs _ _ w) as [e|specs]; [done|].
  unfold provisionServer, server_update. simpl. rewrite !lookup_insert_eq. simpl.
  match goal with |- pipeline_inv (setTimeout ?k ?w1) =>
    apply (pipeline_inv_provisioning_timer _ w1)
  end.
  - match goal with |- wf ?w1 =>
      assert (wf w1) as Hw1; [|exact Hw1]
    end.
    eapply (wf_server_update (nextId w) (Server.with_status pending)); [done|done| |].
    + apply (wf_insert_server
               (Server.mk (nextId w) (trim (ServerBody.name b))
                  (slug (trim (ServerBody.name b)) +:+ ".sneaky.cloud") "0.0.0.0"
                  (trim (ServerBody.region b)) (ServerBody.provider b)
                  (trim (ServerBody.instanceType b))
                  (or_default (ServerBody.cpu b) (InstanceSpecs.cpu specs))
                  (or_default (ServerBody.memory b) (InstanceSpecs.memory specs))
                  (or_default (ServerBody.storage b) (InstanceSpecs.storage specs))
                  (InstanceSpecs.bandwidth specs) (InstanceSpecs.monthlyPrice specs)
                  org pending true now) w); done.
    + unfold server_update. simpl. by rewrite lookup_insert_eq.
  - by apply (pipeline_inv_frame w).
Qed.

Lemma fresh_deployment w : wf w → deployments w !! nextId w = None.
Proof.
  intros Hw. destruct (deployments w !! nextId w) as [d|] eqn:E; [|done].
  destruct (wf_deployments w Hw _ _ E). lia.
Qed.

(** A pending callback of the pipeline is about a deployment in the store. *)
Lemma callback_deployment_exists w h k id :
  pipeline_inv w → timeouts w !! h = Some k → deployment_of k = Some id →
  is_Some (deployments w !! id).
Proof.
  intros [H1 H2 _] Hh Hk. destruct k as [sid|id'|id']; simplify_eq/=.
  - destruct (H1 h id Hh) as [H|H]; unfold deployment_status_of in H;
      by destruct (deployments w !! id).
  - specialize (H2 h id Hh). unfold deployment_status_of in H2.
    by destruct (deployments w !! id).
Qed.

(** A first or second stage set for a deployment that has no callback. *)
Lemma pipeline_inv_add k id w :
  wf w → deployment_of k = Some id →
  (∀ h k', timeouts w !! h = Some k' → deployment_of k' ≠ Some id) →
  deployment_status_of id w
  = Some (match k with build_finish _ => d_building | _ => d_pending end) →
  pipeline_inv w → pipeline_inv (setTimeout k w).
Proof.
  intros Hw Hk Hnone Hst [H1 H2 H3].
  split; simpl; unfold deployment_status_of in *; simpl.
  - intros h id' [[_ ->]|[_ Hh]]%lookup_insert_Some; [|eauto].
    simpl in Hk. injection Hk as ->. by left.
  - intros h id' [[_ ->]|[_ Hh]]%lookup_insert_Some; [|eauto].
    simpl in Hk. by injection Hk as ->.
  - intros h1 h2 k1 k2 id' [[<- <-]|[Hn1 Hh1]]%lookup_insert_Some
      [[<- <-]|[Hn2 Hh2]]%lookup_insert_Some Hk1 Hk2; try done.
    + destruct (Hnone h2 k2 Hh2). congruence.
    + destruct (Hnone h1 k1 Hh1). congruence.
    + eauto.
Qed.

Lemma pipeline_inv_emit e w : pipeline_inv w → pipeline_inv (emit e w).
Proof. by apply pipeline_inv_frame. Qed.

Lemma pipeline_inv_next_id w :
  pipeline_inv w → pipeline_inv (set_nextId (S (nextId w)) w).
Proof. by apply pipeline_inv_frame. Qed.

Lemma pipeline_inv_insert id d w :
  deployments w !! id = None →
  pipeline_inv w → pipeline_inv (set_deployments (<[id := d]> (deployments w)) w).
Proof.
  intros Hnone H. pose proof H as [H1 H2 H3].
  split; simpl; unfold deployment_status_of in *; simpl.
  - intros h id' Hh. rewrite lookup_insert_ne; [eauto|]. intros <-.
    destruct (callback_deployment_exists w h _ id H Hh eq_refl). congruence.
  - intros h id' Hh. rewrite lookup_insert_ne; [eauto|]. intros <-.
    destruct (callback_deployment_exists w h _ id H Hh eq_refl). congruence.
  - eauto.
Qed.

Lemma pipeline_inv_postDeployment org now b w :
  wf w → pipeline_inv w → pipeline_inv (postDeployment org now b w).2.
Proof.
  intros Hw H. unfold postDeployment.
  destruct (negb (validDeploymentBody b)); [done|].
  destruct (findServer _ org w) as [server|]; [|done].
  destruct (negb _); [done|]. case_bool_decide; [done|]. cbn [snd].
  match goal with |- pipeline_inv (setTimeout ?k (set_nextId ?n (set_deployments (<[?i := ?d]> _) w))) =>
    set (d0 := d)
  end.
  apply (pipeline_inv_add _ (nextId w)); [|done| | |].
  - by apply (wf_insert_deployment d0 w).
  - intros h k' Hh Hk. simpl in Hh.
    destruct (callback_deployment_exists w h k' _ H Hh Hk) as [d Hd].
    by rewrite fresh_deployment in Hd.
  - unfold deployment_status_of. simpl. by rewrite lookup_insert_eq.
  - apply (pipeline_inv_frame (set_deployments (<[nextId w := d0]> (deployments w)) w));
      [done|done|].
    apply pipeline_inv_insert; [by apply fresh_deployment|done].
Qed.

Lemma pipeline_inv_postRedeploy org id now w :
  wf w → pipeline_inv w → pipeline_inv (postRedeploy org id now w).2.
Proof.
  intros Hw H. unfold postRedeploy, deployment_update.
  destruct (findDeployment id org w) as [d|] eqn:E; [|done].
  apply findDeployment_Some in E as [E _].
  destruct (servers w !! _); [|done].
  destruct (negb _); [done|].
  destruct (wf_deployments w Hw _ _ E) as [-> _]. rewrite E. cbn [snd].
  eapply pipeline_inv_update; [done| | |done]; intros; simpl; auto.
Qed.

(** Once a callback is spent its deployment has none. *)
Lemma spent_callback_alone h k id w :
  pipeline_inv w → timeouts w !! h = Some k → deployment_of k = Some id →
  ∀ h' k', delete h (timeouts w) !! h' = Some k' → deployment_of k' ≠ Some id.
Proof.
  intros [_ _ H3] Hh Hk h' k' [Hne Hh']%lookup_delete_Some Hk'.
  apply Hne. by eapply H3.
Qed.

Lemma pipeline_inv_run_task h k rnd fault fault' w :
  wf w → pipeline_inv w → timeouts w !! h = Some k →
  pipeline_inv (run_task k rnd fault fault' (set_timeouts (delete h (timeouts w)) w)).
Proof.
  intros Hw H Hh.
  pose proof (pipeline_inv_delete h w H) as H0.
  pose proof (wf_drop_timeout h w Hw) as Hw0.
  set (w0 := set_timeouts (delete h (timeouts w)) w) in *.
  destruct k as [sid|id|id]; simpl.
  - destruct (pipeline_frame_provisioned sid rnd fault fault' w0) as [Hd [Ht|Ht]].
    + by apply (pipeline_inv_frame w0).
    + by apply pipeline_inv_idle.
  - pose proof (spent_callback_alone h _ id w H Hh eq_refl) as Halone.
    unfold buildStarted, deployment_update.
    destruct fault; [done|]. destruct (deployments w0 !! id) as [d|] eqn:Hd; [|done].
    apply (pipeline_inv_add _ id); [|done| | |].
    + match goal with |- wf (set_deployments (<[_ := ?data d]> _) w0) =>
        apply (wf_deployment_update id (λ d, data d) w0); [done|done|]
      end.
      unfold deployment_update. by rewrite Hd.
    + exact Halone.
    + unfold deployment_status_of. simpl. by rewrite lookup_insert_eq.
    + eapply pipeline_inv_update; [done| | |done].
      * intros h' Hh'. by destruct (Halone h' _ Hh').
      * intros h' Hh'. by destruct (Halone h' _ Hh').
  - pose proof (spent_callback_alone h _ id w H Hh eq_refl) as Halone.
    unfold buildFinished, deployment_update.
    destruct fault; [done|]. destruct (deployments w0 !! id) as [d|] eqn:Hd; [|done].
    apply pipeline_inv_emit.
    eapply pipeline_inv_update; [done| | |done].
    + intros h' Hh'. by destruct (Halone h' _ Hh').
    + intros h' Hh'. by destruct (Halone h' _ Hh').
Qed.

Lemma pipeline_inv_step e w : wf w → pipeline_inv w → pipeline_inv (step e w).
Proof.
  intros Hw H. destruct e as [now r|h rnd fault|h now rnd fault|h rnd|h now rnd|now|];
    cbn [step].
  - destruct r as [org b|org id|org id|org b|org id]; simpl.
    + by apply pipeline_inv_postServer.
    + destruct (pipeline_frame_postStart org id w). by apply (pipeline_inv_frame w).
    + destruct (pipeline_frame_postStop org id w). by apply (pipeline_inv_frame w).
    + by apply pipeline_inv_postDeployment.
    + by apply pipeline_inv_postRedeploy.
  - destruct (timeouts w !! h) as [k|] eqn:Hh; [|done].
    by apply pipeline_inv_run_task.
  - destruct (intervals w !! h) as [sid|]; [|done].
    destruct (pipeline_frame_collectMetrics sid now rnd fault false w).
    by apply (pipeline_inv_frame w).
  - destruct (timeouts w !! h) as [k|] eqn:Hh; [|done].
    by apply pipeline_inv_run_task.
  - destruct (intervals w !! h) as [sid|]; [|done].
    destruct (pipeline_frame_collectMetrics sid now rnd false true w).
    by apply (pipeline_inv_frame w).
  - by apply (pipeline_inv_frame w).
  - by apply pipeline_inv_idle.
Qed.

Lemma pipeline_inv_run es : pipeline_inv (run es boot).
Proof.
  induction es as [|e es IH] using rev_ind; [apply pipeline_inv_boot|].
  rewrite run_snoc. apply pipeline_inv_step; [apply wf_run, wf_boot|done].
Qed.

Lemma deployments_postServer org now b w :
  deployments (postServer org now b w).2 = deployments w.
Proof.
  unfold postServer. destruct (negb (validServerBody b)); [done|].
  case_bool_decide; [done|].
  destruct (getInstanceSpecs _ _ w); [done|].
  unfold provisionServer, server_update. simpl. by rewrite !lookup_insert_eq.
Qed.

(** In every history a deployment appears as [pending], never disappears,
    and changes status only along the pipeline: from [pending] to
    [building], from [building] to [deployed] or [failed], and from
    [deployed] or [failed] back to [building]. *)
Theorem pipeline_edges_followed (es : list Event) (e : Event) (id : Id) :
  let w := run es boot in
  deployment_status_of id (step e w) = deployment_status_of id w
  ∨ (deployment_status_of id w = None
     ∧ deployment_status_of id (step e w) = Some d_pending)
  ∨ (∃ a b, deployment_status_of id w = Some a
            ∧ deployment_status_of id (step e w) = Some b
            ∧ pipeline_edge a b = true).
Proof.
  intros w. assert (wf w) as Hw by apply wf_run, wf_boot.
  pose proof (pipeline_inv_run es) as Hinv. fold w in Hinv. clearbody w.
  unfold deployment_status_of.
  assert (∀ h rnd fault fault',
            let w' := match timeouts w !! h with
                      | Some k => run_task k rnd fault fault'
                                    (set_timeouts (delete h (timeouts w)) w)
                      | None => w
                      end in
            Deployment.status <$> deployments w' !! id = Deployment.status <$> deployments w !! id
            ∨ (Deployment.status <$> deployments w !! id = None
               ∧ Deployment.status <$> deployments w' !! id = Some d_pending)
            ∨ (∃ a b, Deployment.status <$> deployments w !! id = Some a
                      ∧ Deployment.status <$> deployments w' !! id = Some b
                      ∧ pipeline_edge a b = true)) as Htask.
  { intros h rnd fault fault'. simpl.
    destruct (timeouts w !! h) as [k|] eqn:Hh; [|by left].
    destruct k as [sid|id'|id']; simpl.
    + left. by destruct (pipeline_frame_provisioned sid rnd fault fault'
                           (set_timeouts (delete h (timeouts w)) w)) as [-> _].
    + unfold buildStarted, deployment_update. destruct fault; [by left|]. simpl.
      destruct (deployments w !! id') as [d|] eqn:Hd; [|by left]. simpl.
      destruct (decide (id = id')) as [->|Hne]; [|left; by rewrite lookup_insert_ne].
      rewrite lookup_insert_eq, Hd. simpl.
      destruct (pending_start w Hinv h id' Hh) as [Hst|Hst];
        unfold deployment_status_of in Hst; rewrite Hd in Hst; injection Hst as Hst.
      * right. right. exists d_pending, d_building. by rewrite Hst.
      * left. by rewrite Hst.
    + unfold buildFinished, deployment_update. destruct fault; [by left|]. simpl.
      destruct (deployments w !! id') as [d|] eqn:Hd; [|by left]. simpl.
      destruct (decide (id = id')) as [->|Hne]; [|left; by rewrite lookup_insert_ne].
      rewrite lookup_insert_eq, Hd. simpl.
      pose proof (pending_finish w Hinv h id' Hh) as Hst.
      unfold deployment_status_of in Hst. rewrite Hd in Hst. injection Hst as Hst.
      right. right. rewrite Hst. eexists _, _. split; [done|]. split; [done|].
      by destruct (negb _). }
  destruct e as [now r|h rnd fault|h now rnd fault|h rnd|h now rnd|now|]; cbn [step];
    [|apply Htask| |apply Htask| |by left|by left].
  - destruct r as [org b|org id'|org id'|org b|org id']; simpl.
    + left. by rewrite deployments_postServer.
    + left. by destruct (pipeline_frame_postStart org id' w) as [-> _].
    + left. by destruct (pipeline_frame_postStop org id' w) as [-> _].
    + unfold postDeployment. destruct (negb (validDeploymentBody b)); [by left|].
      destruct (findServer _ org w); [|by left].
      destruct (negb _); [by left|]. case_bool_decide; [by left|]. simpl.
      destruct (decide (id = nextId w)) as [->|Hne].
      * right. left. by rewrite lookup_insert_eq, fresh_deployment.
      * left. by rewrite lookup_insert_ne.
    + unfold postRedeploy, deployment_update.
      destruct (findDeployment id' org w) as [d|] eqn:E; [|by left].
      apply findDeployment_Some in E as [E _].
      destruct (servers w !! _); [|by left].
      destruct (negb _); [by left|].
      destruct (wf_deployments w Hw _ _ E) as [-> _]. rewrite E. simpl.
      destruct (decide (id = id')) as [->|Hne]; [|left; by rewrite lookup_insert_ne].
      rewrite lookup_insert_eq, E. simpl.
      destruct (Deployment.status d) eqn:Hst; [right; right; by eexists _, _|by left|
        right; right; by eexists _, _|right; right; by eexists _, _].
  - destruct (intervals w !! h) as [sid|]; [|by left].
    left. by destruct (pipeline_frame_collectMetrics sid now rnd fault false w) as [-> _].
  - destruct (intervals w !! h) as [sid|]; [|by left].
    left. by destruct (pipeline_frame_collectMetrics sid now rnd false true w) as [-> _].
Qed.

(** A deployment is created only on a server of the organization that is
    [running]; it is then [pending], and when its two delayed stages run
    and their updates go through it is [building] after the first, and after
    the second [deployed] if the random draw is above 0.2 and [failed]
    otherwise. *)
Theorem deployment_created_resolves (es : list Event) (organizationId : Id) (now : Z)
    (b : DeploymentBody.t) (r : Response) (w' : World) (rnd1 rnd2 : nat → Q) :
  let w := run es boot in
  postDeployment organizationId now b w = (inr r, w') →
  let first := timeout (nextHandle w) rnd1 false in
  let second := timeout (S (nextHandle w)) rnd2 false in
  (∃ server, findServer (DeploymentBody.serverId b) organizationId w = Some server
             ∧ Server.status server = running)
  ∧ statusCode r = 201
  ∧ deployment_status_of (nextId w) w' = Some d_pending
  ∧ deployment_status_of (nextId w) (run [first] w') = Some d_building
  ∧ deployment_status_of (nextId w) (run [first; second] w')
    = Some (if Qle_bool (rnd2 0%nat) 0.2 then d_failed else d_deployed).
Proof.
  intros w Hpost first second. assert (wf w) as Hw by apply wf_run, wf_boot.
  clearbody w. unfold postDeployment in Hpost.
  destruct (negb (validDeploymentBody b)); [done|].
  destruct (findServer _ organizationId w) as [server|] eqn:Hfind; [|done].
  destruct (bool_decide (Server.status server = running)) eqn:Hrun; [|done].
  apply bool_decide_eq_true in Hrun. simpl in Hpost.
  case_bool_decide; [done|]. injection Hpost as <- <-.
  split; [by exists server|]. split; [done|].
  unfold deployment_status_of. split; [by simpl; rewrite lookup_insert_eq|].
  destruct (wf_handles w Hw (nextHandle w)) as [_ Hfresh]; [lia|].
  assert (S (nextHandle w) ≠ nextHandle w) as Hne by lia.
  unfold run, first, second. simpl.
  rewrite !lookup_insert_eq. simpl.
  unfold buildStarted, deployment_update. simpl. rewrite !lookup_insert_eq. simpl.
  split; [by rewrite lookup_insert_eq|].
  rewrite lookup_insert_eq. simpl.
  unfold buildFinished, deployment_update. simpl. rewrite !lookup_insert_eq. simpl.
  rewrite lookup_insert_eq. simpl. by destruct (Qle_bool (rnd2 0%nat) 0.2).
Qed.

Lemma deployment_created_resolves_witness :
  let half (_ : nat) := 0.5%Q in
  let fifth (_ : nat) := 0.2%Q in
  let w := run [request 1000 (POST_servers 7%nat
                  (ServerBody.mk "web" "aws" "eu-west-1" "t3.micro" None None None));
                timeout 0%nat half false] boot in
  let b := DeploymentBody.mk "app" "https://github.com/acme/app" None 0%nat None None None in
  deployment_status_of 1%nat
    (run [timeout 2%nat half false; timeout 3%nat half false] (postDeployment 7%nat 40000 b w).2)
  = Some d_deployed
  ∧ deployment_status_of 1%nat
      (run [timeout 2%nat half false; timeout 3%nat fifth false]
         (postDeployment 7%nat 40000 b w).2)
    = Some d_failed.
Proof.
  intros half fifth w b. split.
  - refine (proj2 (proj2 (proj2 (proj2
              (deployment_created_resolves
                 [request 1000 (POST_servers 7%nat
                    (ServerBody.mk "web" "aws" "eu-west-1" "t3.micro" None None None));
                  timeout 0%nat half false]
                 7%nat 40000 b (mkResponse 201 "Deployment created successfully")
                 (postDeployment 7%nat 40000 b w).2 half half _))))).
    vm_compute. reflexivity.
  - refine (proj2 (proj2 (proj2 (proj2
              (deployment_created_resolves
                 [request 1000 (POST_servers 7%nat
                    (ServerBody.mk "web" "aws" "eu-west-1" "t3.micro" None None None));
                  timeout 0%nat half false]
                 7%nat 40000 b (mkResponse 201 "Deployment created successfully")
                 (postDeployment 7%nat 40000 b w).2 half fifth _))))).
    vm_compute. reflexivity.
Defined.

(** * The tables across a step, and names that are taken *)

Lemma key_insert_same {A B} (key : A → B) (m : gmap Id A) id x x' id' :
  m !! id = Some x → key x' = key x →
  key <$> <[id := x']> m !! id' = key <$> m !! id'.
Proof.
  intros Hx Hk. destruct (decide (id = id')) as [->|Hne].
  - rewrite lookup_insert_eq, Hx. simpl. by rewrite Hk.
  - by rewrite lookup_insert_ne.
Qed.

(** A step changes no field of a server but its status and its address,
    or it is a creation request that adds one server. *)
Lemma server_table_step {B} (key : Server.t → B) e w :
  (∀ st ip s, key (Server.with_ipAddress ip (Server.with_status st s)) = key s) →
  wf w →
  (∀ id, key <$> servers (step e w) !! id = key <$> servers w !! id)
  ∨ ∃ now org b s, e = request now (POST_servers org b)
      ∧ servers w !! nextId w = None
      ∧ servers (step e w) = <[nextId w := s]> (servers w).
Proof.
  intros Hkey Hw.
  destruct (effect_step e w Hw) as [H|id s st ip H1 H2 H3|s Hf H2 Hc].
  { left. intros id. by rewrite H. }
  { left. intros id'. rewrite H2. by apply (key_insert_same key _ id s). }
  assert (∀ h rnd fault fault',
            servers (match timeouts w !! h with
                     | Some k => run_task k rnd fault fault'
                                   (set_timeouts (delete h (timeouts w)) w)
                     | None => w
                     end) !! nextId w = None) as Htask.
  { intros h rnd fault fault'.
    destruct (timeouts w !! h) as [k|]; [|simpl; by rewrite Hf].
    destruct k as [sid|id'|id']; simpl.
    + unfold provisioned, server_update. simpl.
      destruct (servers w !! sid) as [s'|] eqn:E;
        [|destruct fault, fault'; simpl; by rewrite Hf].
      destruct (wf_servers w Hw _ _ E) as [_ Hlt].
      destruct fault; simpl.
      * destruct fault'; simpl; [by rewrite Hf|].
        rewrite lookup_insert_ne by lia. by rewrite Hf.
      * rewrite ?servers_startMetricsCollection, ?servers_stopMetricsCollection. simpl.
        rewrite lookup_insert_ne by lia. by rewrite Hf.
    + rewrite servers_buildStarted. simpl. by rewrite Hf.
    + rewrite servers_buildFinished. simpl. by rewrite Hf. }
  assert (∀ h now rnd fault fault',
            servers (match intervals w !! h with
                     | Some sid => collectMetrics sid now rnd fault fault' w
                     | None => w
                     end) !! nextId w = None) as Htick.
  { intros h now rnd fault fault'. destruct (intervals w !! h); [|simpl; by rewrite Hf].
    rewrite servers_collectMetrics. by rewrite Hf. }
  apply (f_equal (λ m, m !! nextId w)) in Hc as Hnew. rewrite lookup_insert_eq in Hnew.
  destruct e as [now r|h rnd fault|h now rnd fault|h rnd|h now rnd|now|]; cbn [step] in Hnew;
    [|by rewrite Htask in Hnew|by rewrite Htick in Hnew|by rewrite Htask in Hnew
     |by rewrite Htick in Hnew|simpl in Hnew; congruence|simpl in Hnew; congruence].
  clear Hnew Htask Htick.
  - destruct r as [org b|org id'|org id'|org b|org id'].
    + right. by exists now, org, b, s.
    + exfalso. simpl in Hc. apply (f_equal (λ m, m !! nextId w)) in Hc.
      rewrite lookup_insert_eq in Hc. revert Hc. unfold postStart.
      destruct (findServer id' org w) as [s'|] eqn:E; [|simpl; by rewrite Hf].
      apply findServer_Some in E as (E & _ & _). case_bool_decide; [simpl; by rewrite Hf|].
      destruct (wf_servers w Hw _ _ E) as [-> Hlt].
      unfold startServer, server_update. rewrite E. cbn [snd].
      change (servers (emit ?e ?x)) with (servers x).
      rewrite servers_startMetricsCollection. simpl.
      rewrite lookup_insert_ne by lia. by rewrite Hf.
    + exfalso. simpl in Hc. apply (f_equal (λ m, m !! nextId w)) in Hc.
      rewrite lookup_insert_eq in Hc. revert Hc. unfold postStop.
      destruct (findServer id' org w) as [s'|] eqn:E; [|simpl; by rewrite Hf].
      apply findServer_Some in E as (E & _ & _). case_bool_decide; [simpl; by rewrite Hf|].
      destruct (wf_servers w Hw _ _ E) as [-> Hlt].
      unfold stopServer, server_update. rewrite E. cbn [snd].
      change (servers (emit ?e ?x)) with (servers x).
      rewrite servers_stopMetricsCollection. simpl.
      rewrite lookup_insert_ne by lia. by rewrite Hf.
    + exfalso. simpl in Hc. rewrite servers_postDeployment in Hc.
      apply (f_equal (λ m, m !! nextId w)) in Hc.
      by rewrite lookup_insert_eq, Hf in Hc.
    + exfalso. simpl in Hc. rewrite servers_postRedeploy in Hc.
      apply (f_equal (λ m, m !! nextId w)) in Hc.
      by rewrite lookup_insert_eq, Hf in Hc.
Qed.

(** The server a creation request adds. *)
Lemma postServer_created org now b w s :
  servers w !! nextId w = None →
  servers (postServer org now b w).2 !! nextId w = Some s →
  validServerBody b = true
  ∧ Server.name s = trim (ServerBody.name b)
  ∧ Server.hostname s = slug (trim (ServerBody.name b)) +:+ ".sneaky.cloud"
  ∧ Server.organizationId s = org
  ∧ Server.isActive s = true
  ∧ ¬ map_Exists (λ _ s', Server.name s' = trim (ServerBody.name b)
                          ∧ Server.organizationId s' = org
                          ∧ Server.isActive s' = true) (servers w).
Proof.
  intros Hfresh. unfold postServer.
  destruct (validServerBody b); [|simpl; by rewrite Hfresh]. simpl.
  case_bool_decide as Hex; [simpl; by rewrite Hfresh|].
  destruct (getInstanceSpecs _ _ w); [simpl; by rewrite Hfresh|].
  unfold provisionServer, server_update. simpl. rewrite !lookup_insert_eq. simpl.
  rewrite insert_insert_eq, lookup_insert_eq. by intros [= <-].
Qed.

(** A step changes no field of a deployment but its status, its logs and
    its time of update, or it is a creation request that adds one
    deployment, on a running server of the organization. *)
Lemma deployment_table_step {B} (key : Deployment.t → B) e w :
  (∀ st logs d, key (Deployment.with_status_logs st logs d) = key d) →
  (∀ now d, key (Deployment.with_updatedAt now d) = key d) →
  wf w →
  (∀ id, key <$> deployments (step e w) !! id = key <$> deployments w !! id)
  ∨ ∃ now org b server d, e = request now (POST_deployments org b)
      ∧ validDeploymentBody b = true
      ∧ findServer (DeploymentBody.serverId b) org w = Some server
      ∧ Deployment.name d = trim (DeploymentBody.name b)
      ∧ Deployment.organizationId d = org
      ∧ Deployment.serverId d = DeploymentBody.serverId b
      ∧ Deployment.deployUrl d
        = "https://" +:+ slug (trim (DeploymentBody.name b)) +:+ "." +:+ Server.hostname server
      ∧ ¬ map_Exists (λ _ d', Deployment.name d' = trim (DeploymentBody.name b)
                              ∧ Deployment.organizationId d' = org) (deployments w)
      ∧ deployments (step e w) = <[nextId w := d]> (deployments w).
Proof.
  intros Hkey1 Hkey2 Hw.
  assert (∀ h rnd fault fault' id,
            key <$> deployments (match timeouts w !! h with
                                 | Some k => run_task k rnd fault fault'
                                               (set_timeouts (delete h (timeouts w)) w)
                                 | None => w
                                 end) !! id = key <$> deployments w !! id) as Htask.
  { intros h rnd fault fault' id. destruct (timeouts w !! h) as [k|]; [|done].
    destruct k as [sid|id'|id']; simpl.
    + by destruct (pipeline_frame_provisioned sid rnd fault fault'
                     (set_timeouts (delete h (timeouts w)) w)) as [-> _].
    + unfold buildStarted, deployment_update. destruct fault; [done|]. simpl.
      destruct (deployments w !! id') as [d|] eqn:Hd; [|done]. simpl.
      by apply (key_insert_same key _ id' d).
    + unfold buildFinished, deployment_update. destruct fault; [done|]. simpl.
      destruct (deployments w !! id') as [d|] eqn:Hd; [|done]. simpl.
      by apply (key_insert_same key _ id' d). }
  assert (∀ h now rnd fault fault' id,
            key <$> deployments (match intervals w !! h with
                                 | Some sid => collectMetrics sid now rnd fault fault' w
                                 | None => w
                                 end) !! id = key <$> deployments w !! id) as Htick.
  { intros h now rnd fault fault' id. destruct (intervals w !! h) as [sid|]; [|done].
    by destruct (pipeline_frame_collectMetrics sid now rnd fault fault' w) as [-> _]. }
  destruct e as [now r|h rnd fault|h now rnd fault|h rnd|h now rnd|now|]; cbn [step];
    [|left; intros id; apply Htask|left; intros id; apply Htick|left; intros id; apply Htask
     |left; intros id; apply Htick|by left|by left].
  - destruct r as [org b|org id'|org id'|org b|org id']; simpl.
    + left. intros id. by rewrite deployments_postServer.
    + left. intros id. by destruct (pipeline_frame_postStart org id' w) as [-> _].
    + left. intros id. by destruct (pipeline_frame_postStop org id' w) as [-> _].
    + unfold postDeployment. destruct (validDeploymentBody b) eqn:Hv; [|by left]. simpl.
      destruct (findServer _ org w) as [server|] eqn:Hfind; [|by left].
      destruct (negb _); [by left|]. case_bool_decide as Hex; [by left|]. simpl.
      right. eexists now, org, b, server, _. split_and!; [..|reflexivity]; done.
    + left. intros id. unfold postRedeploy, deployment_update.
      destruct (findDeployment id' org w) as [d|] eqn:E; [|done].
      apply findDeployment_Some in E as [E _].
      destruct (servers w !! _); [|done].
      destruct (negb _); [done|].
      destruct (wf_deployments w Hw _ _ E) as [-> _]. rewrite E. simpl.
      apply (key_insert_same key _ id' d); [done|]. by rewrite Hkey2, Hkey1.
Qed.

(** A creation request whose name, trimmed, is the name of an active server
    of the organization is answered with 409 and writes nothing; so is the
    request for a deployment whose name is that of a deployment of the
    organization.  The handler reads the store for this check before it
    inserts, in a call of its own: the rows spoken of are those the check
    reads. *)
Theorem taken_name_refused (organizationId : Id) (now : Z) (w : World) :
  (∀ b id s,
      asciiServerBody b = true → validServerBody b = true →
      servers w !! id = Some s →
      Server.name s = trim (ServerBody.name b) →
      Server.organizationId s = organizationId → Server.isActive s = true →
      postServer organizationId now b w
      = (inl (HttpError "Server name already exists" 409), w))
  ∧ (∀ b server id d,
      asciiDeploymentBody b = true → validDeploymentBody b = true →
      findServer (DeploymentBody.serverId b) organizationId w = Some server →
      Server.status server = running →
      deployments w !! id = Some d →
      Deployment.name d = trim (DeploymentBody.name b) →
      Deployment.organizationId d = organizationId →
      postDeployment organizationId now b w
      = (inl (HttpError "Deployment name already exists" 409), w)).
Proof.
  split.
  - intros b id s _ Hv Hs Hn Ho Ha. unfold postServer. rewrite Hv. simpl.
    rewrite bool_decide_eq_true_2; [done|]. by exists id, s.
  - intros b server id d _ Hv Hfind Hrun Hd Hn Ho. unfold postDeployment.
    rewrite Hv, Hfind. simpl. rewrite (bool_decide_eq_true_2 _ Hrun). simpl.
    rewrite bool_decide_eq_true_2; [done|]. by exists id, d.
Qed.

(** * Delayed completions *)

(** A pending callback was pending before the step, or the step has set it
    for a record that it leaves in the store. *)
Lemma timeouts_step_from e w h k :
  wf w → timeouts (step e w) !! h = Some k →
  timeouts w !! h = Some k ∨ record_status k (step e w) ≠ None.
Proof.
  intros Hw.
  assert (∀ h' rnd fault fault',
            let w' := match timeouts w !! h' with
                      | Some k' => run_task k' rnd fault fault'
                                     (set_timeouts (delete h' (timeouts w)) w)
                      | None => w
                      end in
            timeouts w' !! h = Some k →
            timeouts w !! h = Some k ∨ record_status k w' ≠ None) as Htask.
  { intros h' rnd fault fault'. simpl.
    destruct (timeouts w !! h') as [k'|] eqn:Hh'; [|by left].
    set (w0 := set_timeouts (delete h' (timeouts w)) w).
    assert (∀ k0, timeouts w0 !! h = Some k0 → timeouts w !! h = Some k0) as Hdrop.
    { intros k0 Hk0. simpl in Hk0. by apply lookup_delete_Some in Hk0 as [_ ?]. }
    destruct k' as [sid|id|id]; cbn [run_task].
    - destruct (pipeline_frame_provisioned sid rnd fault fault' w0) as [_ [-> | ->]].
      + intros Hh. left. by apply Hdrop.
      + by rewrite lookup_empty.
    - unfold buildStarted, deployment_update.
      destruct fault; [intros Hh; left; by apply Hdrop|].
      destruct (deployments w0 !! id) as [d|] eqn:Hd; [|intros Hh; left; by apply Hdrop].
      simpl. intros [[_ <-]|[_ Hh]]%lookup_insert_Some.
      + right. simpl. by rewrite lookup_insert_eq.
      + left. by apply lookup_delete_Some in Hh as [_ ?].
    - unfold buildFinished, deployment_update.
      destruct fault; [intros Hh; left; by apply Hdrop|].
      destruct (deployments w0 !! id) as [d|] eqn:Hd; intros Hh; left; by apply Hdrop. }
  assert (∀ h' now rnd fault fault',
            timeouts (match intervals w !! h' with
                      | Some sid => collectMetrics sid now rnd fault fault' w
                      | None => w
                      end) !! h = Some k → timeouts w !! h = Some k) as Htick.
  { intros h' now rnd fault fault'. destruct (intervals w !! h') as [sid|]; [|done].
    by destruct (pipeline_frame_collectMetrics sid now rnd fault fault' w) as [_ ->]. }
  destruct e as [now r|h' rnd fault|h' now rnd fault|h' rnd|h' now rnd|now|]; cbn [step];
    [|apply Htask|left; by eapply Htick|apply Htask|left; by eapply Htick|by left
     |simpl; by rewrite lookup_empty].
  destruct r as [org b|org id|org id|org b|org id]; simpl.
  - unfold postServer. destruct (negb (validServerBody b)); [by left|].
    case_bool_decide; [by left|].
    destruct (getInstanceSpecs _ _ w); [by left|].
    unfold provisionServer, server_update. simpl. rewrite !lookup_insert_eq. simpl.
    intros [[_ <-]|[_ Hh]]%lookup_insert_Some; [right|by left].
    simpl. by rewrite lookup_insert_eq.
  - destruct (pipeline_frame_postStart org id w) as [_ ->]. by left.
  - destruct (pipeline_frame_postStop org id w) as [_ ->]. by left.
  - unfold postDeployment. destruct (negb (validDeploymentBody b)); [by left|].
    destruct (findServer _ org w); [|by left].
    destruct (negb _); [by left|]. case_bool_decide; [by left|]. simpl.
    intros [[_ <-]|[_ Hh]]%lookup_insert_Some; [right|by left].
    simpl. by rewrite lookup_insert_eq.
  - rewrite postRedeploy_schedules_nothing. by left.
Qed.

(** No step removes a record. *)
Lemma record_kept e w k :
  wf w → record_status k w ≠ None → record_status k (step e w) ≠ None.
Proof.
  intros Hw Hk. destruct k as [id|id|id]; simpl in *.
  - destruct (server_table_step (λ _, ()) e w ltac:(done) Hw)
      as [Hsame|(now & org & b & s & _ & Hf & ->)].
    + specialize (Hsame id). destruct (servers w !! id); [|done].
      by destruct (servers (step e w) !! id).
    + destruct (decide (id = nextId w)) as [->|Hne]; [by rewrite lookup_insert_eq|].
      by rewrite lookup_insert_ne.
  - destruct (deployment_table_step (λ _, ()) e w ltac:(done) ltac:(done) Hw)
      as [Hsame|(now & org & b & server & d & _ & _ & _ & _ & _ & _ & _ & _ & ->)].
    + specialize (Hsame id). destruct (deployments w !! id); [|done].
      by destruct (deployments (step e w) !! id).
    + destruct (decide (id = nextId w)) as [->|Hne]; [by rewrite lookup_insert_eq|].
      by rewrite lookup_insert_ne.
  - destruct (deployment_table_step (λ _, ()) e w ltac:(done) ltac:(done) Hw)
      as [Hsame|(now & org & b & server & d & _ & _ & _ & _ & _ & _ & _ & _ & ->)].
    + specialize (Hsame id). destruct (deployments w !! id); [|done].
      by destruct (deployments (step e w) !! id).
    + destruct (decide (id = nextId w)) as [->|Hne]; [by rewrite lookup_insert_eq|].
      by rewrite lookup_insert_ne.
Qed.

Lemma pending_records_run es : pending_records (run es boot).
Proof.
  induction es as [|e es IH] using rev_ind; [intros h k Hh; simpl in Hh; by rewrite lookup_empty in Hh|].
  rewrite run_snoc. intros h k Hh.
  assert (wf (run es boot)) as Hw by apply wf_run, wf_boot.
  destruct (timeouts_step_from e _ h k Hw Hh) as [Hold|Hnew]; [|done].
  apply record_kept; [done|]. by apply (IH h k).
Qed.

(** C5, as the document states it, fails: a server stopped while it was
    being provisioned is set to [running] when the provisioning callback
    fires, although its status has changed since the callback was set. *)
Lemma stale_provisioning_applied :
  let create := request 1000 (POST_servers 7%nat
                  (ServerBody.mk "web" "aws" "eu-west-1" "t3.micro" None None None)) in
  let stop := request 2000 (POST_servers_stop 7%nat 0%nat) in
  let w1 := run [create] boot in
  let w2 := run [stop] w1 in
  timeouts w1 !! 0%nat = Some (provisioning 0%nat)
  ∧ timeouts w2 !! 0%nat = Some (provisioning 0%nat)
  ∧ generation (provisioning 0%nat) [stop] w1 = 1%nat
  ∧ status_of 0%nat w2 = Some stopped
  ∧ status_of 0%nat (step (timeout 0%nat (λ _, 0.5%Q) false) w2) = Some running.
Proof. vm_compute. done. Qed.

(** Hence the rule of the document does not hold of the code. *)
Lemma stale_completions_not_discarded :
  ¬ stale_completions_discarded.
Proof.
  intros H.
  specialize (H [request 1000 (POST_servers 7%nat
                   (ServerBody.mk "web" "aws" "eu-west-1" "t3.micro" None None None))]
                [request 2000 (POST_servers_stop 7%nat 0%nat)]
                0%nat (provisioning 0%nat) (λ _, 0.5%Q) false).
  destruct H as [H _]; [by vm_compute | by vm_compute | left; by vm_compute |].
  apply (f_equal (λ m : gmap Id Server.t, Server.status <$> m !! 0%nat)) in H.
  vm_compute in H. discriminate H.
Qed.

Lemma record_status_drop_timeout k x w :
  record_status k (set_timeouts x w) = record_status k w.
Proof. by destruct k. Qed.

(** C5, amended.  There is no generation check: a delayed callback whose
    record exists and whose update goes through is applied whatever happened
    to the record since the callback was set, leaving the server [running],
    or the deployment [building], [deployed] or [failed].  In every world
    the process can be in the record of a pending callback exists, for no
    code deletes a server or a deployment.  Were the record gone, the
    callback would change no server, no deployment and no sample and send
    nothing: its update raises; a stage of a deployment logs that, and all
    that is left of it is that the timer is spent; the [catch] block of the
    provisioning callback raises in turn, which ends the process. *)
Theorem completion_applied_unless_gone (es : list Event) (w : World) (h : Handle) (k : Task)
    (rnd : nat → Q) (fault : bool) :
  timeouts w !! h = Some k →
  (w = run es boot → record_status k w ≠ None)
  ∧ (record_status k w ≠ None → fault = false →
     record_status k (step (timeout h rnd fault) w) = Some (completion k rnd))
  ∧ (record_status k w = None →
     let w' := step (timeout h rnd fault) w in
     servers w' = servers w ∧ deployments w' = deployments w
     ∧ serverMetrics w' = serverMetrics w ∧ emitted w' = emitted w
     ∧ w' = match k with
            | provisioning _ => exited w
            | build_start _ | build_finish _ => set_timeouts (delete h (timeouts w)) w
            end).
Proof.
  intros Hk. split; [|split].
  - intros ->. by apply (pending_records_run es h k).
  - intros Hsome ->. simpl. rewrite Hk.
    set (w1 := set_timeouts (delete h (timeouts w)) w).
    rewrite <- (record_status_drop_timeout k (delete h (timeouts w))) in Hsome.
    fold w1 in Hsome. clearbody w1.
    destruct k as [id|id|id]; simpl in *.
    + unfold provisioned, server_update. destruct (servers w1 !! id) as [s|]; [|done].
      simpl. rewrite ?servers_startMetricsCollection, ?servers_stopMetricsCollection. simpl.
      by rewrite lookup_insert_eq.
    + unfold buildStarted, deployment_update.
      destruct (deployments w1 !! id) as [d|]; [|done].
      simpl. by rewrite lookup_insert_eq.
    + unfold buildFinished, deployment_update.
      destruct (deployments w1 !! id) as [d|]; [|done].
      simpl. rewrite lookup_insert_eq. simpl. by destruct (Qle_bool (rnd 0%nat) 0.2).
  - intros Hnone. cbn [step]. rewrite Hk.
    destruct k as [id|id|id]; cbn [run_task]; simpl in Hnone.
    + unfold provisioned, server_update. cbn [servers set_timeouts].
      destruct (servers w !! id); [done|]. by destruct fault.
    + unfold buildStarted, deployment_update. cbn [deployments set_timeouts].
      destruct (deployments w !! id); [done|]. by destruct fault.
    + unfold buildFinished, deployment_update. cbn [deployments set_timeouts].
      destruct (deployments w !! id); [done|]. by destruct fault.
Qed.

(** A server is stopped while it is being provisioned: its callback is
    pending still, its record exists, and the callback sets it to
    [running].  The world [gone], in which the record of the callback is
    missing, is none the process can be in. *)
Lemma completion_applied_unless_gone_witness :
  let create := request 1000 (POST_servers 7%nat
                  (ServerBody.mk "web" "aws" "eu-west-1" "t3.micro" None None None)) in
  let stop := request 2000 (POST_servers_stop 7%nat 0%nat) in
  let moved := run [create; stop] boot in
  let gone := set_servers ∅ (run [create] boot) in
  (status_of 0%nat moved = Some stopped
   ∧ record_status (provisioning 0%nat) moved ≠ None
   ∧ record_status (provisioning 0%nat) (step (timeout 0%nat (λ _, 0.5%Q) false) moved)
     = Some (inl running))
  ∧ step (timeout 0%nat (λ _, 0.5%Q) false) gone = exited gone.
Proof.
  intros create stop moved gone.
  pose proof (completion_applied_unless_gone [create; stop] moved 0%nat
                (provisioning 0%nat) (λ _, 0.5%Q) false ltac:(by vm_compute))
    as (Hthere & Happlied & _).
  pose proof (completion_applied_unless_gone [] gone 0%nat
                (provisioning 0%nat) (λ _, 0.5%Q) false ltac:(by vm_compute))
    as (_ & _ & Hgone).
  split.
  - split; [by vm_compute|]. split; [by apply Hthere|]. apply Happlied; [by apply Hthere|done].
  - apply Hgone. by vm_compute.
Defined.

(** * Events and logs *)

Lemma emitted_stopMetricsCollection sid w : emitted (stopMetricsCollection sid w) = emitted w.
Proof. unfold stopMetricsCollection. by destruct (metricsIntervals w !! sid). Qed.

Lemma emitted_startMetricsCollection sid w : emitted (startMetricsCollection sid w) = emitted w.
Proof. unfold startMetricsCollection. simpl. apply emitted_stopMetricsCollection. Qed.

(** What a step sends. *)
Lemma emitted_step e w :
  ∃ new, emitted (step e w) = emitted w ++ new ∧ Forall announced new.
Proof.
  assert (∀ w', emitted w' = emitted w → ∃ new, emitted w' = emitted w ++ new
                                                ∧ Forall announced new) as Hsame.
  { intros w' ->. exists []. by rewrite app_nil_r. }
  assert (∀ h rnd fault fault',
            ∃ new, emitted (match timeouts w !! h with
                            | Some k => run_task k rnd fault fault'
                                          (set_timeouts (delete h (timeouts w)) w)
                            | None => w
                            end) = emitted w ++ new ∧ Forall announced new) as Htask.
  { intros h rnd fault fault'.
    destruct (timeouts w !! h) as [k|]; [|by apply Hsame].
    destruct k as [sid|id|id]; simpl.
    + unfold provisioned, server_update. simpl.
      destruct (servers w !! sid) as [s|]; [|destruct fault, fault'; by apply Hsame].
      destruct fault; [destruct fault'; by apply Hsame|].
      eexists [_]. split.
      * cbn [emit emitted]. by rewrite emitted_startMetricsCollection.
      * apply Forall_singleton. by left.
    + apply Hsame. unfold buildStarted, deployment_update. destruct fault; [done|]. simpl.
      by destruct (deployments w !! id).
    + unfold buildFinished, deployment_update. destruct fault; [by apply Hsame|]. simpl.
      destruct (deployments w !! id); [|by apply Hsame].
      eexists [_]. split; [done|]. apply Forall_singleton.
      simpl. destruct (negb _); [by left|by right]. }
  assert (∀ h now rnd fault fault',
            ∃ new, emitted (match intervals w !! h with
                            | Some sid => collectMetrics sid now rnd fault fault' w
                            | None => w
                            end) = emitted w ++ new ∧ Forall announced new) as Htick.
  { intros h now rnd fault fault'.
    destruct (intervals w !! h) as [sid|]; [|by apply Hsame].
    unfold collectMetrics. destruct fault; [by apply Hsame|]. simpl.
    eexists [_]. split; [destruct fault'; [done|by case_bool_decide]|].
    by apply Forall_singleton. }
  destruct e as [now r|h rnd fault|h now rnd fault|h rnd|h now rnd|now|]; cbn [step];
    [|apply Htask|apply Htick|apply Htask|apply Htick|by apply Hsame|by apply Hsame].
  - destruct r as [org b|org id|org id|org b|org id]; simpl.
    + apply Hsame. unfold postServer. destruct (negb (validServerBody b)); [done|].
      case_bool_decide; [done|]. destruct (getInstanceSpecs _ _ w); [done|].
      unfold provisionServer, server_update. simpl. by rewrite !lookup_insert_eq.
    + unfold postStart. destruct (findServer id org w) as [s|]; [|by apply Hsame].
      case_bool_decide; [by apply Hsame|].
      unfold startServer, server_update.
      destruct (servers w !! Server.id s); [|by apply Hsame]. cbn [snd].
      eexists [_]. split.
      * cbn [emit emitted]. by rewrite emitted_startMetricsCollection.
      * apply Forall_singleton. by left.
    + unfold postStop. destruct (findServer id org w) as [s|]; [|by apply Hsame].
      case_bool_decide; [by apply Hsame|].
      unfold stopServer, server_update.
      destruct (servers w !! Server.id s); [|by apply Hsame]. cbn [snd].
      eexists [_]. split.
      * cbn [emit emitted]. by rewrite emitted_stopMetricsCollection.
      * apply Forall_singleton. by right.
    + apply Hsame. unfold postDeployment. destruct (negb (validDeploymentBody b)); [done|].
      destruct (findServer _ org w); [|done].
      destruct (negb _); [done|]. by case_bool_decide.
    + apply Hsame. unfold postRedeploy, deployment_update.
      destruct (findDeployment id org w) as [d|]; [|done].
      destruct (servers w !! _); [|done].
      destruct (negb _); [done|].
      by destruct (deployments w !! Deployment.id d).
Qed.

(** In every history the events sent say that a server is running or
    stopped, carry a sample, or say that a build is deployed or failed:
    that a server failed, or that a deployment is building, is never sent.
    What has been sent stays: a step only adds to it. *)
Theorem only_these_are_announced (es : list Event) (e : Event) :
  let w := run es boot in
  Forall announced (emitted w) ∧ emitted w `prefix_of` emitted (step e w).
Proof.
  intros w. split.
  - subst w. induction es as [|e' es IH] using rev_ind; [constructor|].
    rewrite run_snoc. destruct (emitted_step e' (run es boot)) as (new & -> & Hnew).
    by apply Forall_app.
  - destruct (emitted_step e w) as (new & -> & _). by exists new.
Qed.

Lemma logs_of_status_boot : map_Forall (λ _, logs_of_status) (deployments boot).
Proof. apply map_Forall_empty. Qed.

Lemma logs_of_status_step e w :
  map_Forall (λ _, logs_of_status) (deployments w) →
  map_Forall (λ _, logs_of_status) (deployments (step e w)).
Proof.
  intros H.
  assert (∀ h rnd fault fault',
            map_Forall (λ _, logs_of_status)
              (deployments (match timeouts w !! h with
                            | Some k => run_task k rnd fault fault'
                                          (set_timeouts (delete h (timeouts w)) w)
                            | None => w
                            end))) as Htask.
  { intros h rnd fault fault'. destruct (timeouts w !! h) as [k|]; [|done].
    destruct k as [sid|id|id]; simpl.
    + by destruct (pipeline_frame_provisioned sid rnd fault fault'
                     (set_timeouts (delete h (timeouts w)) w)) as [-> _].
    + unfold buildStarted, deployment_update. destruct fault; [done|]. simpl.
      destruct (deployments w !! id); [|done]. simpl.
      apply map_Forall_insert_2; [|done]. by left.
    + unfold buildFinished, deployment_update. destruct fault; [done|]. simpl.
      destruct (deployments w !! id); [|done]. simpl.
      apply map_Forall_insert_2; [|done]. unfold logs_of_status. simpl.
      by destruct (negb _). }
  assert (∀ h now rnd fault fault',
            map_Forall (λ _, logs_of_status)
              (deployments (match intervals w !! h with
                            | Some sid => collectMetrics sid now rnd fault fault' w
                            | None => w
                            end))) as Htick.
  { intros h now rnd fault fault'. destruct (intervals w !! h) as [sid|]; [|done].
    by destruct (pipeline_frame_collectMetrics sid now rnd fault fault' w) as [-> _]. }
  destruct e as [now r|h rnd fault|h now rnd fault|h rnd|h now rnd|now|]; cbn [step];
    [|apply Htask|apply Htick|apply Htask|apply Htick|done|done].
  - destruct r as [org b|org id|org id|org b|org id]; simpl.
    + by rewrite deployments_postServer.
    + by destruct (pipeline_frame_postStart org id w) as [-> _].
    + by destruct (pipeline_frame_postStop org id w) as [-> _].
    + unfold postDeployment. destruct (negb (validDeploymentBody b)); [done|].
      destruct (findServer _ org w); [|done].
      destruct (negb _); [done|]. case_bool_decide; [done|]. simpl.
      by apply map_Forall_insert_2.
    + unfold postRedeploy, deployment_update.
      destruct (findDeployment id org w) as [d|]; [|done].
      destruct (servers w !! _); [|done].
      destruct (negb _); [done|].
      destruct (deployments w !! Deployment.id d); [|done]. simpl.
      apply map_Forall_insert_2; [|done]. by right.
Qed.

(** In every history the build logs of a deployment are those of its
    status: none while it is pending, the text of a build or of a redeploy
    that has started while it is building, and the text of the outcome when
    it is deployed or failed. *)
Theorem logs_match_status (es : list Event) :
  map_Forall (λ _, logs_of_status) (deployments (run es boot)).
Proof.
  induction es as [|e es IH] using rev_ind; [apply logs_of_status_boot|].
  rewrite run_snoc. by apply logs_of_status_step.
Qed.

(** * The collector follows the lifecycle *)



















(** * Where samples come from *)

(** An entry of the registry was there before the step, or the step has
    set the server [running]. *)
Lemma registry_step e w id h :
  wf w → metricsIntervals (step e w) !! id = Some h →
  metricsIntervals w !! id = Some h ∨ status_of id (step e w) = Some running.
Proof.
  intros Hw.
  assert (∀ h' rnd fault fault',
            let w' := match timeouts w !! h' with
                      | Some k => run_task k rnd fault fault'
                                    (set_timeouts (delete h' (timeouts w)) w)
                      | None => w
                      end in
            metricsIntervals w' !! id = Some h →
            metricsIntervals w !! id = Some h ∨ status_of id w' = Some running) as Htask.
  { intros h' rnd fault fault'. simpl.
    destruct (timeouts w !! h') as [k|]; [|by left].
    destruct k as [sid|id'|id']; cbn [run_task].
    - unfold provisioned, server_update. cbn [servers set_timeouts].
      destruct (servers w !! sid) as [s|] eqn:Hs.
      + destruct fault; [destruct fault'; simpl; [by rewrite lookup_empty|by left]|].
        change (metricsIntervals (emit ?e ?x)) with (metricsIntervals x).
        rewrite registry_startMetricsCollection. case_decide as Hid; [|by left].
        subst. intros _. right. unfold status_of.
        change (servers (emit ?e ?x)) with (servers x).
        rewrite servers_startMetricsCollection. simpl. by rewrite lookup_insert_eq.
      + destruct fault, fault'; simpl; by rewrite lookup_empty.
    - rewrite metricsIntervals_buildStarted. by left.
    - rewrite metricsIntervals_buildFinished. by left. }
  destruct e as [now r|h' rnd fault|h' now rnd fault|h' rnd|h' now rnd|now|]; cbn [step];
    [|apply Htask| |apply Htask| |by left|simpl; by rewrite lookup_empty].
  - destruct r as [org b|org id'|org id'|org b|org id']; [simpl|simpl|simpl|..].
    + unfold postServer. destruct (negb (validServerBody b)); [by left|].
      case_bool_decide; [by left|].
      destruct (getInstanceSpecs _ _ w); [by left|].
      unfold provisionServer, server_update. simpl. rewrite !lookup_insert_eq. by left.
    + unfold postStart. destruct (findServer id' org w) as [s|] eqn:E; [|by left].
      apply findServer_Some in E as (E & _ & _).
      case_bool_decide; [by left|].
      destruct (wf_servers w Hw _ _ E) as [-> _].
      unfold startServer, server_update. rewrite E. cbn [snd].
      change (metricsIntervals (emit ?e ?x)) with (metricsIntervals x).
      rewrite registry_startMetricsCollection. case_decide as Hid; [|by left].
      subst. intros _. right. unfold status_of.
      change (servers (emit ?e ?x)) with (servers x).
      rewrite servers_startMetricsCollection. simpl. by rewrite lookup_insert_eq.
    + unfold postStop. destruct (findServer id' org w) as [s|] eqn:E; [|by left].
      case_bool_decide; [by left|].
      unfold stopServer, server_update.
      destruct (servers w !! Server.id s); [|by left]. cbn [snd].
      change (metricsIntervals (emit ?e ?x)) with (metricsIntervals x).
      rewrite registry_stopMetricsCollection. case_decide; [done|by left].
    + rewrite (metricsIntervals_request_deployments now (POST_deployments org b)) by done.
      by left.
    + rewrite (metricsIntervals_request_deployments now (POST_deployments_redeploy org id'))
        by done.
      by left.
  - destruct (intervals w !! h') as [sid|]; [|by left].
    rewrite metricsIntervals_collectMetrics. by left.
  - destruct (intervals w !! h') as [sid|]; [|by left].
    rewrite metricsIntervals_collectMetrics. by left.
Qed.

Lemma was_running_snoc id es e : was_running id es → was_running id (es ++ [e]).
Proof. intros (es1 & es2 & -> & H). exists es1, (es2 ++ [e]). by rewrite app_assoc. Qed.

(** A server with a collection task has been [running]. *)
Lemma registry_was_running es id h :
  metricsIntervals (run es boot) !! id = Some h → was_running id es.
Proof.
  induction es as [|e es IH] using rev_ind; [simpl; by rewrite lookup_empty|].
  rewrite run_snoc. intros Hh.
  destruct (registry_step e _ id h ltac:(apply wf_run, wf_boot) Hh) as [Hold|Hnew].
  - by apply was_running_snoc, IH.
  - exists (es ++ [e]), []. by rewrite app_nil_r, run_snoc.
Qed.

Lemma insertion_was_running es e m :
  insertion e (run es boot) = Some m → was_running (ServerMetric.serverId m) es.
Proof.
  intros Hi. assert (wf (run es boot)) as Hw by apply wf_run, wf_boot.
  destruct e as [now r|h rnd fault|h now rnd fault|h rnd|h now rnd|now|];
    cbn [insertion] in Hi; try done.
  - destruct fault; [done|].
    destruct (intervals (run es boot) !! h) as [sid|] eqn:Hh; [|done].
    injection Hi as <-. apply (wf_registry _ Hw) in Hh.
    by apply (registry_was_running es sid h).
  - destruct (intervals (run es boot) !! h) as [sid|] eqn:Hh; [|done].
    injection Hi as <-. apply (wf_registry _ Hw) in Hh.
    by apply (registry_was_running es sid h).
Qed.

Lemma samples_were_running es m :
  m ∈ serverMetrics (run es boot) → was_running (ServerMetric.serverId m) es.
Proof.
  induction es as [|e es IH] using rev_ind; [simpl; by intros ?%elem_of_nil|].
  rewrite run_snoc. intros Hm.
  assert (wf (run es boot)) as Hw by apply wf_run, wf_boot.
  destruct (insertion e (run es boot)) as [m'|] eqn:Hi.
  - pose proof (insertion_was_running es e m' Hi) as Hm'.
    apply serverMetrics_insertion in Hi as [_ Hstep]. rewrite Hstep in Hm.
    assert (m ∈ serverMetrics (run es boot) ++ [m']) as Hin.
    { destruct (undisturbed e); [|done]. unfold deleteMany in Hm.
      by apply list_elem_of_filter in Hm as [_ ?]. }
    apply was_running_snoc. apply elem_of_app in Hin as [?|Heq]; [by apply IH|].
    by apply list_elem_of_singleton in Heq as ->.
  - apply was_running_snoc, IH.
    destruct e as [now r|h rnd fault|h now rnd fault|h rnd|h now rnd|now|];
      try (rewrite serverMetrics_no_insertion in Hm; done).
    simpl in Hm. by apply list_elem_of_filter in Hm as [_ ?].
Qed.

(** Samples come from the collector only, and the collector samples only
    servers that have been set [running]: in every history, each sample of
    the store is of a server that was [running] at some point of the
    history, and so is each sample a tick inserts.  A step that is not a
    tick leaves the samples as they are, unless it is the purge of the
    database monitor, which deletes those of more than seven days ago and
    no other.  The insert of a tick is a call of the store that the tick
    awaits; nothing is said here of when it lands. *)
Theorem no_samples_unless_sampled (es : list Event) (e : Event) :
  let w := run es boot in
  (∀ m, m ∈ serverMetrics w → was_running (ServerMetric.serverId m) es)
  ∧ (∀ m, insertion e w = Some m → was_running (ServerMetric.serverId m) es)
  ∧ (insertion e w = None → (∀ now, e ≠ purge now) →
     serverMetrics (step e w) = serverMetrics w)
  ∧ (∀ now m, m ∈ serverMetrics (step (purge now) w) ↔
              m ∈ serverMetrics w
              ∧ (now - 7 * JSDate.msPerDay ≤ ServerMetric.timestamp m)%Z).
Proof.
  intros w. split_and!.
  - intros m. apply samples_were_running.
  - intros m. apply insertion_was_running.
  - intros Hi Hp. by apply serverMetrics_no_insertion.
  - intros now m. simpl. rewrite list_elem_of_filter, msPerDay_eq. split.
    + intros [? ?]. split; [done|lia].
    + intros [? ?]. split; [lia|done].
Qed.

(** * Start, stop and provisioning, when they go through *)

(** Start is accepted for a server of the organization that is not
    [running]: the server is then [running], has exactly one collection
    task, and the change is the last event sent.  Stop is accepted when it
    is not [stopped]: the server is then [stopped] and has no task. *)
Theorem start_stop_accepted (es : list Event) (organizationId id : Id) (server : Server.t) :
  let w := run es boot in
  findServer id organizationId w = Some server →
  (Server.status server ≠ running →
   let w' := (postStart organizationId id w).2 in
   (postStart organizationId id w).1 = inr (mkResponse 200 "Server start initiated")
   ∧ status_of id w' = Some running
   ∧ activeTasks id w' = 1%nat
   ∧ last (emitted w') = Some (server_status id running None))
  ∧ (Server.status server ≠ stopped →
     let w' := (postStop organizationId id w).2 in
     (postStop organizationId id w).1 = inr (mkResponse 200 "Server stop initiated")
     ∧ status_of id w' = Some stopped
     ∧ activeTasks id w' = 0%nat
     ∧ last (emitted w') = Some (server_status id stopped None)).
Proof.
  intros w Hfind. assert (wf w) as Hw by apply wf_run, wf_boot. clearbody w.
  pose proof (wf_postStart organizationId id w Hw) as Hw1.
  pose proof (wf_postStop organizationId id w Hw) as Hw2.
  pose proof Hfind as (Hs & _ & _)%findServer_Some.
  destruct (wf_servers w Hw _ _ Hs) as [Hid _].
  split.
  - intros Hst w'. subst w'. revert Hw1. unfold postStart. rewrite Hfind.
    rewrite bool_decide_eq_false_2 by done.
    unfold startServer, server_update. rewrite Hid, Hs. cbn [fst snd].
    intros Hw1. split; [done|].
    assert (status_of id
              (emit (server_status id running None)
                 (startMetricsCollection id
                    (set_servers (<[id:=Server.with_status running server]> (servers w)) w)))
            = Some running) as Hrun.
    { unfold status_of. change (servers (emit ?e ?x)) with (servers x).
      rewrite servers_startMetricsCollection. simpl. by rewrite lookup_insert_eq. }
    split; [done|]. split.
    + rewrite activeTasks_registry by done.
      change (metricsIntervals (emit ?e ?x)) with (metricsIntervals x).
      by rewrite registry_startMetricsCollection, decide_True.
    + simpl. by rewrite last_snoc.
  - intros Hst w'. subst w'. revert Hw2. unfold postStop. rewrite Hfind.
    rewrite bool_decide_eq_false_2 by done.
    unfold stopServer, server_update. rewrite Hid, Hs. cbn [fst snd].
    intros Hw2. split; [done|].
    assert (status_of id
              (emit (server_status id stopped None)
                 (stopMetricsCollection id
                    (set_servers (<[id:=Server.with_status stopped server]> (servers w)) w)))
            = Some stopped) as Hstop.
    { unfold status_of. change (servers (emit ?e ?x)) with (servers x).
      rewrite servers_stopMetricsCollection. simpl. by rewrite lookup_insert_eq. }
    split; [done|]. split.
    + rewrite activeTasks_registry by done.
      change (metricsIntervals (emit ?e ?x)) with (metricsIntervals x).
      by rewrite registry_stopMetricsCollection, decide_True.
    + simpl. by rewrite last_snoc.
Qed.

Lemma start_stop_accepted_witness :
  let create := request 1000 (POST_servers 7%nat
                  (ServerBody.mk "web" "aws" "eu-west-1" "t3.micro" None None None)) in
  let w := run [create; timeout 0%nat (λ _, 0.5%Q) false] boot in
  status_of 0%nat w = Some running
  ∧ status_of 0%nat (postStop 7%nat 0%nat w).2 = Some stopped
  ∧ activeTasks 0%nat (postStop 7%nat 0%nat w).2 = 0%nat.
Proof.
  intros create w. split; [by vm_compute|].
  assert (∃ server, findServer 0%nat 7%nat w = Some server ∧ Server.status server = running)
    as (server & Hf & Hst) by (eexists; split; [vm_compute; reflexivity|reflexivity]).
  destruct (start_stop_accepted [create; timeout 0%nat (λ _, 0.5%Q) false] 7%nat 0%nat
              server Hf) as [_ H].
  destruct H as (_ & H1 & H2 & _); [by rewrite Hst|]. by split.
Defined.







(** * Host names and URLs *)

Lemma slug_label (s : string) :
  string_forallb is_label_char (slug s) = true
  ∧ String.length (slug s) = String.length s.
Proof.
  induction s as [|a s [IH1 IH2]]; [done|]. simpl. rewrite IH1, IH2. split; [|done].
  rewrite andb_true_r. unfold is_label_char.
  destruct (is_lower_alnum (toLowerCase_ascii a)) eqn:E; [by rewrite E|done].
Qed.

Lemma addressed_boot : addressed boot.
Proof. split; simpl; intros *; by rewrite lookup_empty. Qed.

Lemma addressed_step e w : wf w → addressed w → addressed (step e w).
Proof.
  intros Hw [Hs Hd].
  pose proof (server_table_step server_address e w
                ltac:(done) Hw) as Hst.
  pose proof (deployment_table_step deployment_address e w
                ltac:(done) ltac:(done) Hw) as Hdt.
  assert (∀ id s, servers w !! id = Some s →
                  ∃ s', servers (step e w) !! id = Some s'
                        ∧ server_address s' = server_address s) as Hkeep.
  { intros id s Hid.
    destruct Hst as [Hk|(now & org & b & s' & -> & Hf & Hc)].
    - specialize (Hk id). rewrite Hid in Hk.
      destruct (servers (step e w) !! id) as [s'|]; [|done].
      exists s'. split; [done|]. simpl in Hk. unfold server_address in *. congruence.
    - exists s. split; [|done]. rewrite Hc. rewrite lookup_insert_ne; [done|].
      intros <-. by rewrite Hf in Hid. }
  split.
  - intros id s' Hid.
    destruct Hst as [Hk|(now & org & b & s & -> & Hf & Hc)].
    + specialize (Hk id). rewrite Hid in Hk.
      destruct (servers w !! id) as [s|] eqn:E; [|done].
      injection Hk as Hn Hh _. rewrite Hn, Hh. by eapply Hs.
    + rewrite Hc in Hid. apply lookup_insert_Some in Hid as [[_ <-]|[_ Hid]]; [|by eapply Hs].
      destruct (postServer_created org now b w s Hf) as (Hv & Hn & Hh & _).
      { simpl in Hc. rewrite Hc. apply lookup_insert_eq. }
      rewrite Hn, Hh. split; [done|].
      unfold validServerBody in Hv. rewrite !andb_true_iff in Hv.
      destruct Hv as [[[[[[Hv _] _] _] _] _] _]. by apply bool_decide_eq_true in Hv.
  - intros id d' Hid.
    destruct Hdt as [Hk|(now & org & b & server & d & -> & Hv & Hfind & Hn & Ho & Hsid
                         & Hurl & _ & Hc)].
    + specialize (Hk id). rewrite Hid in Hk.
      destruct (deployments w !! id) as [d|] eqn:E; [|done].
      injection Hk as Hn Hsid Ho Hurl.
      destruct (Hd id d E) as (Hlen & s & Hsrv & Horg & Hu).
      rewrite Hn. split; [done|].
      destruct (Hkeep _ s Hsrv) as (s' & Hs' & Hadr). injection Hadr as _ Hh Ho'.
      exists s'. rewrite Hsid, Ho, Hurl, Hh, Ho'. done.
    + rewrite Hc in Hid. apply lookup_insert_Some in Hid as [[_ <-]|[_ Hid]].
      * rewrite Hn. split.
        { unfold validDeploymentBody in Hv. rewrite !andb_true_iff in Hv.
          destruct Hv as [[[Hv _] _] _]. by apply bool_decide_eq_true in Hv. }
        apply findServer_Some in Hfind as (Hsrv & Horg & _).
        exists server. rewrite Hsid, Ho, Hurl. split; [|done].
        simpl. by rewrite servers_postDeployment.
      * destruct (Hd id d' Hid) as (Hlen & s & Hsrv & Horg & Hu). split; [done|].
        exists s. split; [|done]. simpl. by rewrite servers_postDeployment.
Qed.

Lemma addressed_run es : addressed (run es boot).
Proof.
  induction es as [|e es IH] using rev_ind; [apply addressed_boot|].
  rewrite run_snoc. apply addressed_step; [apply wf_run, wf_boot|done].
Qed.

Lemma is_ascii_cons a s :
  is_ascii (String a s) = (nat_of_ascii a <? 128)%nat && is_ascii s.
Proof. done. Qed.

Lemma is_ascii_ltrim s : is_ascii s = true → is_ascii (ltrim s) = true.
Proof.
  induction s as [|a s IH]; [done|]. rewrite is_ascii_cons. intros [Ha Hs]%andb_prop.
  cbn [ltrim]. destruct (Ascii.is_space a); [by apply IH|].
  rewrite is_ascii_cons. by rewrite Ha, Hs.
Qed.

Lemma is_ascii_rev_app s acc :
  is_ascii s = true → is_ascii acc = true → is_ascii (String.rev_app s acc) = true.
Proof.
  revert acc. induction s as [|a s IH]; intros acc Hs Hacc; [done|].
  rewrite is_ascii_cons in Hs. apply andb_prop in Hs as [Ha Hs].
  cbn [String.rev_app]. apply IH; [done|]. rewrite is_ascii_cons. by rewrite Ha, Hacc.
Qed.

Lemma is_ascii_trim s : is_ascii s = true → is_ascii (trim s) = true.
Proof.
  intros Hs. unfold trim, String.rev.
  apply is_ascii_rev_app; [|done]. apply is_ascii_ltrim.
  apply is_ascii_rev_app; [|done]. by apply is_ascii_ltrim.
Qed.

Lemma ascii_named_boot : ascii_named boot.
Proof. split; simpl; intros *; by rewrite lookup_empty. Qed.

Lemma ascii_named_step e w :
  wf w → ascii_request e = true → ascii_named w → ascii_named (step e w).
Proof.
  intros Hw He [Hs Hd]. split.
  - intros id s' Hid.
    destruct (server_table_step Server.name e w ltac:(done) Hw)
      as [Hk|(now & org & b & s & -> & Hf & Hc)].
    + specialize (Hk id). rewrite Hid in Hk.
      destruct (servers w !! id) as [s|] eqn:E; [|done].
      injection Hk as ->. by eapply Hs.
    + rewrite Hc in Hid. apply lookup_insert_Some in Hid as [[_ <-]|[_ Hid]]; [|by eapply Hs].
      destruct (postServer_created org now b w s Hf) as (_ & -> & _).
      { simpl in Hc. rewrite Hc. apply lookup_insert_eq. }
      simpl in He. unfold asciiServerBody in He. rewrite !andb_true_iff in He.
      apply is_ascii_trim. tauto.
  - intros id d' Hid.
    destruct (deployment_table_step Deployment.name e w ltac:(done) ltac:(done) Hw)
      as [Hk|(now & org & b & server & d & -> & _ & _ & Hn & _ & _ & _ & _ & Hc)].
    + specialize (Hk id). rewrite Hid in Hk.
      destruct (deployments w !! id) as [d|] eqn:E; [|done].
      injection Hk as ->. by eapply Hd.
    + rewrite Hc in Hid. apply lookup_insert_Some in Hid as [[_ <-]|[_ Hid]]; [|by eapply Hd].
      rewrite Hn. simpl in He. unfold asciiDeploymentBody in He.
      rewrite !andb_true_iff in He. apply is_ascii_trim. tauto.
Qed.

Lemma ascii_named_run es : forallb ascii_request es = true → ascii_named (run es boot).
Proof.
  induction es as [|e es IH] using rev_ind; intros Hes; [apply ascii_named_boot|].
  rewrite forallb_app in Hes. apply andb_prop in Hes as [Hes He].
  simpl in He. rewrite andb_true_r in He.
  rewrite run_snoc. apply ascii_named_step; [apply wf_run, wf_boot|done|by apply IH].
Qed.

(** In every history whose creation requests carry ASCII texts: the names
    in the store are ASCII; the host name of a server is its name in lower
    case with every character that is not a letter or a digit replaced by a
    hyphen, followed by .sneaky.cloud, and the name has 1 to 100 characters;
    a deployment belongs to a server of its own organization, and its URL is
    its name, treated the same way, under that server's host name. *)
Theorem addresses_derived_from_names (es : list Event) (id : Id) :
  let w := run es boot in
  forallb ascii_request es = true →
  (∀ s, servers w !! id = Some s →
        is_ascii (Server.name s) = true
        ∧ Server.hostname s = slug (Server.name s) +:+ ".sneaky.cloud"
        ∧ string_forallb is_label_char (slug (Server.name s)) = true
        ∧ (1 ≤ String.length (slug (Server.name s)) ≤ 100)%nat)
  ∧ (∀ d, deployments w !! id = Some d →
          is_ascii (Deployment.name d) = true
          ∧ ∃ s, servers w !! Deployment.serverId d = Some s
                 ∧ Server.organizationId s = Deployment.organizationId d
                 ∧ Deployment.deployUrl d
                   = "https://" +:+ slug (Deployment.name d) +:+ "."
                     +:+ slug (Server.name s) +:+ ".sneaky.cloud"
                 ∧ string_forallb is_label_char (slug (Deployment.name d)) = true
                 ∧ (1 ≤ String.length (slug (Deployment.name d)) ≤ 100)%nat).
Proof.
  intros w Hes. destruct (addressed_run es) as [Hs Hd]. fold w in Hs, Hd.
  destruct (ascii_named_run es Hes) as [Has Had]. fold w in Has, Had. split.
  - intros s Hid. destruct (Hs id s Hid) as [Hh Hlen].
    destruct (slug_label (Server.name s)) as [Hc Hl]. rewrite Hl.
    split; [by eapply Has|done].
  - intros d Hid. destruct (Hd id d Hid) as (Hlen & s & Hsrv & Horg & Hurl).
    destruct (Hs _ s Hsrv) as [Hh _]. split; [by eapply Had|].
    exists s. rewrite Hurl, Hh.
    destruct (slug_label (Deployment.name d)) as [Hc Hl]. by rewrite Hl.
Qed.

Lemma addresses_derived_from_names_witness :
  let es := [request 1000 (POST_servers 7%nat
               (ServerBody.mk " My Web_1 " "aws" "eu-west-1" "t3.micro" None None None))] in
  Server.name <$> servers (run es boot) !! 0%nat = Some "My Web_1"
  ∧ Server.hostname <$> servers (run es boot) !! 0%nat = Some "my-web-1.sneaky.cloud".
Proof.
  intros es.
  assert (∃ s, servers (run es boot) !! 0%nat = Some s ∧ Server.name s = "My Web_1")
    as (s & Hs & Hn) by (eexists; split; [vm_compute; reflexivity|reflexivity]).
  destruct (addresses_derived_from_names es 0%nat ltac:(by vm_compute)) as [H _].
  destruct (H s Hs) as (_ & Hh & _). rewrite Hs. simpl. rewrite Hn, Hh, Hn.
  split; [done|]. by vm_compute.
Defined.
(** * Month lengths and cost bounds *)

(** The days of the current month, as the usage report counts them, are the
    days from the first of this month to the first of the next, local time;
    they are between 28 and 31, the day of the month is never past them,
    and the day the report takes them from is in the current month. *)
Theorem daysInMonth_month_length (tz now : Z) :
  let year := JSDate.getFullYear tz now in
  let month := JSDate.getMonth tz now in
  JSDate.newDate tz year (month + 1) 1
  = startOfMonth tz now + daysInMonth tz now * JSDate.msPerDay
  ∧ 28 ≤ daysInMonth tz now ≤ 31
  ∧ 1 ≤ daysPassed tz now ≤ daysInMonth tz now
  ∧ JSDate.getMonth tz (JSDate.newDate tz year (month + 1) 0) = month
  ∧ JSDate.getFullYear tz (JSDate.newDate tz year (month + 1) 0) = year.
Proof.
  intros year month. pose proof (regular_fixed tz) as Hz.
  destruct (daysInMonth_last tz now Hz) as [Hlast Hdim]. fold year month in Hlast, Hdim.
  destruct (daysInMonth_bounds tz now Hz) as [Hlen Hdate].
  split; [|split; [|split; [|split]]].
  - unfold startOfMonth, JSDate.newDate, JSDate.UTC. fold year month. rewrite Hdim.
    rewrite (MakeDay_date year (month + 1) 0). simpl. lia.
  - done.
  - split; [apply daysPassed_range|done].
  - unfold JSDate.getMonth. rewrite localDay_newDate by done. by rewrite Hlast.
  - unfold JSDate.getFullYear. rewrite localDay_newDate by done. by rewrite Hlast.
Qed.

Lemma startOfMonth_le (tz now : Z) : startOfMonth tz now ≤ now.
Proof.
  pose proof (elapsed_in_month tz now) as H. pose proof (daysPassed_range tz now).
  pose proof (Z.mod_pos_bound (now + tz) JSDate.msPerDay ltac:(by rewrite msPerDay_eq)).
  rewrite msPerDay_eq in *.
  generalize dependent ((now + tz) `mod` 86400000).
  generalize dependent (startOfMonth tz now). generalize dependent (daysPassed tz now).
  intros. lia.
Qed.

Lemma daysUsed_range (tz now : Z) server :
  Server.createdAt server ≤ now →
  0 ≤ Z.min (daysUsed tz now server) (daysPassed tz now) ≤ daysInMonth tz now.
Proof.
  intros Hc. pose proof (daysUsed_ceiling tz now server) as H.
  pose proof (startOfMonth_le tz now).
  destruct (daysInMonth_bounds tz now (regular_fixed tz)) as [_ Hdp].
  pose proof (daysPassed_range tz now). rewrite msPerDay_eq in H. lia.
Qed.

Lemma Qscale_range (price : Q) (dim k : Z) :
  (0 <= price)%Q → 0 ≤ k ≤ dim → 0 < dim →
  (0 <= price / inject_Z dim * inject_Z k)%Q ∧ (price / inject_Z dim * inject_Z k <= price)%Q.
Proof.
  intros Hp Hk Hdim.
  assert (0 < inject_Z dim)%Q as Hd by (change 0%Q with (inject_Z 0); by rewrite <- Zlt_Qlt).
  assert (0 <= inject_Z k)%Q as Hk0 by (change 0%Q with (inject_Z 0); rewrite <- Zle_Qle; lia).
  assert (inject_Z k <= inject_Z dim)%Q as Hk1 by (rewrite <- Zle_Qle; lia).
  assert (0 <= price / inject_Z dim)%Q as Hq.
  { apply Qle_shift_div_l; [done|]. by rewrite Qmult_0_l. }
  split; [by apply Qmult_le_0_compat|].
  apply Qle_trans with (price / inject_Z dim * inject_Z dim)%Q.
  - rewrite !(Qmult_comm (price / inject_Z dim)). by apply Qmult_le_compat_r.
  - rewrite Qmult_comm, Qmult_div_r; [apply Qle_refl|].
    intros E. rewrite E in Hd. by apply Qlt_irrefl in Hd.
Qed.

Lemma foldl_Qplus_le {A} (f g : A → Q) (l : list A) :
  Forall (λ x, f x <= g x)%Q l →
  ∀ a b, (a <= b)%Q → (foldl (λ acc x, acc + f x)%Q a l <= foldl (λ acc x, acc + g x)%Q b l)%Q.
Proof.
  induction 1 as [|x l Hx _ IH]; intros a b Hab; simpl; [done|].
  apply IH. by apply Qplus_le_compat.
Qed.

(** A server created no later than the clock reads, at a price that is not
    negative, costs between nothing and its monthly price so far this
    month; so the usage to date of the report is between nothing and the
    estimated monthly cost. *)
Theorem usage_within_monthly_cost (tz now : Z) (organizationId : Id) (w : World) :
  map_Forall (λ _ s, Server.createdAt s ≤ now ∧ (0 <= Server.monthlyPrice s)%Q) (servers w) →
  let u := getUsage tz now organizationId w in
  Forall (λ p : Server.t * Q, (0 <= p.2)%Q ∧ (p.2 <= Server.monthlyPrice p.1)%Q)
    (serverUsage u)
  ∧ (0 <= currentMonthUsage u)%Q
  ∧ (currentMonthUsage u <= estimatedMonthlyCost u)%Q.
Proof.
  intros Hall u. subst u. unfold getUsage.
  set (found := filter _ (snd <$> map_to_list (servers w))).
  assert (Forall (λ s, (0 <= proratedCost tz now s)%Q
                       ∧ (proratedCost tz now s <= Server.monthlyPrice s)%Q) found) as Hf.
  { apply Forall_forall. intros s Hs. unfold found in Hs.
    apply list_elem_of_filter in Hs as [_ Hs].
    apply list_elem_of_fmap in Hs as ([id s'] & -> & Hs). apply elem_of_map_to_list in Hs.
    destruct (Hall _ _ Hs) as [Hc Hp]. simpl.
    destruct (daysInMonth_bounds tz now (regular_fixed tz)) as [Hdim _].
    apply Qscale_range; [done|by apply daysUsed_range|lia]. }
  clearbody found. unfold usage_of. cbn [serverUsage currentMonthUsage estimatedMonthlyCost].
  split; [|split].
  - apply Forall_fmap. eapply Forall_impl; [exact Hf|]. by intros s [??].
  - apply Qle_trans with (foldl (λ acc (s : Server.t), acc + 0)%Q 0%Q found).
    + rewrite foldl_Qplus_zero; [apply Qle_refl|]. by apply Forall_true.
    + apply foldl_Qplus_le; [|apply Qle_refl].
      eapply Forall_impl; [exact Hf|]. by intros s [??].
  - apply foldl_Qplus_le; [|apply Qle_refl].
    eapply Forall_impl; [exact Hf|]. by intros s [??].
Qed.

Lemma usage_within_monthly_cost_witness :
  let server := Server.mk 0%nat "web" "web.sneaky.cloud" "10.0.0.1" "eu-west-1" "aws" "custom"
                  2 4 30 200 30%Q 7%nat running true 1711929600000 in
  let u := getUsage 0 1712793600000 7%nat (set_servers {[0%nat := server]} boot) in
  (0 <= currentMonthUsage u)%Q ∧ (currentMonthUsage u <= estimatedMonthlyCost u)%Q.
Proof.
  intros server u.
  refine (proj2 (usage_within_monthly_cost 0 1712793600000 7%nat
                   (set_servers {[0%nat := server]} boot) _)).
  simpl. apply map_Forall_singleton. split; by vm_compute.
Defined.

(** * Bucketed metrics *)

#[local] Instance by_timestamp_trans : Transitive by_timestamp.
Proof. unfold by_timestamp. intros a b c ? ?. lia. Qed.

#[local] Instance by_timestamp_total : Total by_timestamp.
Proof. unfold by_timestamp. intros a b. lia. Qed.

Lemma group_of_snoc_same interval ms m :
  push m (group_of interval (intervalStart interval (ServerMetric.timestamp m)) ms)
  = group_of interval (intervalStart interval (ServerMetric.timestamp m)) (ms ++ [m]).
Proof.
  unfold group_of, push. cbn [Group.timestamp Group.cpu Group.memory Group.disk
    Group.networkIn Group.networkOut].
  rewrite filter_app. rewrite filter_cons_True by reflexivity.
  rewrite filter_nil, !fmap_app. done.
Qed.

Lemma group_of_snoc_other interval key ms m :
  intervalStart interval (ServerMetric.timestamp m) ≠ key →
  group_of interval key (ms ++ [m]) = group_of interval key ms.
Proof.
  intros Hne. unfold group_of.
  rewrite filter_app. rewrite filter_cons_False by exact Hne.
  by rewrite filter_nil, app_nil_r.
Qed.

Lemma group_of_fresh interval ms m :
  (∀ m', m' ∈ ms → intervalStart interval (ServerMetric.timestamp m')
                   ≠ intervalStart interval (ServerMetric.timestamp m)) →
  push m (Group.mk (intervalStart interval (ServerMetric.timestamp m)) [] [] [] [] [])
  = group_of interval (intervalStart interval (ServerMetric.timestamp m)) (ms ++ [m]).
Proof.
  intros Hfresh. rewrite <- group_of_snoc_same. f_equal. unfold group_of.
  rewrite filter_none; [done|]. exact Hfresh.
Qed.

Lemma group_step_keys key m acc :
  Group.timestamp <$> group_step key m acc
  = if decide (key ∈ Group.timestamp <$> acc) then Group.timestamp <$> acc
    else (Group.timestamp <$> acc) ++ [key].
Proof.
  induction acc as [|g acc IH]; cbn [group_step].
  - case_decide as Hin; [by apply elem_of_nil in Hin|done].
  - rewrite (fmap_cons Group.timestamp g acc).
    destruct (decide (Group.timestamp g = key)) as [E|E].
    + rewrite fmap_cons. cbn [push Group.timestamp].
      rewrite decide_True; [done|]. rewrite E. apply list_elem_of_here.
    + rewrite fmap_cons, IH. destruct (decide (key ∈ Group.timestamp <$> acc)) as [Hin|Hin].
      * rewrite decide_True; [done|]. by apply list_elem_of_further.
      * rewrite decide_False; [done|]. rewrite not_elem_of_cons. split; [congruence|done].
Qed.

Lemma group_step_eq key m acc :
  NoDup (Group.timestamp <$> acc) →
  group_step key m acc
  = if decide (key ∈ Group.timestamp <$> acc)
    then (λ g, if decide (Group.timestamp g = key) then push m g else g) <$> acc
    else acc ++ [push m (Group.mk key [] [] [] [] [])].
Proof.
  induction acc as [|g acc IH]; cbn [group_step]; intros Hnd.
  - case_decide as Hin; [by apply elem_of_nil in Hin|done].
  - rewrite (fmap_cons Group.timestamp g acc) in *.
    apply NoDup_cons in Hnd as [Hg Hnd].
    destruct (decide (Group.timestamp g = key)) as [E|E].
    + rewrite decide_True by (rewrite E; apply list_elem_of_here).
      rewrite fmap_cons, decide_True by done. f_equal.
      rewrite <- (list_fmap_id acc) at 1. apply list_fmap_ext.
      intros i g' Hg'. rewrite decide_False; [done|].
      intros E'. apply Hg. rewrite E, <- E'. apply list_elem_of_fmap_2.
      by eapply list_elem_of_lookup_2.
    + rewrite IH by done. destruct (decide (key ∈ Group.timestamp <$> acc)) as [Hin|Hin].
      * rewrite decide_True by (by apply list_elem_of_further).
        by rewrite fmap_cons, decide_False.
      * rewrite decide_False; [done|]. rewrite not_elem_of_cons. split; [congruence|done].
Qed.

(** What the reducer has built after the samples [ms]: one group for each
    bucket that has a sample, holding the values of the bucket's samples in
    their order. *)
Lemma groupedMetrics_spec interval ms :
  let acc := groupedMetrics interval ms in
  NoDup (Group.timestamp <$> acc)
  ∧ (∀ g, g ∈ acc →
          g = group_of interval (Group.timestamp g) ms
          ∧ ∃ m, m ∈ ms ∧ intervalStart interval (ServerMetric.timestamp m) = Group.timestamp g)
  ∧ (∀ m, m ∈ ms →
          intervalStart interval (ServerMetric.timestamp m) ∈ Group.timestamp <$> acc).
Proof.
  induction ms as [|m ms IH] using rev_ind.
  - split; [constructor|]. split; intros ? Hin; by apply elem_of_nil in Hin.
  - destruct IH as (Hnd & Hall & Hcover). unfold groupedMetrics in *.
    rewrite foldl_snoc. cbv zeta.
    set (acc := foldl _ [] ms) in *. clearbody acc.
    set (key := intervalStart interval (ServerMetric.timestamp m)).
    pose proof (group_step_keys key m acc) as Hkeys.
    rewrite (group_step_eq key m acc Hnd) in *.
    destruct (decide (key ∈ Group.timestamp <$> acc)) as [Hin|Hin].
    + split; [by rewrite Hkeys|]. split.
      * intros g' (g & -> & Hg)%list_elem_of_fmap. destruct (Hall g Hg) as (Heq & m' & Hm' & Hk).
        destruct (decide (Group.timestamp g = key)) as [E|E].
        -- split.
           ++ cbn [push Group.timestamp]. rewrite E. unfold key. rewrite <- group_of_snoc_same.
              fold key. rewrite <- E. by rewrite <- Heq.
           ++ exists m'. split; [apply elem_of_app; by left|done].
        -- split.
           ++ rewrite group_of_snoc_other by (fold key; congruence). done.
           ++ exists m'. split; [apply elem_of_app; by left|done].
      * rewrite Hkeys. intros m' [Hm'|Hm'%list_elem_of_singleton]%elem_of_app;
          [by apply Hcover|by subst m'].
    + split; [|split].
      * rewrite Hkeys. apply NoDup_app. split; [done|].
        split; [|apply NoDup_singleton].
        intros k Hk Hk'%list_elem_of_singleton. by subst k.
      * intros g' [Hg|Hg%list_elem_of_singleton]%elem_of_app; [|subst g'].
        -- destruct (Hall g' Hg) as (Heq & m' & Hm' & Hk). split.
           ++ rewrite group_of_snoc_other; [done|]. fold key. intros E. apply Hin.
              rewrite E. by apply list_elem_of_fmap_2.
           ++ exists m'. split; [apply elem_of_app; by left|done].
        -- split.
           ++ apply group_of_fresh. intros m' Hm' E. apply Hin. fold key in E.
              rewrite <- E. by apply Hcover.
           ++ exists m. split; [apply elem_of_app; right; apply list_elem_of_here|done].
      * rewrite Hkeys. intros m' [Hm'|Hm'%list_elem_of_singleton]%elem_of_app; [|subst m'].
        -- apply elem_of_app. left. by apply Hcover.
        -- apply elem_of_app. right. apply list_elem_of_here.
Qed.

Lemma intervalStart_bucket interval t start :
  0 < interval →
  let width := interval * 60 * 1000 in
  (width | start) →
  intervalStart interval t = start ↔ start ≤ t < start + width.
Proof.
  intros Hpos width [q ->]. unfold intervalStart. fold width.
  replace (t / width * interval * 60 * 1000) with (t / width * width) by (unfold width; lia).
  assert (0 < width) as Hw by (unfold width; lia).
  pose proof (Z.div_mod t width ltac:(lia)) as Hdm.
  pose proof (Z.mod_pos_bound t width Hw) as Hm.
  split.
  - intros E. apply Z.mul_cancel_r in E; [|lia]. nia.
  - intros Ht. f_equal. symmetry. apply (Z.div_unique t width q (t - q * width)); lia.
Qed.

Lemma intervalStart_divide interval t : (interval * 60 * 1000 | intervalStart interval t).
Proof. exists (t / (interval * 60 * 1000)). unfold intervalStart. lia. Qed.

Lemma StronglySorted_strict (l : list Point.t) :
  StronglySorted by_timestamp l → NoDup (Point.timestamp <$> l) →
  StronglySorted (λ a b, Point.timestamp a < Point.timestamp b) l.
Proof.
  induction 1 as [|p l Hs IH Hall]; intros Hnd; [constructor|].
  simpl in Hnd. apply NoDup_cons in Hnd as [Hp Hnd]. constructor; [by apply IH|].
  rewrite Forall_forall in *. intros p' Hp'. specialize (Hall p' Hp'). unfold by_timestamp in Hall.
  destruct (decide (Point.timestamp p = Point.timestamp p')) as [E|E]; [|lia].
  exfalso. apply Hp. rewrite E. by apply list_elem_of_fmap_2.
Qed.

Lemma getServerMetrics_elem serverId hours now w m :
  m ∈ getServerMetrics serverId hours now w
  ↔ m ∈ serverMetrics w ∧ ServerMetric.serverId m = serverId
    ∧ now - hours * 60 * 60 * 1000 ≤ ServerMetric.timestamp m.
Proof.
  unfold getServerMetrics, orderBy_timestamp_asc. cbv zeta.
  rewrite merge_sort_Permutation, list_elem_of_filter. tauto.
Qed.

Lemma interval_of_valid hours :
  validHours hours = true →
  interval_of (or_default hours 24)
  = if or_default hours 24 <=? 24 then 5 else 60.
Proof.
  unfold validHours, interval_of, or_default. destruct hours as [h|]; [|done].
  intros Hh%bool_decide_eq_true.
  destruct (Z.eqb_spec h 0); [lia|].
  destruct (Z.leb_spec h 24); [done|]. destruct (Z.leb_spec h 168); [done|lia].
Qed.

(** The metrics report of a server (monitoring.ts:132-209).  The buckets
    are 5 minutes wide for a window of up to 24 hours and 60 minutes wide
    beyond; the 6-hour width is never used.  The points come with strictly
    increasing times, each a multiple of the width; a point stands for the
    samples of the window in its bucket, of which there is at least one, and
    each of its values is the average of theirs; and every sample of the
    window is in the bucket of a point. *)
Theorem bucketed_metrics (organizationId id : Id) (hours : option Z) (now : Z) (w : World)
    (report : MetricsReport.t) :
  getMetrics organizationId id hours now w = inr report →
  let h := or_default hours 24 in
  let width := (if h <=? 24 then 5 else 60) * 60 * 1000 in
  let window := getServerMetrics id h now w in
  let points := MetricsReport.metrics report in
  1 ≤ h ≤ 168
  ∧ (∀ m, m ∈ window ↔ m ∈ serverMetrics w ∧ ServerMetric.serverId m = id
                         ∧ now - h * 60 * 60 * 1000 ≤ ServerMetric.timestamp m)
  ∧ StronglySorted (λ a b, Point.timestamp a < Point.timestamp b) points
  ∧ MetricsReport.dataPoints report = length points
  ∧ (∀ p, p ∈ points →
          let inside := in_bucket (Point.timestamp p) width window in
          (width | Point.timestamp p)
          ∧ inside ≠ []
          ∧ Point.cpuUsage p = average (ServerMetric.cpuUsage <$> inside)
          ∧ Point.memoryUsage p = average (ServerMetric.memoryUsage <$> inside)
          ∧ Point.diskUsage p = average (ServerMetric.diskUsage <$> inside)
          ∧ Point.networkIn p = average (ServerMetric.networkIn <$> inside)
          ∧ Point.networkOut p = average (ServerMetric.networkOut <$> inside))
  ∧ (∀ m, m ∈ window →
          ∃ p, p ∈ points
               ∧ Point.timestamp p ≤ ServerMetric.timestamp m < Point.timestamp p + width).
Proof.
  unfold getMetrics. destruct (validHours hours) eqn:Hvalid; [|done]. simpl.
  destruct (findServer id organizationId w) as [server|]; [|done].
  intros [= <-]. cbn [MetricsReport.metrics MetricsReport.dataPoints].
  rewrite (interval_of_valid hours Hvalid).
  set (h := or_default hours 24).
  set (interval := if h <=? 24 then 5 else 60).
  assert (0 < interval) as Hpos by (unfold interval; destruct (h <=? 24); lia).
  set (window := getServerMetrics id h now w).
  destruct (groupedMetrics_spec interval window) as (Hnd & Hall & Hcover).
  assert (∀ p, p ∈ processedMetrics interval window
               ↔ ∃ g, g ∈ groupedMetrics interval window ∧ p = processed g) as Hpoints.
  { intros p. unfold processedMetrics. rewrite merge_sort_Permutation, list_elem_of_fmap.
    split; intros (g & ? & ?); by exists g. }
  split; [|split; [|split; [|split; [|split]]]].
  - unfold h, or_default. destruct hours as [x|]; [|lia].
    apply bool_decide_eq_true in Hvalid. destruct (Z.eqb_spec x 0); lia.
  - intros m. apply getServerMetrics_elem.
  - apply StronglySorted_strict.
    + apply StronglySorted_merge_sort; apply _.
    + unfold processedMetrics. rewrite merge_sort_Permutation, <- list_fmap_compose.
      exact Hnd.
  - done.
  - intros p (g & Hg & ->)%Hpoints. cbv zeta.
    destruct (Hall g Hg) as (Heq & m & Hm & Hk).
    assert (interval * 60 * 1000 | Group.timestamp g) as Hdiv
      by (rewrite <- Hk; apply intervalStart_divide).
    assert (in_bucket (Group.timestamp g) (interval * 60 * 1000) window
            = filter (λ m, intervalStart interval (ServerMetric.timestamp m)
                           = Group.timestamp g) window) as Hin.
    { unfold in_bucket. apply list_filter_iff. intros m'. symmetry.
      by apply intervalStart_bucket. }
    cbn [processed Point.timestamp Point.cpuUsage Point.memoryUsage Point.diskUsage
           Point.networkIn Point.networkOut].
    rewrite Hin. split; [done|]. split.
    + intros Hnil. assert (m ∈ filter (λ m, intervalStart interval (ServerMetric.timestamp m)
                                            = Group.timestamp g) window) as Hf
        by by apply list_elem_of_filter.
      rewrite Hnil in Hf. by apply elem_of_nil in Hf.
    + pose proof (f_equal Group.cpu Heq) as H1. pose proof (f_equal Group.memory Heq) as H2.
      pose proof (f_equal Group.disk Heq) as H3.
      pose proof (f_equal Group.networkIn Heq) as H4.
      pose proof (f_equal Group.networkOut Heq) as H5.
      cbn [group_of Group.cpu Group.memory Group.disk Group.networkIn Group.networkOut]
        in H1, H2, H3, H4, H5.
      by rewrite H1, H2, H3, H4, H5.
  - intros m Hm. destruct (proj1 (list_elem_of_fmap _ _ _) (Hcover m Hm)) as (g & Hk & Hg).
    exists (processed g). split; [apply Hpoints; by exists g|].
    cbn [processed Point.timestamp].
    apply (intervalStart_bucket interval); [done| |done].
    rewrite <- Hk. apply intervalStart_divide.
Qed.

Lemma bucketed_metrics_witness :
  let create := request 1000 (POST_servers 7%nat
                  (ServerBody.mk "web" "aws" "eu-west-1" "t3.micro" None None None)) in
  let w := run [create; timeout 0%nat (λ _, 0.5%Q) false;
                tick 1%nat 120000 (λ _, 0.25%Q) false;
                tick 1%nat 180000 (λ _, 0.75%Q) false;
                tick 1%nat 500000 (λ _, 0.5%Q) false] boot in
  Point.timestamp <$> processedMetrics 5 (getServerMetrics 0%nat 1 600000 w) = [0; 300000]
  ∧ StronglySorted (λ a b, Point.timestamp a < Point.timestamp b)
      (processedMetrics 5 (getServerMetrics 0%nat 1 600000 w)).
Proof.
  intros create w. split; [by vm_compute|].
  refine (proj1 (proj2 (proj2
            (bucketed_metrics 7%nat 0%nat (Some 1) 600000 w
               (MetricsReport.mk (0%nat, "web", running)
                  (processedMetrics 5 (getServerMetrics 0%nat 1 600000 w))
                  (length (processedMetrics 5 (getServerMetrics 0%nat 1 600000 w)))
                  "1 hours" "5 minutes") _)))).
  by vm_compute.
Defined.

(** * The list of servers *)

#[local] Instance created_first_trans : Transitive created_first.
Proof. unfold created_first. intros a b c ? ?. lia. Qed.

#[local] Instance created_first_total : Total created_first.
Proof. unfold created_first. intros a b. lia. Qed.

Lemma where_field_spec v x :
  where_field v x = true ↔ ∀ y, v = Some y → y ≠ "" → x = y.
Proof.
  unfold where_field. destruct v as [y|]; [|by split].
  destruct (String.eqb_spec y "") as [->|Hne].
  - split; [|done]. by intros _ y [= <-].
  - rewrite String.eqb_eq. split.
    + by intros -> y' [= <-].
    + intros H. by apply H.
Qed.

Lemma validListQuery_range q :
  validListQuery q = true →
  1 ≤ or_default (ListQuery.page q) 1 ∧ 1 ≤ or_default (ListQuery.limit q) 10 ≤ 100.
Proof.
  unfold validListQuery, optional_min, or_default. rewrite !andb_true_iff.
  intros [[[Hp Hl] _] _]. split.
  - destruct (ListQuery.page q) as [p|]; [|lia].
    apply bool_decide_eq_true in Hp. destruct (Z.eqb_spec p 0); lia.
  - destruct (ListQuery.limit q) as [l|]; [|lia].
    apply bool_decide_eq_true in Hl. destruct (Z.eqb_spec l 0); lia.
Qed.

(** A page of the list of servers (servers.ts:45-101).  Every server on
    it is an active server of the organization that passes the filters of
    the query; the page is ordered newest first and holds the servers left
    after the pages before it, up to the limit; the total counts the
    matching servers, and the number of pages is the total divided by the
    limit, rounded up, so a page past the last is empty. *)
Theorem server_listing (organizationId : Id) (q : ListQuery.t) (w : World) (pg : Page.t) :
  getServers organizationId q w = inr pg →
  let page := or_default (ListQuery.page q) 1 in
  let limit := or_default (ListQuery.limit q) 10 in
  1 ≤ page ∧ 1 ≤ limit ≤ 100
  ∧ Page.page pg = page ∧ Page.limit pg = limit
  ∧ (∀ s n, (s, n) ∈ Page.servers pg →
            (∃ id, servers w !! id = Some s)
            ∧ Server.organizationId s = organizationId
            ∧ Server.isActive s = true
            ∧ (∀ x, ListQuery.status q = Some x → status_text (Server.status s) = x)
            ∧ (∀ x, ListQuery.provider q = Some x → Server.provider s = x))
  ∧ StronglySorted created_first (fst <$> Page.servers pg)
  ∧ Page.total pg
    = length (filter (λ s, listed organizationId q s = true)
                (snd <$> map_to_list (servers w)))
  ∧ length (Page.servers pg)
    = Nat.min (Z.to_nat limit) (Page.total pg - Z.to_nat ((page - 1) * limit))
  ∧ (Page.pages pg - 1) * limit < Z.of_nat (Page.total pg) ≤ Page.pages pg * limit
  ∧ (Page.pages pg < page → Page.servers pg = []).
Proof.
  unfold getServers. destruct (validListQuery q) eqn:Hvalid; [|done]. simpl.
  intros [= <-]. cbn [Page.page Page.limit Page.servers Page.total Page.pages].
  destruct (validListQuery_range q Hvalid) as [Hpage Hlimit].
  set (page := or_default (ListQuery.page q) 1) in *.
  set (limit := or_default (ListQuery.limit q) 10) in *.
  set (matching := filter _ (snd <$> map_to_list (servers w))).
  set (sorted := merge_sort created_first matching).
  assert (length sorted = length matching) as Hlen
    by (unfold sorted; by rewrite merge_sort_Permutation).
  assert (Qceiling (inject_Z (Z.of_nat (length matching)) / inject_Z limit)
          = - (- Z.of_nat (length matching) / limit)) as Hceil
    by (apply Qceiling_div; lia).
  pose proof (Z.div_mod (- Z.of_nat (length matching)) limit ltac:(lia)) as Hdm.
  pose proof (Z.mod_pos_bound (- Z.of_nat (length matching)) limit ltac:(lia)) as Hmod.
  split; [done|]. split; [done|]. split; [done|]. split; [done|].
  split; [|split; [|split; [|split; [|split]]]].
  - intros s n (s' & [= <- _] & Hs)%list_elem_of_fmap.
    apply subseteq_take, subseteq_drop in Hs. unfold sorted in Hs.
    rewrite merge_sort_Permutation in Hs. unfold matching in Hs.
    apply list_elem_of_filter in Hs as [Hl Hs].
    apply list_elem_of_fmap in Hs as ([id s'] & -> & Hs). apply elem_of_map_to_list in Hs.
    unfold listed in Hl. rewrite !andb_true_iff in Hl.
    destruct Hl as [[[Ho Ha] Hst] Hpr]. apply bool_decide_eq_true in Ho.
    split; [by exists id|]. split; [done|]. split; [done|]. split.
    + intros x Hx. apply (proj1 (where_field_spec _ _) Hst x Hx).
      intros ->. revert Hvalid. unfold validListQuery. rewrite Hx, !andb_true_iff. simpl.
      by intros [[_ ?] _].
    + intros x Hx. apply (proj1 (where_field_spec _ _) Hpr x Hx).
      intros ->. revert Hvalid. unfold validListQuery. rewrite Hx, !andb_true_iff. simpl.
      by intros [_ ?].
  - rewrite <- list_fmap_compose.
    rewrite (list_fmap_ext _ id) by done. rewrite list_fmap_id.
    eapply StronglySorted_sublist; [|apply StronglySorted_merge_sort; apply _].
    etransitivity; [apply sublist_take|apply sublist_drop].
  - done.
  - rewrite length_fmap, length_take, length_drop, Hlen. done.
  - rewrite Hceil. lia.
  - rewrite Hceil. intros Hpast.
    assert (length matching ≤ Z.to_nat ((page - 1) * limit))%nat as Hskip by nia.
    rewrite drop_ge by lia. by rewrite take_nil.
Qed.

Lemma server_listing_witness :
  let w := run [request 1000 (POST_servers 7%nat
                  (ServerBody.mk "web" "aws" "eu-west-1" "t3.micro" None None None));
                request 2000 (POST_servers 7%nat
                  (ServerBody.mk "db" "gcp" "us-east1" "e2-micro" None None None));
                request 3000 (POST_servers 8%nat
                  (ServerBody.mk "other" "gcp" "us-east1" "e2-micro" None None None))] boot in
  let q := ListQuery.mk (Some 2) (Some 1) None None in
  let pg := match getServers 7%nat q w with
            | inr pg => pg
            | inl _ => Page.mk [] 0 0 0%nat 0
            end in
  ((λ p, Server.name p.1) <$> Page.servers pg = ["web"]
   ∧ Page.total pg = 2%nat ∧ Page.pages pg = 2)
  ∧ length (Page.servers pg) = Nat.min (Z.to_nat 1) (Page.total pg - Z.to_nat ((2 - 1) * 1)).
Proof.
  intros w q pg. split; [by vm_compute|].
  refine (proj1 (proj2 (proj2 (proj2 (proj2 (proj2 (proj2 (proj2
            (server_listing 7%nat q w pg _))))))))).
  by vm_compute.
Defined.

(** * The overview *)

Lemma count_by_status (rows : list Server.t) :
  length rows
  = (length (filter (λ s, Server.status s = pending) rows)
     + length (filter (λ s, Server.status s = running) rows)
     + length (filter (λ s, Server.status s = stopped) rows)
     + length (filter (λ s, Server.status s = failed) rows)
     + length (filter (λ s, Server.status s = terminated) rows))%nat.
Proof.
  induction rows as [|s rows IH]; [done|].
  rewrite !filter_cons. simpl length at 1. rewrite IH.
  destruct (Server.status s); repeat case_decide; try done; simpl; lia.
Qed.

Lemma total_of_stats (c1 c2 c3 c4 c5 : nat) :
  foldl (λ sum (stat : ServerStatus * nat), sum + stat.2)%nat 0%nat
    (filter (λ stat : ServerStatus * nat, stat.2 ≠ 0%nat)
       [(pending, c1); (running, c2); (stopped, c3); (failed, c4); (terminated, c5)])
  = (c1 + c2 + c3 + c4 + c5)%nat.
Proof.
  rewrite !filter_cons, filter_nil. cbn [snd].
  repeat case_decide; simpl; lia.
Qed.

(** The overview of an organization (monitoring.ts:23-107): the total is
    the number of its active servers; a status is listed with the number of
    its active servers that have it, when there is one, and is listed once;
    the active alerts are the alerts listed, at most 10; and with no sample
    in the last hour the averages are 0. *)
Theorem overview_counts (organizationId : Id) (now : Z) (w : World) :
  let o := getOverview organizationId now w in
  let rows :=
    filter (λ s, Server.organizationId s = organizationId ∧ Server.isActive s = true)
      (snd <$> map_to_list (servers w)) in
  Overview.totalServers o = length rows
  ∧ (∀ st n, (st, n) ∈ Overview.serverStats o
             ↔ n ≠ 0%nat ∧ n = length (filter (λ s, Server.status s = st) rows))
  ∧ NoDup (fst <$> Overview.serverStats o)
  ∧ Overview.alerts o = alerts organizationId now w
  ∧ Overview.activeAlerts o = length (Overview.alerts o)
  ∧ (Overview.activeAlerts o ≤ 10)%nat
  ∧ (recentMetrics organizationId now w = [] →
     Overview.averageUsage o = AverageUsage.mk 0 0 0).
Proof.
  intros o rows. subst o. unfold getOverview.
  cbn [Overview.totalServers Overview.serverStats Overview.alerts Overview.activeAlerts
         Overview.averageUsage].
  unfold serverStats. fold rows. clearbody rows.
  split; [|split; [|split; [|split; [|split; [|split]]]]].
  - rewrite (count_by_status rows). apply total_of_stats.
  - intros st n. rewrite list_elem_of_filter, list_elem_of_fmap. cbn [snd]. split.
    + intros (Hn & st' & [= -> ->] & _). done.
    + intros [Hn ->]. split; [done|]. exists st. split; [done|].
      destruct st; repeat first [apply list_elem_of_here | apply list_elem_of_further].
  - eapply sublist_NoDup; [|apply fmap_sublist, sublist_filter].
    rewrite <- list_fmap_compose. simpl.
    by apply (bool_decide_unpack _).
  - done.
  - done.
  - rewrite length_fmap. unfold alerting. rewrite length_take. lia.
  - intros ->. done.
Qed.

Lemma below_scale (bound r : Q) : (0 < bound)%Q → (0 <= r)%Q ∧ (r < 1)%Q → below bound (r * bound).
Proof.
  intros Hb [H0 H1]. split.
  - apply Qmult_le_0_compat; [done|]. by apply Qlt_le_weak.
  - apply Qlt_le_trans with (1 * bound)%Q; [by apply Qmult_lt_compat_r|].
    rewrite Qmult_1_l. apply Qle_refl.
Qed.

Lemma sample_in_range_sample id serverId now rnd :
  (∀ i : nat, (0 <= rnd i)%Q ∧ (rnd i < 1)%Q) → sample_in_range (sample id serverId now rnd).
Proof.
  intros Hrnd. unfold sample_in_range, sample. simpl.
  repeat split; apply below_scale; done.
Qed.

Lemma samples_in_range_step e w :
  unit_draws e → Forall sample_in_range (serverMetrics w) →
  Forall sample_in_range (serverMetrics (step e w)).
Proof.
  intros He Hall. destruct (insertion e w) as [m|] eqn:Hi.
  - destruct (serverMetrics_insertion e w m Hi) as [_ ->].
    apply Forall_forall. intros x Hx.
    assert (x ∈ serverMetrics w ++ [m]) as Hin.
    { destruct (undisturbed e); [|done]. unfold deleteMany in Hx.
      by apply list_elem_of_filter in Hx as [_ ?]. }
    apply elem_of_app in Hin as [Hin|Hin%list_elem_of_singleton];
      [by apply (proj1 (Forall_forall _ _) Hall)|subst x].
    destruct e as [now r|h rnd fault|h now rnd fault|h rnd|h now rnd|now|];
      cbn [insertion] in Hi; try done.
    + destruct fault; [done|]. destruct (intervals w !! h); [|done].
      injection Hi as <-. by apply sample_in_range_sample.
    + destruct (intervals w !! h); [|done].
      injection Hi as <-. by apply sample_in_range_sample.
  - destruct e as [now r|h rnd fault|h now rnd fault|h rnd|h now rnd|now|];
      try (rewrite serverMetrics_no_insertion; done).
    simpl. apply Forall_forall. intros x [_ Hx]%list_elem_of_filter.
    by apply (proj1 (Forall_forall _ _) Hall).
Qed.

Lemma samples_in_range_run es :
  Forall unit_draws es → Forall sample_in_range (serverMetrics (run es boot)).
Proof.
  induction es as [|e es IH] using rev_ind; intros Hes; [constructor|].
  apply Forall_app in Hes as [Hes He]. rewrite run_snoc.
  apply samples_in_range_step; [by inversion He|by apply IH].
Qed.

Lemma foldl_Qplus_const {A} (c : Q) (l : list A) (a : Q) :
  (foldl (λ acc _, acc + c) a l == a + c * inject_Z (Z.of_nat (length l)))%Q.
Proof.
  revert a. induction l as [|x l IH]; intros a.
  - simpl. ring.
  - cbn [foldl]. rewrite IH. cbn [length]. rewrite Nat2Z.inj_succ, <- Z.add_1_r, inject_Z_plus.
    ring.
Qed.

Lemma average_range {A} (f : A → Q) (l : list A) :
  Forall (λ x, below 100 (f x)) l → l ≠ [] →
  let n := inject_Z (Z.of_nat (length l)) in
  (0 <= foldl (λ acc x, acc + f x) 0 l / n)%Q ∧ (foldl (λ acc x, acc + f x) 0 l / n <= 100)%Q.
Proof.
  intros Hall Hne n.
  assert (0 < n)%Q as Hn.
  { unfold n. change 0%Q with (inject_Z 0). rewrite <- Zlt_Qlt.
    destruct l; [done|]. simpl length. lia. }
  split.
  - apply Qle_shift_div_l; [done|]. rewrite Qmult_0_l.
    apply Qle_trans with (foldl (λ acc (_ : A), acc + 0) 0 l)%Q.
    + rewrite foldl_Qplus_const. ring_simplify. apply Qle_refl.
    + apply foldl_Qplus_le; [|apply Qle_refl].
      eapply Forall_impl; [exact Hall|]. by intros x [? _].
  - apply Qle_shift_div_r; [done|].
    apply Qle_trans with (foldl (λ acc (_ : A), acc + 100) 0 l)%Q.
    + apply foldl_Qplus_le; [|apply Qle_refl].
      eapply Forall_impl; [exact Hall|]. intros x [_ ?]. by apply Qlt_le_weak.
    + rewrite foldl_Qplus_const. fold n. ring_simplify. apply Qle_refl.
Qed.

(** In a history whose draws are numbers from 0 up to 1, as those of
    [Math.random()] are, every stored sample has usages from 0 up to 100 and
    traffic from 0 up to 1000000, and the averages of the overview are
    between 0 and 100. *)
Theorem usage_is_percentage (es : list Event) (organizationId : Id) (now : Z) :
  Forall unit_draws es →
  let w := run es boot in
  let average := Overview.averageUsage (getOverview organizationId now w) in
  Forall sample_in_range (serverMetrics w)
  ∧ (0 <= AverageUsage.cpu average)%Q ∧ (AverageUsage.cpu average <= 100)%Q
  ∧ (0 <= AverageUsage.memory average)%Q ∧ (AverageUsage.memory average <= 100)%Q
  ∧ (0 <= AverageUsage.disk average)%Q ∧ (AverageUsage.disk average <= 100)%Q.
Proof.
  intros Hes w average. pose proof (samples_in_range_run es Hes) as Hall. fold w in Hall.
  split; [done|]. subst average. unfold getOverview. cbn [Overview.averageUsage].
  set (recent := recentMetrics organizationId now w).
  assert (Forall sample_in_range recent) as Hrecent.
  { rewrite Forall_forall in *. intros m Hm. apply Hall. unfold recent, recentMetrics in Hm.
    apply subseteq_take in Hm. rewrite orderBy_perm in Hm.
    by apply list_elem_of_filter in Hm as [_ Hm]. }
  clearbody recent. unfold averageUsage.
  destruct (Z.ltb_spec 0 (Z.of_nat (length recent))) as [Hpos|Hzero].
  - assert (recent ≠ []) as Hne by (intros ->; simpl in Hpos; lia).
    cbn [AverageUsage.cpu AverageUsage.memory AverageUsage.disk].
    destruct (average_range ServerMetric.cpuUsage recent) as [? ?]; [|done|].
    { eapply Forall_impl; [exact Hrecent|]. by intros m (? & _). }
    destruct (average_range ServerMetric.memoryUsage recent) as [? ?]; [|done|].
    { eapply Forall_impl; [exact Hrecent|]. by intros m (_ & ? & _). }
    destruct (average_range ServerMetric.diskUsage recent) as [? ?]; [|done|].
    { eapply Forall_impl; [exact Hrecent|]. by intros m (_ & _ & ? & _). }
    done.
  - cbn [AverageUsage.cpu AverageUsage.memory AverageUsage.disk]. repeat split; by compute.
Qed.

Lemma usage_is_percentage_witness :
  let create := request 1000 (POST_servers 7%nat
                  (ServerBody.mk "web" "aws" "eu-west-1" "t3.micro" None None None)) in
  let es := [create; timeout 0%nat (λ _, 0.5%Q) false;
             tick 1%nat 120000 (λ _, 0.25%Q) false;
             tick 1%nat 180000 (λ _, 0.75%Q) false] in
  length (serverMetrics (run es boot)) = 2%nat
  ∧ Forall sample_in_range (serverMetrics (run es boot)).
Proof.
  intros create es. split; [by vm_compute|].
  refine (proj1 (usage_is_percentage es 7%nat 200000 _)).
  repeat constructor; by compute.
Defined.

(** * Reads see the rows of the organization only *)

Lemma filter_confined {A} (P Q : A → Prop) `{!∀ x, Decision (P x)} `{!∀ x, Decision (Q x)}
    (l : list A) :
  (∀ x, x ∈ l → P x → Q x) → filter P l = filter P (filter Q l).
Proof.
  induction l as [|x l IH]; intros Hall; [done|].
  rewrite !filter_cons.
  assert (filter P l = filter P (filter Q l)) as IH'
    by (apply IH; intros y Hy; apply Hall; by right).
  destruct (decide (P x)) as [HP|HP].
  - rewrite decide_True by (apply Hall; [left|done]).
    rewrite filter_cons, decide_True by done. by rewrite IH'.
  - destruct (decide (Q x)); [|done]. by rewrite filter_cons, decide_False.
Qed.

Lemma filter_fmap_confined {A B} (f : A → B) (P : B → Prop) (Q : A → Prop)
    `{!∀ x, Decision (P x)} `{!∀ x, Decision (Q x)} (l : list A) :
  (∀ x, x ∈ l → P (f x) → Q x) → filter P (f <$> l) = filter P (f <$> filter Q l).
Proof.
  induction l as [|x l IH]; intros Hall; [done|].
  rewrite fmap_cons, !filter_cons.
  assert (filter P (f <$> l) = filter P (f <$> filter Q l)) as IH'
    by (apply IH; intros y Hy; apply Hall; by right).
  destruct (decide (P (f x))) as [HP|HP].
  - rewrite decide_True by (apply Hall; [left|done]).
    rewrite fmap_cons, filter_cons, decide_True by done. by rewrite IH'.
  - destruct (decide (Q x)); [|done]. by rewrite fmap_cons, filter_cons, decide_False.
Qed.

Lemma filter_ext_elem {A} (P Q : A → Prop) `{!∀ x, Decision (P x)} `{!∀ x, Decision (Q x)}
    (l : list A) :
  (∀ x, x ∈ l → P x ↔ Q x) → filter P l = filter Q l.
Proof.
  induction l as [|x l IH]; intros Hall; [done|].
  rewrite !filter_cons.
  assert (filter P l = filter Q l) as -> by (apply IH; intros y Hy; apply Hall; by right).
  destruct (decide (P x)) as [HP|HP].
  - rewrite decide_True; [done|]. apply Hall; [left|done].
  - rewrite decide_False; [done|]. intros HQ. apply HP, Hall; [left|done].
Qed.

Section confined.
Variable organizationId : Id.
Variables w1 w2 : World.
Hypothesis same : own_rows organizationId w1 = own_rows organizationId w2.

Lemma own_servers_same :
  filter (λ p : Id * Server.t, Server.organizationId p.2 = organizationId)
    (map_to_list (servers w1))
  = filter (λ p : Id * Server.t, Server.organizationId p.2 = organizationId)
      (map_to_list (servers w2)).
Proof using same. unfold own_rows in same. by injection same. Qed.

Lemma own_deployments_same :
  filter (λ p : Id * Deployment.t, Deployment.organizationId p.2 = organizationId)
    (map_to_list (deployments w1))
  = filter (λ p : Id * Deployment.t, Deployment.organizationId p.2 = organizationId)
      (map_to_list (deployments w2)).
Proof using same. unfold own_rows in same. by injection same. Qed.

Lemma own_metrics_same :
  filter (λ m, of_organization organizationId w1 m = true) (serverMetrics w1)
  = filter (λ m, of_organization organizationId w2 m = true) (serverMetrics w2).
Proof using same. unfold own_rows in same. by injection same. Qed.

Lemma own_server_lookup id s :
  Server.organizationId s = organizationId →
  servers w1 !! id = Some s ↔ servers w2 !! id = Some s.
Proof using same.
  intros Horg. rewrite <- !elem_of_map_to_list.
  pose proof own_servers_same as H.
  assert (∀ w, (id, s) ∈ map_to_list (servers w)
               ↔ (id, s) ∈ filter (λ p : Id * Server.t,
                                     Server.organizationId p.2 = organizationId)
                            (map_to_list (servers w))) as Hin.
  { intros w. rewrite list_elem_of_filter. simpl. tauto. }
  by rewrite (Hin w1), (Hin w2), H.
Qed.

Lemma own_findServer id :
  findServer id organizationId w1 = findServer id organizationId w2.
Proof using same.
  unfold findServer.
  destruct (servers w1 !! id) as [s1|] eqn:E1; destruct (servers w2 !! id) as [s2|] eqn:E2.
  - destruct (decide (Server.organizationId s1 = organizationId)) as [H1|H1].
    + apply (own_server_lookup id s1 H1) in E1. by simplify_eq.
    + destruct (decide (Server.organizationId s2 = organizationId)) as [H2|H2].
      * apply (own_server_lookup id s2 H2) in E2. by simplify_eq.
      * rewrite !bool_decide_eq_false_2; [done|tauto|tauto].
  - destruct (decide (Server.organizationId s1 = organizationId)) as [H1|H1].
    + apply (own_server_lookup id s1 H1) in E1. by simplify_eq.
    + rewrite bool_decide_eq_false_2; [done|tauto].
  - destruct (decide (Server.organizationId s2 = organizationId)) as [H2|H2].
    + apply (own_server_lookup id s2 H2) in E2. by simplify_eq.
    + rewrite bool_decide_eq_false_2; [done|tauto].
  - done.
Qed.

(** A query on the servers that asks for the organization. *)
Lemma own_servers_filter (P : Server.t → Prop) `{!∀ s, Decision (P s)} :
  (∀ s, P s → Server.organizationId s = organizationId) →
  filter P (snd <$> map_to_list (servers w1)) = filter P (snd <$> map_to_list (servers w2)).
Proof using same.
  intros HP.
  rewrite (filter_fmap_confined snd P
             (λ p : Id * Server.t, Server.organizationId p.2 = organizationId)
             (map_to_list (servers w1))) by (intros p _; apply HP).
  rewrite (filter_fmap_confined snd P
             (λ p : Id * Server.t, Server.organizationId p.2 = organizationId)
             (map_to_list (servers w2))) by (intros p _; apply HP).
  by rewrite own_servers_same.
Qed.

Lemma own_deployments_filter (P : Deployment.t → Prop) `{!∀ d, Decision (P d)} :
  (∀ d, (∃ id, deployments w1 !! id = Some d ∨ deployments w2 !! id = Some d) → P d →
        Deployment.organizationId d = organizationId) →
  filter P (snd <$> map_to_list (deployments w1))
  = filter P (snd <$> map_to_list (deployments w2)).
Proof using same.
  intros HP.
  rewrite (filter_fmap_confined snd P
             (λ p : Id * Deployment.t, Deployment.organizationId p.2 = organizationId)
             (map_to_list (deployments w1))).
  2:{ intros [id d] Hin%elem_of_map_to_list. apply HP. exists id. by left. }
  rewrite (filter_fmap_confined snd P
             (λ p : Id * Deployment.t, Deployment.organizationId p.2 = organizationId)
             (map_to_list (deployments w2))).
  2:{ intros [id d] Hin%elem_of_map_to_list. apply HP. exists id. by right. }
  by rewrite own_deployments_same.
Qed.

Lemma own_of_organization m :
  of_organization organizationId w1 m = true →
  servers w2 !! ServerMetric.serverId m = servers w1 !! ServerMetric.serverId m.
Proof using same.
  unfold of_organization.
  destruct (servers w1 !! ServerMetric.serverId m) as [s|] eqn:E; [|done].
  intros Horg%bool_decide_eq_true. by apply (own_server_lookup _ s Horg) in E.
Qed.

(** A query on the samples that asks for a server of the organization. *)
Lemma own_metrics_filter (P1 P2 : ServerMetric.t → Prop)
    `{!∀ m, Decision (P1 m)} `{!∀ m, Decision (P2 m)} :
  (∀ m, P1 m → of_organization organizationId w1 m = true) →
  (∀ m, P2 m → of_organization organizationId w2 m = true) →
  (∀ m, of_organization organizationId w1 m = true → P1 m ↔ P2 m) →
  filter P1 (serverMetrics w1) = filter P2 (serverMetrics w2).
Proof using same.
  intros H1 H2 H12.
  rewrite (filter_confined P1 (λ m, of_organization organizationId w1 m = true))
    by (intros m _; apply H1).
  rewrite (filter_confined P2 (λ m, of_organization organizationId w2 m = true)
             (serverMetrics w2)) by (intros m _; apply H2).
  rewrite <- own_metrics_same. apply filter_ext_elem.
  intros m [Hm _]%list_elem_of_filter. by apply H12.
Qed.

Lemma own_recentMetrics now :
  recentMetrics organizationId now w1 = recentMetrics organizationId now w2.
Proof using same.
  unfold recentMetrics. do 2 f_equal. apply own_metrics_filter.
  - by intros m [? _].
  - by intros m [? _].
  - intros m Hm. split; intros [_ ?]; (split; [|done]); [|done].
    unfold of_organization in *. by rewrite (own_of_organization m Hm).
Qed.

Lemma own_alerts now :
  alerts organizationId now w1 = alerts organizationId now w2.
Proof using same.
  unfold alerts. rewrite <- own_recentMetrics. apply list_fmap_ext.
  intros i m Hm%list_elem_of_lookup_2. unfold alerting in Hm.
  apply subseteq_take in Hm. apply list_elem_of_filter in Hm as [_ Hm].
  unfold recentMetrics in Hm. apply subseteq_take in Hm. rewrite orderBy_perm in Hm.
  apply list_elem_of_filter in Hm as [[Hm _] _].
  unfold toAlert. by rewrite (own_of_organization m Hm).
Qed.

Lemma own_getOverview now :
  getOverview organizationId now w1 = getOverview organizationId now w2.
Proof using same.
  unfold getOverview. fold (alerts organizationId now w1) (alerts organizationId now w2).
  rewrite own_alerts, own_recentMetrics.
  assert (serverStats organizationId w1 = serverStats organizationId w2) as ->; [|done].
  unfold serverStats. by rewrite own_servers_filter by by intros s [? _].
Qed.

Lemma own_getServerMetrics id hours now server :
  findServer id organizationId w1 = Some server →
  getServerMetrics id hours now w1 = getServerMetrics id hours now w2.
Proof using same.
  intros Hf1. pose proof Hf1 as Hf2. rewrite own_findServer in Hf2.
  apply findServer_Some in Hf1 as (Hs1 & Ho1 & _).
  apply findServer_Some in Hf2 as (Hs2 & Ho2 & _).
  unfold getServerMetrics. cbv zeta. f_equal. apply own_metrics_filter.
  - intros m [Hm _]. unfold of_organization. rewrite Hm, Hs1. by apply bool_decide_eq_true.
  - intros m [Hm _]. unfold of_organization. rewrite Hm, Hs2. by apply bool_decide_eq_true.
  - done.
Qed.

Lemma own_getMetrics id hours now :
  getMetrics organizationId id hours now w1 = getMetrics organizationId id hours now w2.
Proof using same.
  unfold getMetrics. destruct (negb (validHours hours)); [done|].
  rewrite <- own_findServer.
  destruct (findServer id organizationId w1) as [server|] eqn:Hf; [|done].
  by rewrite (own_getServerMetrics id _ now server Hf).
Qed.

Lemma own_getUsage tz now :
  getUsage tz now organizationId w1 = getUsage tz now organizationId w2.
Proof using same.
  unfold getUsage.
  rewrite own_servers_filter by by intros s [? _].
  by rewrite own_deployments_filter by by intros d _ ?.
Qed.
End confined.

Lemma own_getServers es1 es2 organizationId q :
  own_rows organizationId (run es1 boot) = own_rows organizationId (run es2 boot) →
  getServers organizationId q (run es1 boot) = getServers organizationId q (run es2 boot).
Proof.
  intros Hsame. set (w1 := run es1 boot) in *. set (w2 := run es2 boot) in *.
  assert (∀ es s id d, servers (run es boot) !! id = Some s →
            (∃ k, deployments (run es boot) !! k = Some d) →
            Deployment.serverId d = Server.id s →
            Deployment.organizationId d = Server.organizationId s) as Hown.
  { intros es s id d Hs [k Hd] Hsid.
    destruct (wf_servers _ (wf_run es boot wf_boot) _ _ Hs) as [Hid _].
    destruct (addressed_run es) as [_ Ha].
    destruct (Ha k d Hd) as (_ & s' & Hs' & Horg & _).
    rewrite Hsid, Hid, Hs in Hs'. by injection Hs' as <-. }
  unfold getServers. destruct (negb (validListQuery q)); [done|].
  assert (∀ s, listed organizationId q s = true → Server.organizationId s = organizationId)
    as Hlisted.
  { intros s. unfold listed. rewrite !andb_true_iff.
    by intros [[[?%bool_decide_eq_true _] _] _]. }
  rewrite (own_servers_filter organizationId w1 w2 Hsame _ Hlisted).
  do 2 f_equal. set (found := take _ _). apply list_fmap_ext.
  intros i s Hs%list_elem_of_lookup_2. f_equal. unfold found in Hs.
  apply subseteq_take, subseteq_drop in Hs. rewrite merge_sort_Permutation in Hs.
  apply list_elem_of_filter in Hs as [Hl Hs]. apply Hlisted in Hl.
  apply list_elem_of_fmap in Hs as ([id s'] & -> & Hs). apply elem_of_map_to_list in Hs.
  simpl in *.
  pose proof (proj2 (own_server_lookup organizationId w1 w2 Hsame id s' Hl) Hs) as Hs1.
  rewrite (own_deployments_filter organizationId w1 w2 Hsame); [done|].
  intros d [k [Hd|Hd]] Hsid; rewrite <- Hl.
  - by apply (Hown es1 s' id d Hs1); [exists k|].
  - by apply (Hown es2 s' id d Hs); [exists k|].
Qed.

(** Two histories that leave an organization the same rows, its servers,
    its deployments and the samples of its servers, give it the same list
    of servers, the same overview, the same metrics and the same usage
    report: what an organization reads does not depend on the rows of the
    others. *)
Theorem reads_confined_to_organization (es1 es2 : list Event) (organizationId : Id) :
  let w1 := run es1 boot in
  let w2 := run es2 boot in
  own_rows organizationId w1 = own_rows organizationId w2 →
  (∀ q, getServers organizationId q w1 = getServers organizationId q w2)
  ∧ (∀ now, getOverview organizationId now w1 = getOverview organizationId now w2)
  ∧ (∀ id hours now, getMetrics organizationId id hours now w1
                     = getMetrics organizationId id hours now w2)
  ∧ (∀ tz now, getUsage tz now organizationId w1 = getUsage tz now organizationId w2).
Proof.
  intros w1 w2 Hsame. split; [|split; [|split]].
  - intros q. by apply own_getServers.
  - intros now. by apply own_getOverview.
  - intros id hours now. by apply own_getMetrics.
  - intros tz now. by apply own_getUsage.
Qed.

Lemma reads_confined_to_organization_witness :
  let web := request 1000 (POST_servers 7%nat
               (ServerBody.mk "web" "aws" "eu-west-1" "t3.micro" None None None)) in
  let other := request 2000 (POST_servers 8%nat
                 (ServerBody.mk "other" "gcp" "us-east1" "e2-micro" None None None)) in
  servers (run [web; other] boot) ≠ servers (run [web] boot)
  ∧ getUsage 0 1712793600000 7%nat (run [web; other] boot)
    = getUsage 0 1712793600000 7%nat (run [web] boot).
Proof.
  intros web other. split.
  - intros H. apply (f_equal (λ m, m !! 1%nat)) in H. by vm_compute in H.
  - refine (proj2 (proj2 (proj2
              (reads_confined_to_organization [web; other] [web] 7%nat _))) 0 1712793600000).
    by vm_compute.
Defined.

(** * Servers of other organizations *)

Lemma findServer_foreign id org w :
  (∀ s, servers w !! id = Some s → Server.organizationId s ≠ org) →
  findServer id org w = None.
Proof.
  intros H. unfold findServer. destruct (servers w !! id) as [s|] eqn:Hs; [|done].
  rewrite bool_decide_eq_false_2; [done|]. intros [Ho _]. by apply (H s).
Qed.

(** A server of another organization is answered as a server that does not
    exist: start, stop, a deployment on it and its metrics all answer 404
    [Server not found] and change nothing; likewise a redeploy of a
    deployment of another organization answers 404 [Deployment not found]. *)
Theorem foreign_is_not_found (organizationId id : Id) (w : World) :
  ((∀ s, servers w !! id = Some s → Server.organizationId s ≠ organizationId) →
   postStart organizationId id w = (inl (HttpError "Server not found" 404), w)
   ∧ postStop organizationId id w = (inl (HttpError "Server not found" 404), w)
   ∧ (∀ now b, validDeploymentBody b = true → DeploymentBody.serverId b = id →
               postDeployment organizationId now b w
               = (inl (HttpError "Server not found" 404), w))
   ∧ (∀ hours now, validHours hours = true →
                   getMetrics organizationId id hours now w
                   = inl (HttpError "Server not found" 404)))
  ∧ ((∀ d, deployments w !! id = Some d → Deployment.organizationId d ≠ organizationId) →
     ∀ now, postRedeploy organizationId id now w
            = (inl (HttpError "Deployment not found" 404), w)).
Proof.
  split.
  - intros H. pose proof (findServer_foreign id organizationId w H) as Hf.
    split; [by unfold postStart; rewrite Hf|]. split; [by unfold postStop; rewrite Hf|].
    split.
    + intros now b Hv <-. unfold postDeployment. by rewrite Hv, Hf.
    + intros hours now Hv. unfold getMetrics. by rewrite Hv, Hf.
  - intros H now. unfold postRedeploy, findDeployment.
    destruct (deployments w !! id) as [d|] eqn:Hd; [|done].
    rewrite bool_decide_eq_false_2; [done|]. by apply H.
Qed.

Lemma foreign_is_not_found_witness :
  let w := run [request 1000 (POST_servers 8%nat
                  (ServerBody.mk "web" "aws" "eu-west-1" "t3.micro" None None None))] boot in
  Server.organizationId <$> servers w !! 0%nat = Some 8%nat
  ∧ postStart 7%nat 0%nat w = (inl (HttpError "Server not found" 404), w)
  ∧ postStop 7%nat 0%nat w = (inl (HttpError "Server not found" 404), w).
Proof.
  intros w.
  assert (Server.organizationId <$> servers w !! 0%nat = Some 8%nat) as Ho by by vm_compute.
  split; [exact Ho|].
  destruct (proj1 (foreign_is_not_found 7%nat 0%nat w)) as (H1 & H2 & _); [|by split].
  intros s Hs. rewrite Hs in Ho. simpl in Ho. injection Ho as ->. lia.
Defined.

